(** * Playback synchronisation engine of go-avebi: a shallow embedding

    The three video controllers of the package (video-only, video with
    audio, live stream) are embedded as pure functions over explicit
    controller records.  The decoder (reisen) and the audio sink (ebiten's
    audio player) are collaborators of the package: they are modelled by
    what the controllers observe of them, with every failure they can
    report left free.  Wall-clock readings ([time.Now()]) are explicit
    arguments. *)

From Stdlib Require Import ZArith List String Bool Lia PrimFloat.
Import ListNotations.
Local Open Scope Z_scope.


(** ** Go values: durations, instants, errors, panics *)

(** [time.Duration] is an [int64] count of nanoseconds; its arithmetic wraps. *)
Definition Duration := Z.

Definition minDuration : Duration := - 2 ^ 63.
Definition maxDuration : Duration := 2 ^ 63 - 1.

Definition wrap64 (z : Z) : Z := (z + 2 ^ 63) mod 2 ^ 64 - 2 ^ 63.

Definition inInt64 (z : Z) : Prop := minDuration <= z <= maxDuration.

Definition durAdd (a b : Duration) : Duration := wrap64 (a + b).
Definition durSub (a b : Duration) : Duration := wrap64 (a - b).

Definition Millisecond : Duration := 1000000.
Definition Second : Duration := 1000 * Millisecond.

(** [time.Time] is an instant, here in nanoseconds on one clock.
    [Time.Sub] saturates at the ends of [Duration]. *)
Definition Time := Z.

(** [time.Time{}], January 1 of year 1, counted from the Unix epoch. *)
Definition zeroTime : Time := -62135596800 * Second.

Definition timeAfter (t u : Time) : bool := u <? t.

Definition timeSub (t u : Time) : Duration :=
  let d := t - u in
  if d <? minDuration then minDuration
  else if maxDuration <? d then maxDuration
  else d.

Definition timeAdd (t : Time) (d : Duration) : Time := t + d.

(** The position a reference clock [(referencePosition, referenceTime)]
    projects at [now] while playing, as both wall-clock controllers
    compute it: a reading before the reference time counts as the
    reference time. *)
Definition projected (referencePosition : Duration) (referenceTime now : Time) : Duration :=
  let now := if timeAfter referenceTime now then referenceTime else now in
  durAdd referencePosition (timeSub now referenceTime).

(** Errors are compared by identity in the package ([errors.Is]); the
    errors of the collaborators are kept apart by their message. *)
Inductive error : Type :=
| ErrNoVideo
| ErrNilAudioContext
| ErrBadSampleRate
| ErrTooManyChannels
| ErrNoAudio
| ErrNonNilAudioContext
| ErrSeekLiveStream        (* fmt.Errorf("cannot seek in live stream") *)
| ErrNilMediaOrStream      (* fmt.Errorf("nil media or video stream") *)
| EOF                      (* io.EOF *)
| ErrCollaborator (msg : string).

(** A call either returns or panics. *)
Inductive outcome (A : Type) : Type :=
| Returned (a : A)
| Panicked (msg : string).
Arguments Returned {A} a.
Arguments Panicked {A} msg.

(** ** playback_state.go *)

Inductive PlaybackState : Type := Stopped | Playing | Paused.

Definition PlaybackState_eqb (a b : PlaybackState) : bool :=
  match a, b with
  | Stopped, Stopped | Playing, Playing | Paused, Paused => true
  | _, _ => false
  end.

(** ** controller_interface.go: the stop mode is a named boolean *)

Definition stopMode := bool.
Definition stopModeManual : stopMode := true.
Definition stopModeEndOfVideo : stopMode := false.

(** ** The decoder collaborator (reisen), as the controllers use it *)

Module Reisen.

Record VideoFrame := {
  vfData : list Byte.byte;
  vfOffset : Duration;            (* value of PresentationOffset() *)
  vfOffsetErr : option error      (* its error result *)
}.

Record AudioFrame := {
  afData : list Byte.byte;
  afOffset : Duration;
  afOffsetErr : option error
}.

(** What [ReadVideoFrame]/[ReadAudioFrame] return for a packet: an error,
    a skipped frame (found, but nil), or a frame. *)
Inductive decoded (F : Type) : Type :=
| DecodeFails (e : error)
| FrameSkipped
| Frame (f : F).
Arguments DecodeFails {F} e.
Arguments FrameSkipped {F}.
Arguments Frame {F} f.

(** A packet carries its stream type and index; the decoding result that
    the stream of that index would give for it rides along. *)
Inductive Packet : Type :=
| VideoPacket (index : Z) (d : decoded VideoFrame)
| AudioPacket (index : Z) (d : decoded AudioFrame)
| OtherPacket (index : Z).

(** One call of [Media.ReadPacket] either fails or yields a packet;
    when nothing is left it reports that no packet was found. *)
Inductive readStep : Type :=
| ReadFails (e : error)
| ReadYields (p : Packet).

Record Media := {
  upcoming : list readStep;              (* what the next reads give *)
  seekTo : Duration -> list readStep;    (* where Rewind(t) puts the demuxer *)
  openDecodeErr : option error;
  closeDecodeErr : option error;
  videoOpenErr : option error;
  videoRewindErr : option error;
  videoCloseErr : option error;
  audioOpenErr : option error;
  audioRewindErr : option error;
  audioCloseErr : option error;
  framesDecoded : nat                    (* video frames handed out so far *)
}.

Definition setUpcoming (l : list readStep) (m : Media) : Media :=
  {| upcoming := l; seekTo := seekTo m;
     openDecodeErr := openDecodeErr m; closeDecodeErr := closeDecodeErr m;
     videoOpenErr := videoOpenErr m; videoRewindErr := videoRewindErr m;
     videoCloseErr := videoCloseErr m;
     audioOpenErr := audioOpenErr m; audioRewindErr := audioRewindErr m;
     audioCloseErr := audioCloseErr m;
     framesDecoded := framesDecoded m |}.

Definition setFramesDecoded (n : nat) (m : Media) : Media :=
  {| upcoming := upcoming m; seekTo := seekTo m;
     openDecodeErr := openDecodeErr m; closeDecodeErr := closeDecodeErr m;
     videoOpenErr := videoOpenErr m; videoRewindErr := videoRewindErr m;
     videoCloseErr := videoCloseErr m;
     audioOpenErr := audioOpenErr m; audioRewindErr := audioRewindErr m;
     audioCloseErr := audioCloseErr m;
     framesDecoded := n |}.

(** [Media.ReadPacket] *)
Inductive readResult : Type :=
| ReadError (e : error)
| NoPacket
| GotPacket (p : Packet).

Definition ReadPacket (m : Media) : readResult * Media :=
  match upcoming m with
  | [] => (NoPacket, m)
  | ReadFails e :: rest => (ReadError e, setUpcoming rest m)
  | ReadYields p :: rest => (GotPacket p, setUpcoming rest m)
  end.

(** [Stream.Rewind(t)], on the video and on the audio stream: both seek
    the one demuxer. *)
Definition VideoRewind (t : Duration) (m : Media) : Media * option error :=
  match videoRewindErr m with
  | Some e => (m, Some e)
  | None => (setUpcoming (seekTo m t) m, None)
  end.

Definition AudioRewind (t : Duration) (m : Media) : Media * option error :=
  match audioRewindErr m with
  | Some e => (m, Some e)
  | None => (setUpcoming (seekTo m t) m, None)
  end.

Definition PresentationOffset (f : VideoFrame) : Duration * option error :=
  (vfOffset f, vfOffsetErr f).

(** Static data of the streams. *)
Record VideoStream := {
  vsIndex : Z;
  vsFrameRateNum : Z;
  vsFrameRateDen : Z;
  vsDuration : Duration;
  vsDurationErr : option error
}.

Record AudioStream := {
  asIndex : Z;
  asSampleRate : Z;
  asChannelCount : Z;
  asDuration : Duration;
  asDurationErr : option error
}.

End Reisen.
Import Reisen.

(** ** The video-only controller ([videoOnlyController]) *)

Module VideoOnly.

Record controller := {
  media : Media;
  stream : VideoStream;
  duration : Duration;
  frameDuration : Duration;
  referenceTime : Time;
  referencePosition : Duration;
  looping : bool;
  videoPendingLoop : bool;
  state : PlaybackState;
  lastReadFrame : option VideoFrame;
  logged : list string                 (* what went to pkgLogger *)
}.

Definition setMedia (m : Media) (c : controller) : controller :=
  {| media := m; stream := stream c; duration := duration c;
     frameDuration := frameDuration c; referenceTime := referenceTime c;
     referencePosition := referencePosition c; looping := looping c;
     videoPendingLoop := videoPendingLoop c; state := state c;
     lastReadFrame := lastReadFrame c; logged := logged c |}.

Definition setReferenceTime (t : Time) (c : controller) : controller :=
  {| media := media c; stream := stream c; duration := duration c;
     frameDuration := frameDuration c; referenceTime := t;
     referencePosition := referencePosition c; looping := looping c;
     videoPendingLoop := videoPendingLoop c; state := state c;
     lastReadFrame := lastReadFrame c; logged := logged c |}.

Definition setReferencePosition (p : Duration) (c : controller) : controller :=
  {| media := media c; stream := stream c; duration := duration c;
     frameDuration := frameDuration c; referenceTime := referenceTime c;
     referencePosition := p; looping := looping c;
     videoPendingLoop := videoPendingLoop c; state := state c;
     lastReadFrame := lastReadFrame c; logged := logged c |}.

Definition setLooping (b : bool) (c : controller) : controller :=
  {| media := media c; stream := stream c; duration := duration c;
     frameDuration := frameDuration c; referenceTime := referenceTime c;
     referencePosition := referencePosition c; looping := b;
     videoPendingLoop := videoPendingLoop c; state := state c;
     lastReadFrame := lastReadFrame c; logged := logged c |}.

Definition setVideoPendingLoop (b : bool) (c : controller) : controller :=
  {| media := media c; stream := stream c; duration := duration c;
     frameDuration := frameDuration c; referenceTime := referenceTime c;
     referencePosition := referencePosition c; looping := looping c;
     videoPendingLoop := b; state := state c;
     lastReadFrame := lastReadFrame c; logged := logged c |}.

Definition setState (s : PlaybackState) (c : controller) : controller :=
  {| media := media c; stream := stream c; duration := duration c;
     frameDuration := frameDuration c; referenceTime := referenceTime c;
     referencePosition := referencePosition c; looping := looping c;
     videoPendingLoop := videoPendingLoop c; state := s;
     lastReadFrame := lastReadFrame c; logged := logged c |}.

Definition setLastReadFrame (f : option VideoFrame) (c : controller) : controller :=
  {| media := media c; stream := stream c; duration := duration c;
     frameDuration := frameDuration c; referenceTime := referenceTime c;
     referencePosition := referencePosition c; looping := looping c;
     videoPendingLoop := videoPendingLoop c; state := state c;
     lastReadFrame := f; logged := logged c |}.

Definition logPrintf (msg : string) (c : controller) : controller :=
  {| media := media c; stream := stream c; duration := duration c;
     frameDuration := frameDuration c; referenceTime := referenceTime c;
     referencePosition := referencePosition c; looping := looping c;
     videoPendingLoop := videoPendingLoop c; state := state c;
     lastReadFrame := lastReadFrame c; logged := logged c ++ [msg] |}.

(** [newVideoOnlyController]; [media] and [videoStream] are never nil
    here, a zero frame-rate numerator is Go's division panic. *)
Definition newVideoOnlyController (m : Media) (videoStream : VideoStream) (now : Time)
  : outcome (option controller * option error) :=
  if vsFrameRateNum videoStream =? 0 then Panicked "integer divide by zero"
  else
    let frameDuration :=
      Z.quot (wrap64 (Second * vsFrameRateDen videoStream)) (vsFrameRateNum videoStream) in
    match vsDurationErr videoStream with
    | Some e => Returned (None, Some e)
    | None =>
        Returned (Some {| media := m; stream := videoStream;
                          duration := vsDuration videoStream;
                          frameDuration := frameDuration;
                          referenceTime := now; referencePosition := 0;
                          looping := false; videoPendingLoop := false;
                          state := Stopped; lastReadFrame := None;
                          logged := [] |}, None)
    end.

(** [noLockStop] *)
Definition noLockStop (videoStopMode : stopMode) (c : controller)
  : controller * option error :=
  let c := setVideoPendingLoop false c in
  let c := if Bool.eqb videoStopMode stopModeManual
           then setLastReadFrame None (setReferencePosition 0 c) else c in
  match state c with
  | Stopped => (c, None)
  | _ =>
      let c := setState Stopped c in
      let c := setReferenceTime zeroTime c in
      let c := if Bool.eqb videoStopMode stopModeEndOfVideo
               then setReferencePosition (duration c) c else c in
      match VideoRewind 0 (media c) with
      | (m, Some e) => (setMedia m c, Some e)
      | (m, None) =>
          let c := setMedia m c in
          match videoCloseErr m with
          | Some e => (c, Some e)
          | None => (c, closeDecodeErr m)
          end
      end
  end.

(** [noLockPosition] *)
Definition noLockPosition (now : Time) (c : controller)
  : (Duration * bool * option error) * controller :=
  let '(now, c) :=
    if timeAfter (referenceTime c) now
    then (referenceTime c,
          logPrintf "WARNING: time inconsistency, video reference time after time.Now()" c)
    else (now, c) in
  match state c with
  | Playing =>
      let position := durAdd (referencePosition c) (timeSub now (referenceTime c)) in
      if position <? duration c then ((position, false, None), c)
      else if looping c then
        match VideoRewind 0 (media c) with
        | (m, Some e) => ((position, false, Some e), setMedia m c)
        | (m, None) =>
            let c := setMedia m c in
            let c := setReferenceTime now c in
            let c := setReferencePosition (durSub position (duration c)) c in
            let c := setVideoPendingLoop true c in
            ((referencePosition c, false, None), c)
        end
      else
        let '(c, err) := noLockStop stopModeEndOfVideo c in
        let c := setReferencePosition (duration c) c in
        ((referencePosition c, true, err), c)
  | _ => ((referencePosition c, false, None), c)
  end.

(** [Play] *)
Definition Play (now : Time) (c : controller) : controller * option error :=
  match state c with
  | Playing => (c, None)
  | st =>
      let opened :=
        match st with
        | Stopped =>
            let c := setLastReadFrame None c in
            let c := setReferencePosition 0 c in
            match openDecodeErr (media c) with
            | Some e => (c, Some e)
            | None => (c, videoOpenErr (media c))
            end
        | _ => (c, None)
        end in
      match opened with
      | (c, Some e) => (c, Some e)
      | (c, None) => (setState Playing (setReferenceTime now c), None)
      end
  end.

(** [State] *)
Definition State (now : Time) (c : controller)
  : (option PlaybackState * option error) * controller :=
  match noLockPosition now c with
  | ((_, _, Some e), c) => ((None, Some e), c)
  | ((_, _, None), c) => ((Some (state c), None), c)
  end.

(** [Pause] *)
Definition Pause (now : Time) (c : controller) : controller * option error :=
  match state c with
  | Playing =>
      match noLockPosition now c with
      | ((_, _, Some e), c) => (c, Some e)
      | ((position, endedAsSideEffect, None), c) =>
          if endedAsSideEffect then (c, None)
          else (setReferencePosition position
                  (setReferenceTime now (setState Paused c)), None)
      end
  | _ => (c, None)
  end.

Definition Stop (c : controller) : controller * option error :=
  noLockStop stopModeManual c.

Definition Position (now : Time) (c : controller)
  : (Duration * option error) * controller :=
  let '((position, _, err), c) := noLockPosition now c in
  ((position, err), c).

Definition GetDuration (c : controller) : Duration := duration c.

Definition GetLooping (c : controller) : bool := looping c.
Definition SetLooping (loop : bool) (c : controller) : controller := setLooping loop c.

(** [internalReadVideoFrame]: packets are read until a video frame of the
    controller's stream comes out, a read or a decoding fails, or nothing
    is left.  The recursion is on the packets still to come. *)
Fixpoint readVideoFrameFrom (index : Z) (l : list readStep) (n : nat)
  : (option VideoFrame * option error) * (list readStep * nat) :=
  match l with
  | [] => ((None, None), ([], n))
  | ReadFails e :: rest => ((None, Some e), (rest, n))
  | ReadYields (VideoPacket i d) :: rest =>
      if i =? index then
        match d with
        | DecodeFails e => ((None, Some e), (rest, n))
        | FrameSkipped => readVideoFrameFrom index rest n
        | Frame f => ((Some f, None), (rest, S n))
        end
      else readVideoFrameFrom index rest n
  | ReadYields _ :: rest => readVideoFrameFrom index rest n
  end.

Definition internalReadVideoFrame (c : controller)
  : (option VideoFrame * option error) * controller :=
  let '(r, (rest, n)) :=
    readVideoFrameFrom (vsIndex (stream c)) (upcoming (media c))
                       (framesDecoded (media c)) in
  (r, setMedia (setFramesDecoded n (setUpcoming rest (media c))) c).

(** [Seek]; the clock is read after the frame is decoded. *)
Definition Seek (position : Duration) (now : Time) (c : controller)
  : (option VideoFrame * option error) * controller :=
  if duration c <=? position then
    let '(c, err) := noLockStop stopModeManual c in
    ((None, err), c)
  else
    let position := Z.max position 0 in
    match VideoRewind position (media c) with
    | (m, Some e) => ((None, Some e), setMedia m c)
    | (m, None) =>
        let c := setMedia m c in
        let '((frame, err), c) := internalReadVideoFrame c in
        let c := setLastReadFrame frame c in
        match err with
        | Some e => ((lastReadFrame c, Some e), c)
        | None =>
            let c := setReferencePosition position c in
            let c := setReferenceTime now c in
            ((lastReadFrame c, None), c)
        end
    end.

(** The catch-up loop of [CurrentVideoFrame].  Every turn that goes on
    takes at least one packet, so the loop is bounded by the packets to
    come; [None] stands for a bound that was too small. *)
Fixpoint catchUp (fuel : nat) (now : Time) (position prevPresOffset presOffset : Duration)
  (c : controller) : option ((option VideoFrame * bool * option error) * controller) :=
  if (durAdd presOffset (frameDuration c) <? position) || videoPendingLoop c then
    match fuel with
    | O => None
    | S fuel =>
        let c := if videoPendingLoop c && (presOffset <? prevPresOffset)
                 then setVideoPendingLoop false c else c in
        match internalReadVideoFrame c with
        | ((_, Some e), c) => Some ((None, false, Some e), c)
        | ((None, None), c) =>
            if looping c then
              match VideoRewind 0 (media c) with
              | (m, Some e) => Some ((None, false, Some e), setMedia m c)
              | (m, None) =>
                  let c := setMedia m c in
                  let c := setReferenceTime now c in
                  let c := setReferencePosition 0 c in
                  let c := setVideoPendingLoop true c in
                  Some ((lastReadFrame c, false, None), c)
              end
            else
              let '(c, err) := noLockStop stopModeEndOfVideo c in
              Some ((lastReadFrame c, true, err), c)
        | ((Some frame, None), c) =>
            let prevPresOffset := presOffset in
            match PresentationOffset frame with
            | (_, Some e) => Some ((None, false, Some e), c)
            | (presOffset, None) =>
                catchUp fuel now position prevPresOffset presOffset
                        (setLastReadFrame (Some frame) c)
            end
        end
    end
  else Some ((lastReadFrame c, false, None), c).

(** [CurrentVideoFrame] *)
Definition CurrentVideoFrame (now : Time) (c : controller)
  : option ((option VideoFrame * bool * option error) * controller) :=
  match state c with
  | Stopped =>
      Some ((lastReadFrame c, referencePosition c =? duration c, None), c)
  | _ =>
      match noLockPosition now c with
      | ((_, _, Some e), c) => Some ((None, false, Some e), c)
      | ((_, true, None), c) => Some ((lastReadFrame c, true, None), c)
      | ((position, false, None), c) =>
          let fuel := S (List.length (upcoming (media c))) in
          match lastReadFrame c with
          | None => catchUp fuel now position 0 0 c
          | Some f =>
              match PresentationOffset f with
              | (_, Some e) => Some ((None, false, Some e), c)
              | (presOffset, None) => catchUp fuel now position presOffset presOffset c
              end
          end
      end
  end.

(** [Close]: a manual stop, then the media handle is released. *)
Definition Close (c : controller) : controller * option error :=
  noLockStop stopModeManual c.

End VideoOnly.

(** ** The audio sink collaborator (ebiten's audio package) *)

Module Ebiten.

Definition float64 := PrimFloat.float.

(** An [audio.Player]: how much it has consumed, whether it runs, and
    what [Close] will answer. *)
Record Player := {
  consumed : Duration;              (* Player.Position() *)
  running : bool;
  bufferSize : Duration;
  playerVolume : float64;
  closeErr : option error
}.

(** The [audio.Context] in force, if any ([audio.CurrentContext()]). *)
Record Context := {
  ctxSampleRate : Z;
  newPlayerErr : option error;      (* what NewPlayer will answer *)
  newPlayerCloseErr : option error  (* and what closing that player will *)
}.

Definition PlayerPlay (p : Player) : Player :=
  {| consumed := consumed p; running := true; bufferSize := bufferSize p;
     playerVolume := playerVolume p; closeErr := closeErr p |}.

Definition PlayerPause (p : Player) : Player :=
  {| consumed := consumed p; running := false; bufferSize := bufferSize p;
     playerVolume := playerVolume p; closeErr := closeErr p |}.

Definition PlayerSetVolume (v : float64) (p : Player) : Player :=
  {| consumed := consumed p; running := running p; bufferSize := bufferSize p;
     playerVolume := v; closeErr := closeErr p |}.

Definition PlayerSetBufferSize (d : Duration) (p : Player) : Player :=
  {| consumed := consumed p; running := running p; bufferSize := d;
     playerVolume := playerVolume p; closeErr := closeErr p |}.

Definition NewPlayer (ctx : Context) : option Player * option error :=
  match newPlayerErr ctx with
  | Some e => (None, Some e)
  | None => (Some {| consumed := 0; running := false; bufferSize := 0;
                     playerVolume := 1%float;
                     closeErr := newPlayerCloseErr ctx |}, None)
  end.

End Ebiten.
Import Ebiten.

(** ** The audio-driven controller ([videoWithAudioController]) *)

Module WithAudio.

Definition playerBufferSize : Duration := 200 * Millisecond.

(** [math.MaxInt] on the 64-bit targets of the package. *)
Definition MaxInt : Z := 2 ^ 63 - 1.

Record controller := {
  media : Media;
  video : VideoStream;
  audio : AudioStream;
  duration : Duration;
  frameDuration : Duration;
  looping : bool;
  videoPendingLoop : bool;
  muted : bool;
  state : PlaybackState;
  volume : float64;
  lastReadFrame : option VideoFrame;
  leftoverVideo : list VideoFrame;
  audioPlayer : option Player;
  leftoverAudio : list Byte.byte;
  firstAudioFrameOffsetOnPlay : Duration;
  needsFirstAudioFrameOffset : bool;
  staticPosition : Duration
}.

Definition setMedia (x : Media) (c : controller) : controller :=
  {| media := x; video := video c; audio := audio c; duration := duration c;
     frameDuration := frameDuration c; looping := looping c;
     videoPendingLoop := videoPendingLoop c; muted := muted c;
     state := state c; volume := volume c; lastReadFrame := lastReadFrame c;
     leftoverVideo := leftoverVideo c; audioPlayer := audioPlayer c;
     leftoverAudio := leftoverAudio c;
     firstAudioFrameOffsetOnPlay := firstAudioFrameOffsetOnPlay c;
     needsFirstAudioFrameOffset := needsFirstAudioFrameOffset c;
     staticPosition := staticPosition c |}.

Definition setLooping (x : bool) (c : controller) : controller :=
  {| media := media c; video := video c; audio := audio c;
     duration := duration c; frameDuration := frameDuration c; looping := x;
     videoPendingLoop := videoPendingLoop c; muted := muted c;
     state := state c; volume := volume c; lastReadFrame := lastReadFrame c;
     leftoverVideo := leftoverVideo c; audioPlayer := audioPlayer c;
     leftoverAudio := leftoverAudio c;
     firstAudioFrameOffsetOnPlay := firstAudioFrameOffsetOnPlay c;
     needsFirstAudioFrameOffset := needsFirstAudioFrameOffset c;
     staticPosition := staticPosition c |}.

Definition setVideoPendingLoop (x : bool) (c : controller) : controller :=
  {| media := media c; video := video c; audio := audio c;
     duration := duration c; frameDuration := frameDuration c;
     looping := looping c; videoPendingLoop := x; muted := muted c;
     state := state c; volume := volume c; lastReadFrame := lastReadFrame c;
     leftoverVideo := leftoverVideo c; audioPlayer := audioPlayer c;
     leftoverAudio := leftoverAudio c;
     firstAudioFrameOffsetOnPlay := firstAudioFrameOffsetOnPlay c;
     needsFirstAudioFrameOffset := needsFirstAudioFrameOffset c;
     staticPosition := staticPosition c |}.

Definition setMuted (x : bool) (c : controller) : controller :=
  {| media := media c; video := video c; audio := audio c;
     duration := duration c; frameDuration := frameDuration c;
     looping := looping c; videoPendingLoop := videoPendingLoop c;
     muted := x; state := state c; volume := volume c;
     lastReadFrame := lastReadFrame c; leftoverVideo := leftoverVideo c;
     audioPlayer := audioPlayer c; leftoverAudio := leftoverAudio c;
     firstAudioFrameOffsetOnPlay := firstAudioFrameOffsetOnPlay c;
     needsFirstAudioFrameOffset := needsFirstAudioFrameOffset c;
     staticPosition := staticPosition c |}.

Definition setState (x : PlaybackState) (c : controller) : controller :=
  {| media := media c; video := video c; audio := audio c;
     duration := duration c; frameDuration := frameDuration c;
     looping := looping c; videoPendingLoop := videoPendingLoop c;
     muted := muted c; state := x; volume := volume c;
     lastReadFrame := lastReadFrame c; leftoverVideo := leftoverVideo c;
     audioPlayer := audioPlayer c; leftoverAudio := leftoverAudio c;
     firstAudioFrameOffsetOnPlay := firstAudioFrameOffsetOnPlay c;
     needsFirstAudioFrameOffset := needsFirstAudioFrameOffset c;
     staticPosition := staticPosition c |}.

Definition setVolume (x : float64) (c : controller) : controller :=
  {| media := media c; video := video c; audio := audio c;
     duration := duration c; frameDuration := frameDuration c;
     looping := looping c; videoPendingLoop := videoPendingLoop c;
     muted := muted c; state := state c; volume := x;
     lastReadFrame := lastReadFrame c; leftoverVideo := leftoverVideo c;
     audioPlayer := audioPlayer c; leftoverAudio := leftoverAudio c;
     firstAudioFrameOffsetOnPlay := firstAudioFrameOffsetOnPlay c;
     needsFirstAudioFrameOffset := needsFirstAudioFrameOffset c;
     staticPosition := staticPosition c |}.

Definition setLastReadFrame (x : option VideoFrame) (c : controller) : controller :=
  {| media := media c; video := video c; audio := audio c;
     duration := duration c; frameDuration := frameDuration c;
     looping := looping c; videoPendingLoop := videoPendingLoop c;
     muted := muted c; state := state c; volume := volume c;
     lastReadFrame := x; leftoverVideo := leftoverVideo c;
     audioPlayer := audioPlayer c; leftoverAudio := leftoverAudio c;
     firstAudioFrameOffsetOnPlay := firstAudioFrameOffsetOnPlay c;
     needsFirstAudioFrameOffset := needsFirstAudioFrameOffset c;
     staticPosition := staticPosition c |}.

Definition setLeftoverVideo (x : list VideoFrame) (c : controller) : controller :=
  {| media := media c; video := video c; audio := audio c;
     duration := duration c; frameDuration := frameDuration c;
     looping := looping c; videoPendingLoop := videoPendingLoop c;
     muted := muted c; state := state c; volume := volume c;
     lastReadFrame := lastReadFrame c; leftoverVideo := x;
     audioPlayer := audioPlayer c; leftoverAudio := leftoverAudio c;
     firstAudioFrameOffsetOnPlay := firstAudioFrameOffsetOnPlay c;
     needsFirstAudioFrameOffset := needsFirstAudioFrameOffset c;
     staticPosition := staticPosition c |}.

Definition setAudioPlayer (x : option Player) (c : controller) : controller :=
  {| media := media c; video := video c; audio := audio c;
     duration := duration c; frameDuration := frameDuration c;
     looping := looping c; videoPendingLoop := videoPendingLoop c;
     muted := muted c; state := state c; volume := volume c;
     lastReadFrame := lastReadFrame c; leftoverVideo := leftoverVideo c;
     audioPlayer := x; leftoverAudio := leftoverAudio c;
     firstAudioFrameOffsetOnPlay := firstAudioFrameOffsetOnPlay c;
     needsFirstAudioFrameOffset := needsFirstAudioFrameOffset c;
     staticPosition := staticPosition c |}.

Definition setLeftoverAudio (x : list Byte.byte) (c : controller) : controller :=
  {| media := media c; video := video c; audio := audio c;
     duration := duration c; frameDuration := frameDuration c;
     looping := looping c; videoPendingLoop := videoPendingLoop c;
     muted := muted c; state := state c; volume := volume c;
     lastReadFrame := lastReadFrame c; leftoverVideo := leftoverVideo c;
     audioPlayer := audioPlayer c; leftoverAudio := x;
     firstAudioFrameOffsetOnPlay := firstAudioFrameOffsetOnPlay c;
     needsFirstAudioFrameOffset := needsFirstAudioFrameOffset c;
     staticPosition := staticPosition c |}.

Definition setFirstAudioFrameOffsetOnPlay (x : Duration) (c : controller) : controller :=
  {| media := media c; video := video c; audio := audio c;
     duration := duration c; frameDuration := frameDuration c;
     looping := looping c; videoPendingLoop := videoPendingLoop c;
     muted := muted c; state := state c; volume := volume c;
     lastReadFrame := lastReadFrame c; leftoverVideo := leftoverVideo c;
     audioPlayer := audioPlayer c; leftoverAudio := leftoverAudio c;
     firstAudioFrameOffsetOnPlay := x;
     needsFirstAudioFrameOffset := needsFirstAudioFrameOffset c;
     staticPosition := staticPosition c |}.

Definition setNeedsFirstAudioFrameOffset (x : bool) (c : controller) : controller :=
  {| media := media c; video := video c; audio := audio c;
     duration := duration c; frameDuration := frameDuration c;
     looping := looping c; videoPendingLoop := videoPendingLoop c;
     muted := muted c; state := state c; volume := volume c;
     lastReadFrame := lastReadFrame c; leftoverVideo := leftoverVideo c;
     audioPlayer := audioPlayer c; leftoverAudio := leftoverAudio c;
     firstAudioFrameOffsetOnPlay := firstAudioFrameOffsetOnPlay c;
     needsFirstAudioFrameOffset := x; staticPosition := staticPosition c |}.

Definition setStaticPosition (x : Duration) (c : controller) : controller :=
  {| media := media c; video := video c; audio := audio c;
     duration := duration c; frameDuration := frameDuration c;
     looping := looping c; videoPendingLoop := videoPendingLoop c;
     muted := muted c; state := state c; volume := volume c;
     lastReadFrame := lastReadFrame c; leftoverVideo := leftoverVideo c;
     audioPlayer := audioPlayer c; leftoverAudio := leftoverAudio c;
     firstAudioFrameOffsetOnPlay := firstAudioFrameOffsetOnPlay c;
     needsFirstAudioFrameOffset := needsFirstAudioFrameOffset c;
     staticPosition := x |}.

(** [newVideoWithAudioController] *)
Definition newVideoWithAudioController (audioContext : option Context)
  (m : Media) (videoStream : VideoStream) (audioStream : AudioStream)
  : outcome (option controller * option error) :=
  let audioSampleRate := asSampleRate audioStream in
  match audioContext with
  | None => Returned (None, Some ErrNilAudioContext)
  | Some ctx =>
      if negb (ctxSampleRate ctx =? audioSampleRate)
      then Returned (None, Some ErrBadSampleRate)
      else if vsFrameRateNum videoStream =? 0
      then Panicked "integer divide by zero"
      else
        let frameDuration :=
          Z.quot (wrap64 (Second * vsFrameRateDen videoStream))
                 (vsFrameRateNum videoStream) in
        match vsDurationErr videoStream with
        | Some e => Returned (None, Some e)
        | None =>
            match asDurationErr audioStream with
            | Some e => Returned (None, Some e)
            | None =>
                Returned
                  (Some {| media := m; video := videoStream; audio := audioStream;
                           duration := Z.max (vsDuration videoStream)
                                             (asDuration audioStream);
                           frameDuration := frameDuration;
                           looping := false; videoPendingLoop := false;
                           muted := false; state := Stopped;
                           volume := 1%float;
                           lastReadFrame := None; leftoverVideo := [];
                           audioPlayer := None; leftoverAudio := [];
                           firstAudioFrameOffsetOnPlay := 0;
                           needsFirstAudioFrameOffset := false;
                           staticPosition := 0 |}, None)
            end
        end
  end.

Definition GetVolume (c : controller) : float64 := volume c.

Definition SetVolume (v : float64) (c : controller) : controller :=
  let c := setVolume v c in
  match audioPlayer c with
  | Some p => setAudioPlayer (Some (PlayerSetVolume v p)) c
  | None => c
  end.

Definition SetMuted (b : bool) (c : controller) : controller := setMuted b c.
Definition GetMuted (c : controller) : bool := muted c.

Definition getEffectiveVolume (c : controller) : float64 :=
  if muted c then 0%float else volume c.

(** [noLockEnsureAudioHalt] *)
Definition noLockEnsureAudioHalt (c : controller) : controller * option error :=
  let halted :=
    match audioPlayer c with
    | Some p =>
        let p := PlayerPause p in
        match closeErr p with
        | Some e => (setAudioPlayer (Some p) c, Some e)
        | None => (setAudioPlayer None c, None)
        end
    | None => (c, None)
    end in
  match halted with
  | (c, Some e) => (c, Some e)
  | (c, None) =>
      (setNeedsFirstAudioFrameOffset true (setLeftoverAudio [] c), None)
  end.

(** The tail of [noLockStop]: both streams are rewound and closed, then
    the decoder is. *)
Definition rewindAndClose (c : controller) : controller * option error :=
  match VideoRewind 0 (media c) with
  | (m, Some e) => (setMedia m c, Some e)
  | (m, None) =>
      match AudioRewind 0 m with
      | (m, Some e) => (setMedia m c, Some e)
      | (m, None) =>
          let c := setMedia m c in
          match videoCloseErr m with
          | Some e => (c, Some e)
          | None =>
              match audioCloseErr m with
              | Some e => (c, Some e)
              | None => (c, closeDecodeErr m)
              end
          end
      end
  end.

(** [noLockStop] *)
Definition noLockStop (videoStopMode : stopMode) (c : controller)
  : controller * option error :=
  let manual :=
    if Bool.eqb videoStopMode stopModeManual then
      match noLockEnsureAudioHalt c with
      | (c, Some e) => (c, Some e)
      | (c, None) =>
          let c := setFirstAudioFrameOffsetOnPlay 0 c in
          let c := setStaticPosition 0 c in
          let c := setLastReadFrame None c in
          let c := setLeftoverVideo [] c in
          (setVideoPendingLoop false c, None)
      end
    else (c, None) in
  match manual with
  | (c, Some e) => (c, Some e)
  | (c, None) =>
      match state c with
      | Stopped => (c, None)
      | _ =>
          let c := setState Stopped c in
          let atEnd :=
            if Bool.eqb videoStopMode stopModeEndOfVideo then
              match noLockEnsureAudioHalt c with
              | (c, Some e) => (c, Some e)
              | (c, None) =>
                  let c := setFirstAudioFrameOffsetOnPlay 0 c in
                  let c := setStaticPosition (duration c) c in
                  (setVideoPendingLoop false c, None)
              end
            else (c, None) in
          match atEnd with
          | (c, Some e) => (c, Some e)
          | (c, None) => rewindAndClose c
          end
      end
  end.

(** [noLockPosition] *)
Definition noLockPosition (c : controller)
  : (Duration * bool * option error) * controller :=
  match audioPlayer c with
  | None => ((staticPosition c, false, None), c)
  | Some p =>
      if needsFirstAudioFrameOffset c then ((staticPosition c, false, None), c)
      else
        let position := durAdd (firstAudioFrameOffsetOnPlay c) (consumed p) in
        if position <? duration c then ((position, false, None), c)
        else
          let '(c, err) := noLockStop stopModeEndOfVideo c in
          ((duration c, true, err), c)
  end.

(** [noLockCreateAudioPlayer]; without an audio context the call
    dereferences nil. *)
Definition noLockCreateAudioPlayer (audioContext : option Context) (c : controller)
  : outcome (controller * option error) :=
  match audioContext with
  | None => Panicked "invalid memory address or nil pointer dereference"
  | Some ctx =>
      match NewPlayer ctx with
      | (p, Some e) => Returned (setAudioPlayer p c, Some e)
      | (None, None) => Panicked "invalid memory address or nil pointer dereference"
      | (Some p, None) =>
          let p := PlayerSetBufferSize playerBufferSize p in
          let p := PlayerSetVolume (getEffectiveVolume c) p in
          let c := setAudioPlayer (Some p) c in
          Returned (setNeedsFirstAudioFrameOffset true c, None)
      end
  end.

(** [Play] *)
Definition Play (audioContext : option Context) (c : controller)
  : outcome (controller * option error) :=
  match state c with
  | Playing => Returned (c, None)
  | st =>
      let opened :=
        match st with
        | Stopped =>
            match openDecodeErr (media c) with
            | Some e => (c, Some e)
            | None =>
                match videoOpenErr (media c) with
                | Some e => (c, Some e)
                | None =>
                    match audioOpenErr (media c) with
                    | Some e => (c, Some e)
                    | None =>
                        let c := setLeftoverAudio [] c in
                        let c := setLeftoverVideo [] c in
                        let c := setLastReadFrame None c in
                        (setFirstAudioFrameOffsetOnPlay 0 c, None)
                    end
                end
            end
        | _ => (c, None)
        end in
      match opened with
      | (c, Some e) => Returned (c, Some e)
      | (c, None) =>
          let created :=
            match audioPlayer c with
            | None => noLockCreateAudioPlayer audioContext c
            | Some _ => Returned (c, None)
            end in
          match created with
          | Panicked msg => Panicked msg
          | Returned (c, Some e) => Returned (c, Some e)
          | Returned (c, None) =>
              let c := setState Playing c in
              match audioPlayer c with
              | None => Panicked "invalid memory address or nil pointer dereference"
              | Some p => Returned (setAudioPlayer (Some (PlayerPlay p)) c, None)
              end
          end
      end
  end.

(** [Pause] *)
Definition Pause (c : controller) : controller * option error :=
  match state c with
  | Playing =>
      match noLockPosition c with
      | ((_, _, Some e), c) => (c, Some e)
      | ((position, endedAsSideEffect, None), c) =>
          if endedAsSideEffect then (c, None)
          else
            let c := setState Paused c in
            match noLockEnsureAudioHalt c with
            | (c, Some e) => (c, Some e)
            | (c, None) =>
                let c := setFirstAudioFrameOffsetOnPlay position c in
                (setStaticPosition position c, None)
            end
      end
  | _ => (c, None)
  end.

Definition Stop (c : controller) : controller * option error :=
  noLockStop stopModeManual c.

Definition Close (c : controller) : controller * option error :=
  noLockStop stopModeManual c.

Definition State (c : controller)
  : (option PlaybackState * option error) * controller :=
  match noLockPosition c with
  | ((_, _, Some e), c) => ((None, Some e), c)
  | ((_, _, None), c) => ((Some (state c), None), c)
  end.

(** [Seek] *)
Definition Seek (position : Duration) (c : controller)
  : outcome ((option VideoFrame * option error) * controller) :=
  Panicked "unimplemented".

Definition Position (c : controller) : (Duration * option error) * controller :=
  let '((position, _, err), c) := noLockPosition c in
  ((position, err), c).

Definition GetDuration (c : controller) : Duration := duration c.
Definition SetLooping (b : bool) (c : controller) : controller := setLooping b c.
Definition GetLooping (c : controller) : bool := looping c.

(** The loop of [CurrentVideoFrame] over the frames decoded ahead;
    [rest] is [leftoverVideo[leftoverIndex:]]. *)
Fixpoint consumeLeftover (rest : list VideoFrame) (position prevPresOffset presOffset : Duration)
  (leftoverIndex : nat) (c : controller) : option error * nat * controller :=
  match rest with
  | [] => (None, leftoverIndex, c)
  | f :: rest =>
      if (durAdd presOffset (frameDuration c) <? position) || videoPendingLoop c then
        let c := if videoPendingLoop c && (presOffset <? prevPresOffset)
                 then setVideoPendingLoop false c else c in
        let c := setLastReadFrame (Some f) c in
        let leftoverIndex := S leftoverIndex in
        let prevPresOffset := presOffset in
        match PresentationOffset f with
        | (_, Some e) => (Some e, leftoverIndex, c)
        | (presOffset, None) =>
            consumeLeftover rest position prevPresOffset presOffset leftoverIndex c
        end
      else (None, leftoverIndex, c)
  end.

(** [CurrentVideoFrame] *)
Definition CurrentVideoFrame (c : controller)
  : (option VideoFrame * bool * option error) * controller :=
  match state c with
  | Stopped => ((lastReadFrame c, false, None), c)
  | _ =>
      match noLockPosition c with
      | ((_, _, Some e), c) => ((None, false, Some e), c)
      | ((_, true, None), c) =>
          let c :=
            match leftoverVideo c with
            | [] => c
            | f :: l => setLeftoverVideo [] (setLastReadFrame (Some (last l f)) c)
            end in
          ((lastReadFrame c, true, None), c)
      | ((position, false, None), c) =>
          let start :=
            match lastReadFrame c with
            | None => (0, None)
            | Some f => PresentationOffset f
            end in
          match start with
          | (_, Some e) => ((None, false, Some e), c)
          | (presOffset, None) =>
              match consumeLeftover (leftoverVideo c) position presOffset presOffset 0 c with
              | (Some e, _, c) => ((None, false, Some e), c)
              | (None, leftoverIndex, c) =>
                  let c :=
                    if Nat.eqb leftoverIndex 0 then c
                    else if Nat.eqb leftoverIndex (List.length (leftoverVideo c))
                    then setLeftoverVideo [] c
                    else setLeftoverVideo (skipn leftoverIndex (leftoverVideo c)) c in
                  ((lastReadFrame c, false, None), c)
              end
          end
      end
  end.

(** [noLockCopyLeftoverAudio]: [room] is the length of the buffer; the
    bytes copied into it are returned. *)
Definition noLockCopyLeftoverAudio (room : nat) (c : controller)
  : list Byte.byte * controller :=
  let copied := firstn room (leftoverAudio c) in
  let copiedBytes := List.length copied in
  if Nat.leb (List.length (leftoverAudio c)) copiedBytes
  then (copied, setLeftoverAudio [] c)
  else (copied, setLeftoverAudio (skipn copiedBytes (leftoverAudio c)) c).

(** [noLockRewindForLooping] *)
Definition noLockRewindForLooping (c : controller) : controller * option error :=
  match AudioRewind 0 (media c) with
  | (m, Some e) => (setMedia m c, Some e)
  | (m, None) =>
      match VideoRewind 0 m with
      | (m, Some e) => (setMedia m c, Some e)
      | (m, None) => (setVideoPendingLoop true (setMedia m c), None)
      end
  end.

(** [noLockHackyAudioReset] *)
Definition noLockHackyAudioReset (audioContext : option Context) (c : controller)
  : outcome (controller * option error) :=
  match noLockCreateAudioPlayer audioContext c with
  | Panicked msg => Panicked msg
  | Returned (c, Some e) => Returned (c, Some e)
  | Returned (c, None) =>
      match audioPlayer c with
      | None => Panicked "invalid memory address or nil pointer dereference"
      | Some p => Returned (setAudioPlayer (Some (PlayerPlay p)) c, None)
      end
  end.

(** [internalReadAudioFrame]: packets are read until an audio frame of the
    controller's stream comes out; the video frames met on the way are
    queued.  The recursion is on the packets still to come, which are
    returned for the demuxer to keep. *)
Fixpoint readAudioFrameFrom (l : list readStep) (c : controller)
  : option error * (list readStep * controller) :=
  match l with
  | [] => (None, ([], c))
  | ReadFails e :: rest => (Some e, (rest, c))
  | ReadYields (VideoPacket i d) :: rest =>
      if negb (i =? vsIndex (video c)) then readAudioFrameFrom rest c
      else
        match d with
        | DecodeFails e => (Some e, (rest, c))
        | FrameSkipped => readAudioFrameFrom rest c
        | Frame f =>
            let m := setFramesDecoded (S (framesDecoded (media c))) (media c) in
            readAudioFrameFrom rest
              (setLeftoverVideo (leftoverVideo c ++ [f]) (setMedia m c))
        end
  | ReadYields (AudioPacket i d) :: rest =>
      if negb (i =? asIndex (audio c)) then readAudioFrameFrom rest c
      else
        match d with
        | DecodeFails e => (Some e, (rest, c))
        | FrameSkipped => readAudioFrameFrom rest c
        | Frame f =>
            let c := setLeftoverAudio (leftoverAudio c ++ afData f) c in
            if needsFirstAudioFrameOffset c then
              let c := setFirstAudioFrameOffsetOnPlay (afOffset f) c in
              match afOffsetErr f with
              | Some e => (Some e, (rest, c))
              | None => (None, (rest, setNeedsFirstAudioFrameOffset false c))
              end
            else (None, (rest, c))
        end
  | ReadYields (OtherPacket _) :: rest => readAudioFrameFrom rest c
  end.

Definition internalReadAudioFrame (c : controller) : controller * option error :=
  let '(err, (rest, c)) := readAudioFrameFrom (upcoming (media c)) c in
  (setMedia (setUpcoming rest (media c)) c, err).

(** What [Read] gives back: the bytes put at the front of the buffer,
    their count and the error. *)
Definition readReply : Type := list Byte.byte * Z * option error.

Definition reply (served : list Byte.byte) (err : option error) : readReply :=
  (served, Z.of_nat (List.length served), err).

(** The decoding loop of [Read]: [room] is what is left of the buffer,
    [served] what was put into it so far.  Every turn that goes on
    decodes an audio frame, so the loop is bounded by the packets to
    come; [None] stands for a bound that was too small. *)
Fixpoint decodeInto (fuel : nat) (audioContext : option Context) (room : nat)
  (served : list Byte.byte) (c : controller)
  : option (outcome (readReply * controller)) :=
  match room with
  | O => Some (Returned (reply served None, c))
  | S _ =>
      match fuel with
      | O => None
      | S fuel =>
          match internalReadAudioFrame c with
          | (c, Some e) => Some (Returned (reply served (Some e), c))
          | (c, None) =>
              match leftoverAudio c with
              | [] =>
                  let c := setAudioPlayer None c in
                  if looping c then
                    match noLockRewindForLooping c with
                    | (c, Some e) => Some (Returned (reply served (Some e), c))
                    | (c, None) =>
                        match noLockHackyAudioReset audioContext c with
                        | Panicked msg => Some (Panicked msg)
                        | Returned (c, Some e) =>
                            Some (Returned (reply served (Some e), c))
                        | Returned (c, None) =>
                            Some (Returned (reply served (Some EOF), c))
                        end
                    end
                  else
                    match noLockStop stopModeEndOfVideo c with
                    | (c, Some e) => Some (Returned (reply served (Some e), c))
                    | (c, None) => Some (Returned (reply served (Some EOF), c))
                    end
              | _ :: _ =>
                  let '(copied, c) := noLockCopyLeftoverAudio room c in
                  decodeInto fuel audioContext (room - List.length copied)%nat
                             (served ++ copied) c
              end
          end
      end
  end.

(** [Read]: [panicOnPartialSampleReads] is the package constant that
    picks the policy, [len] the length of the buffer of the sink. *)
Definition Read (panicOnPartialSampleReads : bool) (audioContext : option Context)
  (len : Z) (c : controller) : option (outcome (readReply * controller)) :=
  let clamped :=
    if negb (Z.land len 3 =? 0) then
      if panicOnPartialSampleReads then None
      else Some (Z.land len (MaxInt - 3))
    else Some len in
  match clamped with
  | None =>
      Some (Panicked
        "ebitengine should only provide buffers multiple of 4 for serving L16 audio data")
  | Some len =>
      let room := Z.to_nat len in
      let '(served, room, c) :=
        match leftoverAudio c with
        | [] => ([], room, c)
        | _ :: _ =>
            let '(copied, c) := noLockCopyLeftoverAudio room c in
            (copied, (room - List.length copied)%nat, c)
        end in
      match room with
      | O => Some (Returned (reply served None, c))
      | S _ =>
          decodeInto (S (List.length (upcoming (media c)))) audioContext room served c
      end
  end.

End WithAudio.

(** ** controller_stream.go: the live-stream controller *)

Module Stream.

Definition defaultJitter : Duration := 15 * Millisecond.
Definition decodeErrSleepLive : Duration := 10 * Millisecond.

(** Capacity of the channel of decoded frames. *)
Definition decodedCapacity : nat := 64.

Record controller := {
  media : Media;
  stream : VideoStream;
  state : PlaybackState;
  referenceTime : Time;
  referencePosition : Duration;
  lastReadFrame : option VideoFrame;
  havePTSBase : bool;
  ptsBase : Duration;
  wallBase : Time;
  jitter : Duration;
  stopCh : option bool;   (* nil, or a channel and whether it is closed *)
  workers : nat;   (* goroutines the wait group counts *)
  decodedCh : option (list VideoFrame);   (* nil, or the frames queued *)
  errCh : option (list error)   (* nil, or the errors queued *)
}.

Definition setMedia (x : Media) (c : controller) : controller :=
  {| media := x; stream := stream c; state := state c;
     referenceTime := referenceTime c;
     referencePosition := referencePosition c;
     lastReadFrame := lastReadFrame c; havePTSBase := havePTSBase c;
     ptsBase := ptsBase c; wallBase := wallBase c; jitter := jitter c;
     stopCh := stopCh c; workers := workers c; decodedCh := decodedCh c;
     errCh := errCh c |}.

Definition setState (x : PlaybackState) (c : controller) : controller :=
  {| media := media c; stream := stream c; state := x;
     referenceTime := referenceTime c;
     referencePosition := referencePosition c;
     lastReadFrame := lastReadFrame c; havePTSBase := havePTSBase c;
     ptsBase := ptsBase c; wallBase := wallBase c; jitter := jitter c;
     stopCh := stopCh c; workers := workers c; decodedCh := decodedCh c;
     errCh := errCh c |}.

Definition setReferenceTime (x : Time) (c : controller) : controller :=
  {| media := media c; stream := stream c; state := state c;
     referenceTime := x; referencePosition := referencePosition c;
     lastReadFrame := lastReadFrame c; havePTSBase := havePTSBase c;
     ptsBase := ptsBase c; wallBase := wallBase c; jitter := jitter c;
     stopCh := stopCh c; workers := workers c; decodedCh := decodedCh c;
     errCh := errCh c |}.

Definition setReferencePosition (x : Duration) (c : controller) : controller :=
  {| media := media c; stream := stream c; state := state c;
     referenceTime := referenceTime c; referencePosition := x;
     lastReadFrame := lastReadFrame c; havePTSBase := havePTSBase c;
     ptsBase := ptsBase c; wallBase := wallBase c; jitter := jitter c;
     stopCh := stopCh c; workers := workers c; decodedCh := decodedCh c;
     errCh := errCh c |}.

Definition setLastReadFrame (x : option VideoFrame) (c : controller) : controller :=
  {| media := media c; stream := stream c; state := state c;
     referenceTime := referenceTime c;
     referencePosition := referencePosition c; lastReadFrame := x;
     havePTSBase := havePTSBase c; ptsBase := ptsBase c;
     wallBase := wallBase c; jitter := jitter c; stopCh := stopCh c;
     workers := workers c; decodedCh := decodedCh c; errCh := errCh c |}.

Definition setHavePTSBase (x : bool) (c : controller) : controller :=
  {| media := media c; stream := stream c; state := state c;
     referenceTime := referenceTime c;
     referencePosition := referencePosition c;
     lastReadFrame := lastReadFrame c; havePTSBase := x;
     ptsBase := ptsBase c; wallBase := wallBase c; jitter := jitter c;
     stopCh := stopCh c; workers := workers c; decodedCh := decodedCh c;
     errCh := errCh c |}.

Definition setPtsBase (x : Duration) (c : controller) : controller :=
  {| media := media c; stream := stream c; state := state c;
     referenceTime := referenceTime c;
     referencePosition := referencePosition c;
     lastReadFrame := lastReadFrame c; havePTSBase := havePTSBase c;
     ptsBase := x; wallBase := wallBase c; jitter := jitter c;
     stopCh := stopCh c; workers := workers c; decodedCh := decodedCh c;
     errCh := errCh c |}.

Definition setWallBase (x : Time) (c : controller) : controller :=
  {| media := media c; stream := stream c; state := state c;
     referenceTime := referenceTime c;
     referencePosition := referencePosition c;
     lastReadFrame := lastReadFrame c; havePTSBase := havePTSBase c;
     ptsBase := ptsBase c; wallBase := x; jitter := jitter c;
     stopCh := stopCh c; workers := workers c; decodedCh := decodedCh c;
     errCh := errCh c |}.

Definition setStopCh (x : option bool) (c : controller) : controller :=
  {| media := media c; stream := stream c; state := state c;
     referenceTime := referenceTime c;
     referencePosition := referencePosition c;
     lastReadFrame := lastReadFrame c; havePTSBase := havePTSBase c;
     ptsBase := ptsBase c; wallBase := wallBase c; jitter := jitter c;
     stopCh := x; workers := workers c; decodedCh := decodedCh c;
     errCh := errCh c |}.

Definition setWorkers (x : nat) (c : controller) : controller :=
  {| media := media c; stream := stream c; state := state c;
     referenceTime := referenceTime c;
     referencePosition := referencePosition c;
     lastReadFrame := lastReadFrame c; havePTSBase := havePTSBase c;
     ptsBase := ptsBase c; wallBase := wallBase c; jitter := jitter c;
     stopCh := stopCh c; workers := x; decodedCh := decodedCh c;
     errCh := errCh c |}.

Definition setDecodedCh (x : option (list VideoFrame)) (c : controller) : controller :=
  {| media := media c; stream := stream c; state := state c;
     referenceTime := referenceTime c;
     referencePosition := referencePosition c;
     lastReadFrame := lastReadFrame c; havePTSBase := havePTSBase c;
     ptsBase := ptsBase c; wallBase := wallBase c; jitter := jitter c;
     stopCh := stopCh c; workers := workers c; decodedCh := x;
     errCh := errCh c |}.

Definition setErrCh (x : option (list error)) (c : controller) : controller :=
  {| media := media c; stream := stream c; state := state c;
     referenceTime := referenceTime c;
     referencePosition := referencePosition c;
     lastReadFrame := lastReadFrame c; havePTSBase := havePTSBase c;
     ptsBase := ptsBase c; wallBase := wallBase c; jitter := jitter c;
     stopCh := stopCh c; workers := workers c; decodedCh := decodedCh c;
     errCh := x |}.


(** [Play]; [networkErr] is the answer of [reisen.NetworkInitialize]. *)
Definition Play (networkErr : option error) (now : Time) (c : controller)
  : controller * option error :=
  match networkErr with
  | Some e => (c, Some e)
  | None =>
      match state c with
      | Playing => (c, None)
      | st =>
          let started :=
            match st with
            | Stopped =>
                let c := setLastReadFrame None c in
                let c := setReferencePosition 0 c in
                let c := setHavePTSBase false c in
                match openDecodeErr (media c) with
                | Some e => (c, Some e)
                | None =>
                    match videoOpenErr (media c) with
                    | Some e => (c, Some e)
                    | None =>
                        let c := setStopCh (Some false) c in
                        let c := setDecodedCh (Some []) c in
                        let c := setErrCh (Some []) c in
                        (setWorkers (S (S (workers c))) c, None)
                    end
                end
            | _ => (c, None)
            end in
          match started with
          | (c, Some e) => (c, Some e)
          | (c, None) => (setState Playing (setReferenceTime now c), None)
          end
      end
  end.

(** [noLockPosition] *)
Definition noLockPosition (now : Time) (c : controller)
  : (Duration * bool * option error) * controller :=
  let now := if timeAfter (referenceTime c) now then referenceTime c else now in
  match state c with
  | Playing =>
      ((durAdd (referencePosition c) (timeSub now (referenceTime c)), false, None), c)
  | _ => ((referencePosition c, false, None), c)
  end.

(** [State] *)
Definition State (now : Time) (c : controller)
  : (PlaybackState * option error) * controller :=
  let '(_, c) := noLockPosition now c in
  ((state c, None), c).

(** [Pause] *)
Definition Pause (now : Time) (c : controller) : controller * option error :=
  match state c with
  | Playing =>
      let '((pos, _, _), c) := noLockPosition now c in
      let c := setState Paused c in
      let c := setReferenceTime now c in
      (setReferencePosition pos c, None)
  | _ => (c, None)
  end.

(** [noLockStop]: the stop channel is closed and the goroutines are
    waited for before anything else is touched. *)
Definition noLockStop (mode : stopMode) (c : controller) : controller * option error :=
  let c := match stopCh c with
           | Some _ => setStopCh None c
           | None => c
           end in
  let c := setWorkers O c in
  let c := match decodedCh c with
           | Some _ => setDecodedCh None c
           | None => c
           end in
  let c := match errCh c with
           | Some _ => setErrCh None c
           | None => c
           end in
  let c := setReferencePosition 0 c in
  let c := setLastReadFrame None c in
  match state c with
  | Stopped => (c, None)
  | _ =>
      let c := setState Stopped c in
      let c := setReferenceTime zeroTime c in
      match videoCloseErr (media c) with
      | Some e => (c, Some e)
      | None => (c, closeDecodeErr (media c))
      end
  end.

Definition Stop (c : controller) : controller * option error :=
  noLockStop stopModeManual c.

Definition Close (c : controller) : controller * option error :=
  noLockStop stopModeManual c.

Definition Position (now : Time) (c : controller)
  : (Duration * option error) * controller :=
  let '((pos, _, err), c) := noLockPosition now c in
  ((pos, err), c).

Definition GetDuration (c : controller) : Duration := 0.

(** [Seek] *)
Definition Seek (position : Duration) (c : controller)
  : (option VideoFrame * option error) * controller :=
  ((None, Some ErrSeekLiveStream), c).

Definition GetLooping (c : controller) : bool := false.

(** [SetLooping] has no result and does nothing. *)
Definition SetLooping (loop : bool) (c : controller) : controller := c.

(** [CurrentVideoFrame] *)
Definition CurrentVideoFrame (c : controller)
  : (option VideoFrame * bool * option error) * controller :=
  ((lastReadFrame c, false, None), c).

(** One turn of [scheduleLoop] on a frame taken from the channel.  The
    clock is read three times: when the base is taken ([tBase]), before
    the wait ([now]) and at publication ([tPublish]); [stopped] tells
    whether the stop channel fires during the wait.  The flag returned
    tells whether the loop goes on. *)
Definition scheduleFrame (f : VideoFrame) (tBase now tPublish : Time)
  (stopped : bool) (c : controller) : controller * bool :=
  match PresentationOffset f with
  | (_, Some _) => (c, true)
  | (pts, None) =>
      let c := if havePTSBase c then c
               else setHavePTSBase true (setWallBase tBase (setPtsBase pts c)) in
      let due := timeAdd (wallBase c) (durSub pts (ptsBase c)) in
      let j := jitter c in
      let st := state c in
      if PlaybackState_eqb st Playing && timeAfter due (timeAdd now j) && stopped
      then (c, false)
      else
        let c := setLastReadFrame (Some f) c in
        let c := setReferencePosition (durSub pts (ptsBase c)) c in
        (setReferenceTime tPublish c, true)
  end.

(** Whether that turn waits for the due time before it publishes. *)
Definition scheduleWaits (f : VideoFrame) (tBase now : Time) (c : controller) : bool :=
  match PresentationOffset f with
  | (_, Some _) => false
  | (pts, None) =>
      let wall := if havePTSBase c then wallBase c else tBase in
      let base := if havePTSBase c then ptsBase c else pts in
      PlaybackState_eqb (state c) Playing
      && timeAfter (timeAdd wall (durSub pts base)) (timeAdd now (jitter c))
  end.

(** [scheduleLoop] receives from the channel of decoded frames; with the
    stop channel closed, or the channel gone or empty, nothing is
    published. *)
Definition scheduleLoop (tBase now tPublish : Time) (stopped : bool) (c : controller)
  : controller :=
  match stopCh c, decodedCh c with
  | Some false, Some (f :: rest) =>
      let c := setDecodedCh (Some rest) c in
      let '(c, goesOn) := scheduleFrame f tBase now tPublish stopped c in
      if goesOn then c else setWorkers (Nat.pred (workers c)) c
  | _, _ => c
  end.

(** One turn of [decodeLoop]: a packet is read and, when it decodes to a
    video frame of the stream, sent on the channel.  A send on a full
    channel blocks until the scheduler has taken a frame; the turn is
    then taken as a whole once there is room. *)
Definition decodeLoop (c : controller) : controller :=
  match stopCh c, decodedCh c with
  | Some false, Some queue =>
      if negb (Nat.ltb (List.length queue) decodedCapacity) then c
      else
        match ReadPacket (media c) with
        | (ReadError e, m) =>
            let c := setMedia m c in
            match errCh c with
            | Some [] => setErrCh (Some [e]) c
            | _ => c
            end
        | (NoPacket, m) => setMedia m c
        | (GotPacket (VideoPacket i d), m) =>
            let c := setMedia m c in
            if negb (i =? vsIndex (stream c)) then c
            else
              match d with
              | DecodeFails e =>
                  match errCh c with
                  | Some [] => setErrCh (Some [e]) c
                  | _ => c
                  end
              | FrameSkipped => c
              | Frame f => setDecodedCh (Some (queue ++ [f])) c
              end
        | (GotPacket _, m) => setMedia m c
        end
  | _, _ => c
  end.

(** *** The live controller as a machine

    What happens to a live controller: the calls of the
    [videoController] interface, the turns of its two goroutines, and the
    source delivering packets. *)
Inductive call : Type :=
| CallPlay (networkErr : option error) (now : Time)
| CallPause (now : Time)
| CallStop
| CallClose
| CallState (now : Time)
| CallSeek (position : Duration)
| CallPosition (now : Time)
| CallDuration
| CallSetLooping (loop : bool)
| CallGetLooping
| CallCurrentVideoFrame.

(** The results of the calls, as the interface types them. *)
Inductive result : Type :=
| NoResult
| ErrorOnly (err : option error)
| StateAnd (s : PlaybackState) (err : option error)
| FrameAnd (f : option VideoFrame) (err : option error)
| DurationAnd (d : Duration) (err : option error)
| DurationOnly (d : Duration)
| BoolOnly (b : bool)
| FrameEndAnd (f : option VideoFrame) (reachedEnd : bool) (err : option error).

(** The error a result carries, if its type has one. *)
Definition errorOf (r : result) : option error :=
  match r with
  | ErrorOnly err | StateAnd _ err | FrameAnd _ err
  | DurationAnd _ err | FrameEndAnd _ _ err => err
  | NoResult | DurationOnly _ | BoolOnly _ => None
  end.

Definition exec (k : call) (c : controller) : result * controller :=
  match k with
  | CallPlay networkErr now => let '(c, err) := Play networkErr now c in (ErrorOnly err, c)
  | CallPause now => let '(c, err) := Pause now c in (ErrorOnly err, c)
  | CallStop => let '(c, err) := Stop c in (ErrorOnly err, c)
  | CallClose => let '(c, err) := Close c in (ErrorOnly err, c)
  | CallState now => let '((s, err), c) := State now c in (StateAnd s err, c)
  | CallSeek position => let '((f, err), c) := Seek position c in (FrameAnd f err, c)
  | CallPosition now => let '((d, err), c) := Position now c in (DurationAnd d err, c)
  | CallDuration => (DurationOnly (GetDuration c), c)
  | CallSetLooping loop => (NoResult, SetLooping loop c)
  | CallGetLooping => (BoolOnly (GetLooping c), c)
  | CallCurrentVideoFrame =>
      let '((f, reachedEnd, err), c) := CurrentVideoFrame c in
      (FrameEndAnd f reachedEnd err, c)
  end.

Inductive event : Type :=
| Called (k : call)
| ScheduleTurn (tBase now tPublish : Time) (stopped : bool)
| DecodeTurn
| SourceDelivers (m : Media).

Definition step (ev : event) (c : controller) : controller :=
  match ev with
  | Called k => snd (exec k c)
  | ScheduleTurn tBase now tPublish stopped => scheduleLoop tBase now tPublish stopped c
  | DecodeTurn => decodeLoop c
  | SourceDelivers m => setMedia m c
  end.





End Stream.

(** ** player.go: construction of a player *)

Module Player.

(** What [reisen.NewMedia] opens. *)
Record Container := {
  containerMedia : Media;
  VideoStreams : list VideoStream;
  AudioStreams : list AudioStream
}.

(** The controller behind the [videoController] interface. *)
Inductive videoController : Type :=
| withoutAudio (c : VideoOnly.controller)
| withAudio (c : WithAudio.controller)
| liveStream (c : Stream.controller).

(** The player; the image its frames are copied to stays with the
    renderer. *)
Record Player := {
  controller : videoController;
  currentPresOffset : Duration;
  frameDuration : Duration;
  onBlackFrame : bool;
  reachedEnd : bool
}.

(** [newPlayer]; [opened] is the answer of [reisen.NewMedia], [now] the
    clock the video-only controller reads. *)
Definition newPlayer (opened : Container + error) (ignoreAudio : bool)
  (audioContext : option Context) (now : Time)
  : outcome (option Player * option error) :=
  match opened with
  | inr e => Returned (None, Some e)
  | inl container =>
      match VideoStreams container with
      | [] => Returned (None, Some ErrNoVideo)
      | videoStream :: _ =>
          if vsFrameRateNum videoStream =? 0 then Panicked "integer divide by zero"
          else
            let frameDuration :=
              Z.quot (wrap64 (Second * vsFrameRateDen videoStream))
                     (vsFrameRateNum videoStream) in
            let made :=
              match AudioStreams container, ignoreAudio with
              | audioStream :: _, false =>
                  match WithAudio.newVideoWithAudioController audioContext
                          (containerMedia container) videoStream audioStream with
                  | Panicked msg => Panicked msg
                  | Returned (Some c, None) => Returned (Some (withAudio c), None)
                  | Returned (_, err) => Returned (None, err)
                  end
              | _, _ =>
                  match VideoOnly.newVideoOnlyController
                          (containerMedia container) videoStream now with
                  | Panicked msg => Panicked msg
                  | Returned (Some c, None) => Returned (Some (withoutAudio c), None)
                  | Returned (_, err) => Returned (None, err)
                  end
              end in
            match made with
            | Panicked msg => Panicked msg
            | Returned (Some c, None) =>
                Returned (Some {| controller := c; currentPresOffset := 0;
                                  frameDuration := frameDuration;
                                  onBlackFrame := true; reachedEnd := false |}, None)
            | Returned (_, err) => Returned (None, err)
            end
      end
  end.

Definition NewPlayer (opened : Container + error) := newPlayer opened false.
Definition NewPlayerWithoutAudio (opened : Container + error) := newPlayer opened true.

End Player.

(** ** audio_context.go *)

Module AudioContext.
Import Player.

(** [GetMediaAudioSampleRate]; [opened] is the answer of [reisen.NewMedia]. *)
Definition GetMediaAudioSampleRate (opened : Container + error) : Z * option error :=
  match opened with
  | inr e => (0, Some e)
  | inl container =>
      match AudioStreams container with
      | [] => (0, Some ErrNoAudio)
      | audioStream :: _ => (asSampleRate audioStream, None)
      end
  end.

(** [audio.NewContext]: the context of that sample rate; what its players
    will answer ([sink]) is the business of the audio device. *)
Definition NewContext (sampleRate : Z) (sink : option error * option error) : Context :=
  {| ctxSampleRate := sampleRate; newPlayerErr := fst sink;
     newPlayerCloseErr := snd sink |}.

(** [CreateAudioContextForMedia]: [current] is [audio.CurrentContext()]
    before the call, the context returned is the one after it. *)
Definition CreateAudioContextForMedia (current : option Context)
  (opened : Container + error) (sink : option error * option error)
  : option Context * option error :=
  match current with
  | Some ctx => (Some ctx, Some ErrNonNilAudioContext)
  | None =>
      match GetMediaAudioSampleRate opened with
      | (_, Some e) => (None, Some e)
      | (sampleRate, None) => (Some (NewContext sampleRate sink), None)
      end
  end.

End AudioContext.

(** ** player.go: the methods of a player *)

Module Facade.
Import Player.

(** The image a player hands out: filled with black, or holding the
    pixels written last. *)
Inductive image : Type :=
| Black
| Pixels (data : list Byte.byte).

Record player := {
  controller : videoController;
  currentFrame : image;
  currentPresOffset : Duration;
  frameDuration : Duration;
  onBlackFrame : bool;
  reachedEnd : bool
}.

(** The player [newPlayer] returns: its image was just filled with black. *)
Definition constructed (p : Player.Player) : player :=
  {| controller := Player.controller p; currentFrame := Black;
     currentPresOffset := Player.currentPresOffset p;
     frameDuration := Player.frameDuration p;
     onBlackFrame := Player.onBlackFrame p;
     reachedEnd := Player.reachedEnd p |}.

Definition setController (x : videoController) (p : player) : player :=
  {| controller := x; currentFrame := currentFrame p;
     currentPresOffset := currentPresOffset p; frameDuration := frameDuration p;
     onBlackFrame := onBlackFrame p; reachedEnd := reachedEnd p |}.

Definition setCurrentFrame (x : image) (p : player) : player :=
  {| controller := controller p; currentFrame := x;
     currentPresOffset := currentPresOffset p; frameDuration := frameDuration p;
     onBlackFrame := onBlackFrame p; reachedEnd := reachedEnd p |}.

Definition setCurrentPresOffset (x : Duration) (p : player) : player :=
  {| controller := controller p; currentFrame := currentFrame p;
     currentPresOffset := x; frameDuration := frameDuration p;
     onBlackFrame := onBlackFrame p; reachedEnd := reachedEnd p |}.

Definition setOnBlackFrame (x : bool) (p : player) : player :=
  {| controller := controller p; currentFrame := currentFrame p;
     currentPresOffset := currentPresOffset p; frameDuration := frameDuration p;
     onBlackFrame := x; reachedEnd := reachedEnd p |}.

Definition setReachedEnd (x : bool) (p : player) : player :=
  {| controller := controller p; currentFrame := currentFrame p;
     currentPresOffset := currentPresOffset p; frameDuration := frameDuration p;
     onBlackFrame := onBlackFrame p; reachedEnd := x |}.

(** What the calls read from outside the player: the clock, the audio
    context in force and the answer of [reisen.NetworkInitialize]. *)
Record world := {
  now : Time;
  audioContext : option Context;
  networkErr : option error
}.

(** The methods of the [videoController] interface, by controller.  The
    bound of the video-only catch-up loop shows as [None]. *)
Definition controllerCurrentVideoFrame (w : world) (vc : videoController)
  : option ((option VideoFrame * bool * option error) * videoController) :=
  match vc with
  | withoutAudio c =>
      match VideoOnly.CurrentVideoFrame (now w) c with
      | Some (r, c) => Some (r, withoutAudio c)
      | None => None
      end
  | withAudio c =>
      let '(r, c) := WithAudio.CurrentVideoFrame c in Some (r, withAudio c)
  | liveStream c =>
      let '(r, c) := Stream.CurrentVideoFrame c in Some (r, liveStream c)
  end.

Definition controllerPlay (w : world) (vc : videoController)
  : outcome (videoController * option error) :=
  match vc with
  | withoutAudio c =>
      let '(c, err) := VideoOnly.Play (now w) c in Returned (withoutAudio c, err)
  | withAudio c =>
      match WithAudio.Play (audioContext w) c with
      | Panicked msg => Panicked msg
      | Returned (c, err) => Returned (withAudio c, err)
      end
  | liveStream c =>
      let '(c, err) := Stream.Play (networkErr w) (now w) c in
      Returned (liveStream c, err)
  end.

Definition controllerPause (w : world) (vc : videoController)
  : videoController * option error :=
  match vc with
  | withoutAudio c => let '(c, err) := VideoOnly.Pause (now w) c in (withoutAudio c, err)
  | withAudio c => let '(c, err) := WithAudio.Pause c in (withAudio c, err)
  | liveStream c => let '(c, err) := Stream.Pause (now w) c in (liveStream c, err)
  end.

Definition controllerStop (vc : videoController) : videoController * option error :=
  match vc with
  | withoutAudio c => let '(c, err) := VideoOnly.Stop c in (withoutAudio c, err)
  | withAudio c => let '(c, err) := WithAudio.Stop c in (withAudio c, err)
  | liveStream c => let '(c, err) := Stream.Stop c in (liveStream c, err)
  end.

Definition controllerSeek (w : world) (position : Duration) (vc : videoController)
  : outcome ((option VideoFrame * option error) * videoController) :=
  match vc with
  | withoutAudio c =>
      let '(r, c) := VideoOnly.Seek position (now w) c in Returned (r, withoutAudio c)
  | withAudio c =>
      match WithAudio.Seek position c with
      | Panicked msg => Panicked msg
      | Returned (r, c) => Returned (r, withAudio c)
      end
  | liveStream c =>
      let '(r, c) := Stream.Seek position c in Returned (r, liveStream c)
  end.

Definition controllerPosition (w : world) (vc : videoController)
  : (Duration * option error) * videoController :=
  match vc with
  | withoutAudio c => let '(r, c) := VideoOnly.Position (now w) c in (r, withoutAudio c)
  | withAudio c => let '(r, c) := WithAudio.Position c in (r, withAudio c)
  | liveStream c => let '(r, c) := Stream.Position (now w) c in (r, liveStream c)
  end.

Definition controllerDuration (vc : videoController) : Duration :=
  match vc with
  | withoutAudio c => VideoOnly.GetDuration c
  | withAudio c => WithAudio.GetDuration c
  | liveStream c => Stream.GetDuration c
  end.

(** [copyFrame] *)
Definition copyFrame (frame : option VideoFrame) (p : player) : player :=
  match frame with
  | None =>
      if negb (onBlackFrame p)
      then setOnBlackFrame true (setCurrentFrame Black p)
      else p
  | Some f => setOnBlackFrame false (setCurrentFrame (Pixels (vfData f)) p)
  end.

(** [CurrentFrame]; the image of a player is never nil. *)
Definition CurrentFrame (w : world) (p : player)
  : option ((option image * option error) * player) :=
  match controllerCurrentVideoFrame w (controller p) with
  | None => None
  | Some ((frame, justReachedEnd, err), vc) =>
      let p := setController vc p in
      match err with
      | Some e => Some ((None, Some e), p)
      | None =>
          let p := if justReachedEnd then setReachedEnd true p else p in
          match frame with
          | None =>
              let p := if negb (reachedEnd p) then copyFrame frame p else p in
              Some ((Some (currentFrame p), None), p)
          | Some f =>
              match PresentationOffset f with
              | (_, Some e) => Some ((None, Some e), p)
              | (presOffset, None) =>
                  if negb (presOffset =? currentPresOffset p) || onBlackFrame p then
                    let p := setCurrentPresOffset presOffset p in
                    let p := copyFrame frame p in
                    Some ((Some (currentFrame p), None), p)
                  else Some ((Some (currentFrame p), None), p)
              end
          end
      end
  end.

(** [Play] *)
Definition Play (w : world) (p : player) : outcome (player * option error) :=
  let p :=
    if reachedEnd p
    then setReachedEnd false (setCurrentPresOffset 0 (copyFrame None p))
    else p in
  match controllerPlay w (controller p) with
  | Panicked msg => Panicked msg
  | Returned (vc, err) => Returned (setController vc p, err)
  end.

Definition Pause (w : world) (p : player) : player * option error :=
  let '(vc, err) := controllerPause w (controller p) in (setController vc p, err).

(** [Stop] *)
Definition Stop (p : player) : player * option error :=
  let p := setCurrentPresOffset 0 p in
  let p := copyFrame None p in
  let '(vc, err) := controllerStop (controller p) in
  (setController vc p, err).

Definition Position (w : world) (p : player) : (Duration * option error) * player :=
  let '(r, vc) := controllerPosition w (controller p) in (r, setController vc p).

Definition GetDuration (p : player) : Duration := controllerDuration (controller p).

(** [Seek]; [onNil] is what [PresentationOffset] does on the nil frame
    the controller may return, which the decoder decides. *)
Definition Seek (w : world) (position : Duration)
  (onNil : outcome (Duration * option error)) (p : player)
  : outcome (player * option error) :=
  match controllerSeek w position (controller p) with
  | Panicked msg => Panicked msg
  | Returned ((frame, err), vc) =>
      let p := setController vc p in
      match err with
      | Some e => Returned (p, Some e)
      | None =>
          let p := copyFrame frame p in
          let offset :=
            match frame with
            | Some f => Returned (PresentationOffset f)
            | None => onNil
            end in
          match offset with
          | Panicked msg => Panicked msg
          | Returned (_, Some e) => Panicked "error of PresentationOffset"
          | Returned (start, None) => Returned (setCurrentPresOffset start p, None)
          end
      end
  end.

(** [HasAudio], [GetVolume], [SetVolume], [GetMuted], [SetMuted] *)
Definition HasAudio (p : player) : bool :=
  match controller p with
  | withAudio _ => true
  | _ => false
  end.

Definition GetVolume (p : player) : float64 :=
  match controller p with
  | withAudio c => WithAudio.GetVolume c
  | _ => 0%float
  end.

Definition SetVolume (volume : float64) (p : player) : player :=
  match controller p with
  | withAudio c => setController (withAudio (WithAudio.SetVolume volume c)) p
  | _ => p
  end.

Definition GetMuted (p : player) : bool :=
  match controller p with
  | withAudio c => WithAudio.GetMuted c
  | _ => true
  end.

Definition SetMuted (muted : bool) (p : player) : player :=
  match controller p with
  | withAudio c => setController (withAudio (WithAudio.SetMuted muted c)) p
  | _ => p
  end.

End Facade.

(** ** Sample media and controllers *)

Module Samples.

Definition frameAt (t : Duration) : VideoFrame :=
  {| vfData := []; vfOffset := t; vfOffsetErr := None |}.

(** A source that never fails, holding [l] from any seek target on. *)
Definition sourceOf (l : list readStep) : Media :=
  {| upcoming := l; seekTo := fun _ => l;
     openDecodeErr := None; closeDecodeErr := None;
     videoOpenErr := None; videoRewindErr := None; videoCloseErr := None;
     audioOpenErr := None; audioRewindErr := None; audioCloseErr := None;
     framesDecoded := O |}.

(** [n] video packets of stream 0, one frame each, [step] apart from [t]. *)
Fixpoint cadence (n : nat) (t step : Duration) : list readStep :=
  match n with
  | O => []
  | S n => ReadYields (VideoPacket 0 (Frame (frameAt t))) :: cadence n (t + step) step
  end.

Definition stream25 : VideoStream :=
  {| vsIndex := 0; vsFrameRateNum := 25; vsFrameRateDen := 1;
     vsDuration := 10 * Second; vsDurationErr := None |}.

(** The live controller right after construction. *)
Definition freshLive : Stream.controller :=
  {| Stream.media := sourceOf []; Stream.stream := stream25;
     Stream.state := Stopped; Stream.referenceTime := zeroTime;
     Stream.referencePosition := 0; Stream.lastReadFrame := None;
     Stream.havePTSBase := false; Stream.ptsBase := 0;
     Stream.wallBase := zeroTime; Stream.jitter := Stream.defaultJitter;
     Stream.stopCh := None; Stream.workers := O; Stream.decodedCh := None;
     Stream.errCh := None |}.

(** A video-only controller in the middle of playing a ten-second clip of
    25 frames per second: the clock was started at instant 0. *)
Definition playing25 (l : list readStep) (held : option VideoFrame) (loop : bool)
  : VideoOnly.controller :=
  {| VideoOnly.media := sourceOf l; VideoOnly.stream := stream25;
     VideoOnly.duration := 10 * Second;
     VideoOnly.frameDuration := 40 * Millisecond;
     VideoOnly.referenceTime := 0; VideoOnly.referencePosition := 0;
     VideoOnly.looping := loop; VideoOnly.videoPendingLoop := false;
     VideoOnly.state := Playing; VideoOnly.lastReadFrame := held;
     VideoOnly.logged := [] |}.

Definition clip25 : list readStep := cadence 250 0 (40 * Millisecond).

(** The sample clip behind a demuxer that seeks to the frame at or before
    the target. *)
Definition seekable25 : Media :=
  {| upcoming := clip25;
     seekTo := fun t =>
       let k := Z.to_nat (t / (40 * Millisecond)) in
       cadence (250 - k) (Z.of_nat k * (40 * Millisecond)) (40 * Millisecond);
     openDecodeErr := None; closeDecodeErr := None;
     videoOpenErr := None; videoRewindErr := None; videoCloseErr := None;
     audioOpenErr := None; audioRewindErr := None; audioCloseErr := None;
     framesDecoded := O |}.

(** A video-only controller right after construction at instant 0, over
    the sample clip. *)
Definition fresh25 : VideoOnly.controller :=
  VideoOnly.setState Stopped (playing25 clip25 None false).

(** A file with a 5.1 audio track next to its video stream, and an audio
    context of the same sample rate. *)
Definition surround : AudioStream :=
  {| asIndex := 1; asSampleRate := 48000; asChannelCount := 6;
     asDuration := 10 * Second; asDurationErr := None |}.

Definition surroundFile : Player.Container :=
  {| Player.containerMedia := sourceOf clip25;
     Player.VideoStreams := [stream25];
     Player.AudioStreams := [surround] |}.

Definition context48k : Context :=
  {| ctxSampleRate := 48000; newPlayerErr := None; newPlayerCloseErr := None |}.

(** Audio packets of stream 1, [size] bytes each, [n] of them, with a
    video packet of stream 0 after each. *)
Definition audioFrameAt (t : Duration) (size : nat) : AudioFrame :=
  {| afData := repeat Byte.x2a size; afOffset := t; afOffsetErr := None |}.

Fixpoint interleaved (n : nat) (t step : Duration) (size : nat) : list readStep :=
  match n with
  | O => []
  | S n =>
      ReadYields (AudioPacket 1 (Frame (audioFrameAt t size)))
      :: ReadYields (VideoPacket 0 (Frame (frameAt t)))
      :: interleaved n (t + step) step size
  end.

(** An audio-driven controller playing, nothing decoded yet. *)
Definition playingWithAudio (l : list readStep) : WithAudio.controller :=
  {| WithAudio.media := sourceOf l; WithAudio.video := stream25;
     WithAudio.audio := surround;
     WithAudio.duration := 10 * Second;
     WithAudio.frameDuration := 40 * Millisecond;
     WithAudio.looping := false; WithAudio.videoPendingLoop := false;
     WithAudio.muted := false; WithAudio.state := Playing;
     WithAudio.volume := 1%float;
     WithAudio.lastReadFrame := None; WithAudio.leftoverVideo := [];
     WithAudio.audioPlayer :=
       Some {| consumed := 0; running := true;
               bufferSize := WithAudio.playerBufferSize;
               playerVolume := 1%float; closeErr := None |};
     WithAudio.leftoverAudio := [];
     WithAudio.firstAudioFrameOffsetOnPlay := 0;
     WithAudio.needsFirstAudioFrameOffset := true;
     WithAudio.staticPosition := 0 |}.



End Samples.

(** ** Notions the properties are stated with *)

Module Notions.

(** The stopped position of a video-only controller is pinned to the
    start or to the end. *)
Definition pinned (c : VideoOnly.controller) : Prop :=
  VideoOnly.state c = Stopped ->
  VideoOnly.referencePosition c = 0 \/
  VideoOnly.referencePosition c = VideoOnly.duration c.

(** What a constructor answers, the controller itself left out: whether
    there is one, and the error. *)
Definition verdict {A : Type} (o : outcome (option A * option error))
  : outcome (bool * option error) :=
  match o with
  | Panicked msg => Panicked msg
  | Returned (Some _, err) => Returned (true, err)
  | Returned (None, err) => Returned (false, err)
  end.

(** The frames that the stream of [index] gets out of the packets, in
    order. *)
Fixpoint framesOf (index : Z) (l : list readStep) : list VideoFrame :=
  match l with
  | [] => []
  | ReadYields (VideoPacket i (Frame f)) :: rest =>
      if i =? index then f :: framesOf index rest else framesOf index rest
  | _ :: rest => framesOf index rest
  end.


(** The offset the catch-up loops start from: that of the frame held, 0
    when none is. *)
Definition heldOffset (held : option VideoFrame) : Duration :=
  match held with
  | Some f => vfOffset f
  | None => 0
  end.

End Notions.

(** ** Further notions and samples *)

Module MoreNotions.

(** The bytes that the audio stream of [index] gets out of the packets,
    in order. *)
Fixpoint audioDataOf (index : Z) (l : list readStep) : list Byte.byte :=
  match l with
  | [] => []
  | ReadYields (AudioPacket i (Frame f)) :: rest =>
      if i =? index then afData f ++ audioDataOf index rest
      else audioDataOf index rest
  | _ :: rest => audioDataOf index rest
  end.


(** The image of a player and its flag agree: the image is the one filled
    with black exactly when the flag says so. *)
Definition imageAgrees (p : Facade.player) : Prop :=
  Facade.onBlackFrame p = true <-> Facade.currentFrame p = Facade.Black.

(** Packets with nothing more to play: no read and no decoding of the
    two streams fails, and no audio frame of the stream is left. *)
Fixpoint noAudioLeft (videoIndex audioIndex : Z) (l : list readStep) : bool :=
  match l with
  | [] => true
  | ReadFails _ :: _ => false
  | ReadYields (VideoPacket i d) :: rest =>
      (negb (i =? videoIndex) || match d with DecodeFails _ => false | _ => true end)
      && noAudioLeft videoIndex audioIndex rest
  | ReadYields (AudioPacket i d) :: rest =>
      (negb (i =? audioIndex) || match d with FrameSkipped => true | _ => false end)
      && noAudioLeft videoIndex audioIndex rest
  | ReadYields (OtherPacket _) :: rest => noAudioLeft videoIndex audioIndex rest
  end.

(** Two states of the audio-driven controller that differ at most in the
    packets to come, the count of frames handed out and the queue of
    video frames decoded ahead. *)
Definition sameButDecoded (c c' : WithAudio.controller) : Prop :=
  WithAudio.video c' = WithAudio.video c /\ WithAudio.audio c' = WithAudio.audio c /\
  WithAudio.duration c' = WithAudio.duration c /\
  WithAudio.frameDuration c' = WithAudio.frameDuration c /\
  WithAudio.looping c' = WithAudio.looping c /\
  WithAudio.videoPendingLoop c' = WithAudio.videoPendingLoop c /\
  WithAudio.muted c' = WithAudio.muted c /\ WithAudio.state c' = WithAudio.state c /\
  WithAudio.volume c' = WithAudio.volume c /\
  WithAudio.lastReadFrame c' = WithAudio.lastReadFrame c /\
  WithAudio.audioPlayer c' = WithAudio.audioPlayer c /\
  WithAudio.leftoverAudio c' = WithAudio.leftoverAudio c /\
  WithAudio.firstAudioFrameOffsetOnPlay c' = WithAudio.firstAudioFrameOffsetOnPlay c /\
  WithAudio.needsFirstAudioFrameOffset c' = WithAudio.needsFirstAudioFrameOffset c /\
  WithAudio.staticPosition c' = WithAudio.staticPosition c /\
  seekTo (WithAudio.media c') = seekTo (WithAudio.media c) /\
  openDecodeErr (WithAudio.media c') = openDecodeErr (WithAudio.media c) /\
  closeDecodeErr (WithAudio.media c') = closeDecodeErr (WithAudio.media c) /\
  videoOpenErr (WithAudio.media c') = videoOpenErr (WithAudio.media c) /\
  videoRewindErr (WithAudio.media c') = videoRewindErr (WithAudio.media c) /\
  videoCloseErr (WithAudio.media c') = videoCloseErr (WithAudio.media c) /\
  audioOpenErr (WithAudio.media c') = audioOpenErr (WithAudio.media c) /\
  audioRewindErr (WithAudio.media c') = audioRewindErr (WithAudio.media c) /\
  audioCloseErr (WithAudio.media c') = audioCloseErr (WithAudio.media c).

End MoreNotions.

Module MoreSamples.
Import Samples.

(** The sample clip with a stereo track of the same length, and the
    audio-driven controller [newPlayer] makes for it. *)
Definition stereo : AudioStream :=
  {| asIndex := 1; asSampleRate := 44100; asChannelCount := 2;
     asDuration := 10 * Second; asDurationErr := None |}.

Definition stereoFile : Player.Container :=
  {| Player.containerMedia := sourceOf (interleaved 250 0 (40 * Millisecond) 400);
     Player.VideoStreams := [stream25];
     Player.AudioStreams := [stereo] |}.

Definition silentFile : Player.Container :=
  {| Player.containerMedia := sourceOf clip25;
     Player.VideoStreams := [stream25];
     Player.AudioStreams := [] |}.

Definition noon : Facade.world :=
  {| Facade.now := 0; Facade.audioContext := Some context48k;
     Facade.networkErr := None |}.

(** A live controller in a session, one frame waiting in the channel. *)
Definition liveWaiting (st : PlaybackState) (f : VideoFrame) : Stream.controller :=
  {| Stream.media := sourceOf []; Stream.stream := stream25;
     Stream.state := st; Stream.referenceTime := 0;
     Stream.referencePosition := 0; Stream.lastReadFrame := None;
     Stream.havePTSBase := true; Stream.ptsBase := 7 * Second;
     Stream.wallBase := 0; Stream.jitter := Stream.defaultJitter;
     Stream.stopCh := Some false; Stream.workers := 2%nat;
     Stream.decodedCh := Some [f]; Stream.errCh := Some [] |}.

(** A player over a video-only controller, showing the frame [f]. *)
Definition showingPlayer (c : VideoOnly.controller) (f : VideoFrame) : Facade.player :=
  {| Facade.controller := Player.withoutAudio c;
     Facade.currentFrame := Facade.Pixels (vfData f);
     Facade.currentPresOffset := vfOffset f; Facade.frameDuration := 40 * Millisecond;
     Facade.onBlackFrame := false; Facade.reachedEnd := false |}.

(** An audio-driven controller in the middle of playing: the sink has
    consumed 100ms from offset 0, four frames are decoded ahead. *)
Definition queued : WithAudio.controller :=
  WithAudio.setLeftoverVideo
    [frameAt 0; frameAt (40 * Millisecond); frameAt (80 * Millisecond);
     frameAt (120 * Millisecond)]
    (WithAudio.setNeedsFirstAudioFrameOffset false
       (WithAudio.setAudioPlayer
          (Some {| consumed := 100 * Millisecond; running := true;
                   bufferSize := WithAudio.playerBufferSize;
                   playerVolume := 1%float; closeErr := None |})
          (playingWithAudio []))).

End MoreSamples.

(** * Properties *)

Lemma PlaybackState_eqb_eq a b : PlaybackState_eqb a b = true <-> a = b.
Proof. destruct a, b; simpl; split; congruence. Qed.

(** ** int64 and clock arithmetic *)

Lemma wrap64_inrange z : inInt64 z -> wrap64 z = z.
Proof.
  unfold inInt64, wrap64, minDuration, maxDuration. intros H.
  rewrite Z.mod_small; lia.
Qed.


Lemma timeSub_exact t u : inInt64 (t - u) -> timeSub t u = t - u.
Proof.
  unfold inInt64, timeSub. intros H.
  destruct (Z.ltb_spec (t - u) minDuration); [lia|].
  destruct (Z.ltb_spec maxDuration (t - u)); [lia|]. reflexivity.
Qed.

(** ** The live-stream controller *)

Module StreamFacts.
Import Stream.








End StreamFacts.

Module LiveClaims.
Import Stream Samples StreamFacts.

(** C8, as stated, fails on [SetLooping]: the call has no result at all,
    so it reports no error. *)
Lemma live_set_looping_reports_no_error :
  ~ (exists e, errorOf (fst (exec (CallSetLooping true) freshLive)) = Some e).
Proof. simpl. intros [e H]. discriminate H. Qed.

(** C8 (amended): on the live controller, for every argument and in every
    state, [Seek] returns no frame and the error "cannot seek in live
    stream" and leaves the controller as it was; [SetLooping] returns
    nothing and changes nothing, so that [GetLooping] stays false;
    [Duration] is 0.  None of them panics. *)
Theorem live_seek_fails_looping_ignored (c : controller) (position : Duration) (loop : bool) :
  exec (CallSeek position) c = (FrameAnd None (Some ErrSeekLiveStream), c) /\
  exec (CallSetLooping loop) c = (NoResult, c) /\
  exec CallGetLooping (snd (exec (CallSetLooping loop) c)) = (BoolOnly false, c) /\
  exec CallDuration c = (DurationOnly 0, c).
Proof. repeat split. Qed.




End LiveClaims.

Module WithAudioClaims.
Import WithAudio.

(** C9: [Seek] on the audio-driven controller panics ("unimplemented")
    whatever the position and whatever the controller's state; it never
    returns. *)
Theorem with_audio_seek_panics (position : Duration) (c : controller) :
  Seek position c = Panicked "unimplemented" /\
  (forall r, Seek position c <> Returned r).
Proof. split; [reflexivity | intros r H; discriminate H]. Qed.

End WithAudioClaims.

Module ClockClaims.
Import Samples.

Lemma projected_exact rp rt now :
  let now' := Z.max now rt in
  inInt64 (now' - rt) -> inInt64 (rp + (now' - rt)) ->
  projected rp rt now = rp + (now' - rt).
Proof.
  intros now' H1 H2. unfold projected, timeAfter. cbv zeta.
  subst now'.
  destruct (Z.ltb_spec now rt);
    [rewrite Z.max_r in * by lia | rewrite Z.max_l in * by lia];
    rewrite timeSub_exact by exact H1;
    unfold durAdd; apply wrap64_inrange; exact H2.
Qed.

(** C5, as stated, fails on the video-only controller once the projected
    position reaches the duration: at 12s of a 10s clip the position is
    10s. *)
Lemma position_past_end_is_not_projected :
  let c := playing25 [] None false in
  VideoOnly.state c = Playing /\
  fst (fst (fst (VideoOnly.noLockPosition (12 * Second) c))) = 10 * Second /\
  fst (fst (fst (VideoOnly.noLockPosition (12 * Second) c))) <>
    VideoOnly.referencePosition c + (12 * Second - VideoOnly.referenceTime c).
Proof. vm_compute. repeat split; discriminate. Qed.

(** C5 (amended): with [now] clamped to [referenceTime] when it lies
    before it (no error results from that), the position computation of
    the live controller returns [referencePosition + (now - referenceTime)]
    while Playing, and the one of the video-only controller does so while
    Playing as long as that sum is below the duration; both return
    [referencePosition] while Paused or Stopped.  The sum is Go's: it is
    the exact one as long as it fits [int64]. *)
Theorem wall_clock_position (now : Time) (v : VideoOnly.controller) (s : Stream.controller) :
  (VideoOnly.state v = Playing ->
   projected (VideoOnly.referencePosition v) (VideoOnly.referenceTime v) now
     < VideoOnly.duration v ->
   fst (VideoOnly.noLockPosition now v) =
   (projected (VideoOnly.referencePosition v) (VideoOnly.referenceTime v) now,
    false, None)) /\
  (VideoOnly.state v <> Playing ->
   fst (VideoOnly.noLockPosition now v) = (VideoOnly.referencePosition v, false, None)) /\
  (Stream.state s = Playing ->
   fst (Stream.noLockPosition now s) =
   (projected (Stream.referencePosition s) (Stream.referenceTime s) now, false, None)) /\
  (Stream.state s <> Playing ->
   fst (Stream.noLockPosition now s) = (Stream.referencePosition s, false, None)) /\
  (forall rp rt,
   inInt64 (Z.max now rt - rt) -> inInt64 (rp + (Z.max now rt - rt)) ->
   projected rp rt now = rp + (Z.max now rt - rt)).
Proof.
  repeat split.
  - intros Hst Hlt. unfold VideoOnly.noLockPosition, projected in *.
    destruct (timeAfter (VideoOnly.referenceTime v) now); simpl; rewrite Hst;
      simpl in *; apply Z.ltb_lt in Hlt; rewrite Hlt; reflexivity.
  - intros Hst. unfold VideoOnly.noLockPosition.
    destruct (timeAfter (VideoOnly.referenceTime v) now); simpl;
      destruct (VideoOnly.state v); try reflexivity; congruence.
  - intros Hst. unfold Stream.noLockPosition, projected. rewrite Hst. reflexivity.
  - intros Hst. unfold Stream.noLockPosition.
    destruct (Stream.state s); try reflexivity; congruence.
  - intros rp rt. apply projected_exact.
Qed.

(** At 2.04s of the sample clip, playing: 2.04s; the same reading with the
    clock paused: the reference position. *)
Lemma wall_clock_position_witness :
  fst (VideoOnly.noLockPosition (2040 * Millisecond) (playing25 [] None false)) =
    (2040 * Millisecond, false, None) /\
  fst (VideoOnly.noLockPosition (2040 * Millisecond)
         (VideoOnly.setState Paused (playing25 [] None false))) = (0, false, None) /\
  fst (Stream.noLockPosition (2040 * Millisecond) freshLive) = (0, false, None) /\
  projected 0 (5 * Second) (2 * Second) = 0.
Proof.
  destruct (wall_clock_position (2040 * Millisecond) (playing25 [] None false) freshLive)
    as (H1 & _ & _ & H4 & _).
  destruct (wall_clock_position (2040 * Millisecond)
              (VideoOnly.setState Paused (playing25 [] None false)) freshLive)
    as (_ & H2 & _ & _ & H5).
  split; [| split; [| split]].
  - rewrite H1; [reflexivity | reflexivity | reflexivity].
  - apply H2. discriminate.
  - apply H4. discriminate.
  - destruct (wall_clock_position (2 * Second) (playing25 [] None false) freshLive)
      as (_ & _ & _ & _ & H6).
    rewrite (H6 0 (5 * Second)); [reflexivity | |]; unfold inInt64; vm_compute;
      split; discriminate.
Defined.

End ClockClaims.

(** ** The video-only controller *)

Module VideoOnlyFacts.
Import VideoOnly Samples.

Lemma readVideoFrameFrom_counts index l : forall n,
  snd (snd (readVideoFrameFrom index l n)) =
  match fst (fst (readVideoFrameFrom index l n)) with
  | Some _ => S n
  | None => n
  end.
Proof.
  induction l as [|[e|[i d|i d|i]] l IH]; intros n; simpl; try reflexivity; try apply IH.
  destruct (i =? index); [|apply IH].
  destruct d; simpl; try reflexivity. apply IH.
Qed.

Lemma readVideoFrameFrom_shrinks index l : forall n,
  (List.length (fst (snd (readVideoFrameFrom index l n))) <= List.length l)%nat /\
  (forall f, fst (fst (readVideoFrameFrom index l n)) = Some f ->
     (List.length (fst (snd (readVideoFrameFrom index l n))) < List.length l)%nat).
Proof.
  induction l as [|[e|[i d|i d|i]] l IH]; intros n; simpl.
  - split; [lia | discriminate].
  - split; [lia | discriminate].
  - destruct (i =? index).
    + destruct d; simpl.
      * split; [lia | discriminate].
      * destruct (IH n) as [H1 H2]. split; [lia|]. intros f Hf.
        specialize (H2 f Hf). lia.
      * split; [lia | intros; lia].
    + destruct (IH n) as [H1 H2]. split; [lia|]. intros f Hf.
      specialize (H2 f Hf). lia.
  - destruct (IH n) as [H1 H2]. split; [lia|]. intros f Hf.
    specialize (H2 f Hf). lia.
  - destruct (IH n) as [H1 H2]. split; [lia|]. intros f Hf.
    specialize (H2 f Hf). lia.
Qed.

(** [internalReadVideoFrame] as the source has it: one [ReadPacket], then
    the same again unless the packet decodes to a frame of the stream. *)
Lemma internalReadVideoFrame_unfold c :
  internalReadVideoFrame c =
  match ReadPacket (media c) with
  | (ReadError e, m) => ((None, Some e), setMedia m c)
  | (NoPacket, m) => ((None, None), setMedia (setFramesDecoded (framesDecoded m) (setUpcoming [] m)) c)
  | (GotPacket (VideoPacket i d), m) =>
      if i =? vsIndex (stream c) then
        match d with
        | DecodeFails e => ((None, Some e), setMedia m c)
        | FrameSkipped => internalReadVideoFrame (setMedia m c)
        | Frame f => ((Some f, None), setMedia (setFramesDecoded (S (framesDecoded m)) m) c)
        end
      else internalReadVideoFrame (setMedia m c)
  | (GotPacket _, m) => internalReadVideoFrame (setMedia m c)
  end.
Proof.
  unfold internalReadVideoFrame, ReadPacket.
  destruct c as [m st du fd rt rp lo pl sa lf lg]; cbn.
  destruct m as [up sk e1 e2 e3 e4 e5 e6 e7 e8 n]; cbn.
  destruct up as [|[e|[i d|i d|i]] up]; cbn; try reflexivity.
  destruct (i =? vsIndex st); [|reflexivity].
  destruct d; reflexivity.
Qed.

(** What [noLockStop] leaves behind, whether or not the decoder complains. *)
Lemma noLockStop_state mode c :
  let c' := fst (noLockStop mode c) in
  state c' = Stopped /\ duration c' = duration c /\ videoPendingLoop c' = false /\
  (mode = stopModeManual -> referencePosition c' = 0 /\ lastReadFrame c' = None) /\
  (mode = stopModeEndOfVideo ->
   lastReadFrame c' = lastReadFrame c /\
   referencePosition c' =
     match state c with Stopped => referencePosition c | _ => duration c end).
Proof.
  unfold noLockStop, VideoRewind, stopModeManual, stopModeEndOfVideo.
  destruct c as [m st du fd rt rp lo pl sa lf lg]; cbn.
  destruct mode; cbn; destruct sa; cbn;
    try (destruct (videoRewindErr m); cbn; [|destruct (videoCloseErr m); cbn]);
    repeat split; try reflexivity; intros; discriminate.
Qed.

End VideoOnlyFacts.

Module SeekClaims.
Import VideoOnly Samples VideoOnlyFacts.

(** C1, as stated, fails past the end: [Seek(12s)] on the ten-second clip,
    playing with a frame held, is a manual stop: afterwards the position
    is 0, not the duration, and [CurrentVideoFrame] has no frame left. *)
Lemma seek_past_end_rewinds_to_start :
  let c := playing25 clip25 (Some (frameAt (2 * Second))) false in
  let c' := snd (Seek (12 * Second) (3 * Second) c) in
  fst (Position (4 * Second) c') = (0, None) /\
  fst (fst (Position (4 * Second) c')) <> GetDuration c' /\
  CurrentVideoFrame (4 * Second) c' = Some ((None, false, None), c') /\
  lastReadFrame c = Some (frameAt (2 * Second)).
Proof. vm_compute. repeat split; discriminate. Qed.

(** C1 (amended): [Seek(pos)] with [pos >= Duration()] is a manual stop,
    not an error of its own: no frame is returned, the controller is
    Stopped, its position is 0 and the frame it held is released, so that
    [Position()] gives 0 and [CurrentVideoFrame()] gives nil.  With
    [pos < Duration()], [pos] is raised to 0 if negative, the stream is
    rewound to it and, when neither the rewind nor the reads fail, frames
    are read until the first one of the stream comes out (exactly one is
    decoded, none when the stream has none left), that frame is held and
    returned, and the clock is rebased to (pos, now); the state is kept. *)
Theorem seek_stops_or_rebases (position : Duration) (now later : Time) (c : controller) :
  let c' := snd (Seek position now c) in
  let frame := fst (fst (Seek position now c)) in
  let err := snd (fst (Seek position now c)) in
  (duration c <= position ->
   frame = None /\ (c', err) = noLockStop stopModeManual c /\
   state c' = Stopped /\
   fst (Position later c') = (0, None) /\
   CurrentVideoFrame later c' = Some ((None, 0 =? duration c, None), c')) /\
  (position < duration c -> err = None ->
   let target := Z.max position 0 in
   0 <= target /\ (0 < duration c -> target < duration c) /\
   fst (readVideoFrameFrom (vsIndex (stream c)) (seekTo (media c) target)
                           (framesDecoded (media c))) = (frame, None) /\
   framesDecoded (media c') =
     match frame with
     | Some _ => S (framesDecoded (media c))
     | None => framesDecoded (media c)
     end /\
   lastReadFrame c' = frame /\
   referencePosition c' = target /\ referenceTime c' = now /\
   state c' = state c).
Proof.
  cbv zeta. unfold Seek. split.
  - intros Hge. apply Z.leb_le in Hge. rewrite Hge.
    destruct (noLockStop_state stopModeManual c) as (Hst & Hdu & _ & Hman & _).
    destruct (Hman eq_refl) as [Hrp Hlf].
    destruct (noLockStop stopModeManual c) as [c' err] eqn:Hstop. simpl in *.
    repeat split; try assumption.
    + unfold Position, noLockPosition.
      destruct (timeAfter (referenceTime c') later); simpl; rewrite Hst, Hrp; reflexivity.
    + unfold CurrentVideoFrame. rewrite Hst, Hrp, Hlf, Hdu. reflexivity.
  - intros Hlt. assert (Hleb : (duration c <=? position) = false) by (apply Z.leb_gt; exact Hlt).
    rewrite Hleb. unfold VideoRewind, internalReadVideoFrame.
    destruct (videoRewindErr (media c)) eqn:Hrw; simpl; [discriminate|].
    pose proof (readVideoFrameFrom_counts (vsIndex (stream c))
                  (seekTo (media c) (Z.max position 0)) (framesDecoded (media c))) as Hcount.
    destruct (readVideoFrameFrom (vsIndex (stream c)) (seekTo (media c) (Z.max position 0))
                (framesDecoded (media c))) as [[fr er] [rest n]] eqn:Hread.
    simpl in *. destruct er; simpl; [discriminate|]. intros _.
    repeat split; try reflexivity; try lia; exact Hcount.
Qed.

(** [Seek(3.01s)] and [Seek(12s)] while the sample clip plays. *)
Lemma seek_stops_or_rebases_witness :
  let c := setMedia seekable25 (playing25 clip25 (Some (frameAt (2 * Second))) false) in
  lastReadFrame (snd (Seek (3010 * Millisecond) (7 * Second) c)) =
    Some (frameAt (3 * Second)) /\
  referencePosition (snd (Seek (3010 * Millisecond) (7 * Second) c)) = 3010 * Millisecond /\
  state (snd (Seek (12 * Second) (7 * Second) c)) = Stopped.
Proof.
  pose (c := setMedia seekable25 (playing25 clip25 (Some (frameAt (2 * Second))) false)).
  destruct (seek_stops_or_rebases (3010 * Millisecond) (7 * Second) (8 * Second) c) as [_ H].
  destruct (seek_stops_or_rebases (12 * Second) (7 * Second) (8 * Second) c) as [H' _].
  assert (Hlt : 3010 * Millisecond < duration c) by reflexivity.
  assert (Hge : duration c <= 12 * Second) by (vm_compute; discriminate).
  destruct (H Hlt eq_refl) as (_ & _ & _ & _ & H4 & H5 & _).
  destruct (H' Hge) as (_ & _ & H3 & _).
  cbv zeta. fold c. rewrite H4, H5, H3.
  repeat split.
Defined.

End SeekClaims.

(** ** Stopped positions of the video-only controller *)

Module StoppedFacts.
Import VideoOnly Samples Notions VideoOnlyFacts.

Lemma noLockStop_pinned mode c : pinned c -> pinned (fst (noLockStop mode c)).
Proof.
  intros Hp _.
  destruct (noLockStop_state mode c) as (_ & Hdu & _ & Hman & Hend).
  destruct mode.
  - left. apply Hman. reflexivity.
  - destruct (Hend eq_refl) as [_ Hrp]. rewrite Hrp, Hdu.
    destruct (state c) eqn:Hst; auto.
Qed.

Lemma noLockPosition_pinned now c : pinned c -> pinned (snd (noLockPosition now c)).
Proof.
  intros Hp. unfold noLockPosition.
  set (c1 := if timeAfter (referenceTime c) now then _ else _).
  assert (H1 : state (snd c1) = state c /\ referencePosition (snd c1) = referencePosition c
               /\ duration (snd c1) = duration c).
  { unfold c1. destruct (timeAfter (referenceTime c) now); repeat split. }
  destruct c1 as [now1 c1']. simpl in H1. destruct H1 as (Hs & Hr & Hd).
  destruct (state c1') eqn:Hst.
  - simpl. unfold pinned. rewrite Hr, Hd. intros _. apply Hp. congruence.
  - destruct (_ <? duration c1'); simpl; [intros H; congruence|].
    destruct (looping c1').
    + unfold VideoRewind. destruct (videoRewindErr (media c1')); simpl;
        intros H; simpl in H; congruence.
    + destruct (noLockStop stopModeEndOfVideo c1') as [c2 err] eqn:Hstop.
      pose proof (noLockStop_state stopModeEndOfVideo c1') as (_ & Hdu & _).
      rewrite Hstop in Hdu. simpl in *. intros _. right. reflexivity.
  - simpl. intros H. congruence.
Qed.

(** A manual stop pins the position to 0, the natural end pins it to the
    duration, whether or not the decoder complains on the way. *)
Lemma manual_stop_pins_start c :
  state (fst (Stop c)) = Stopped /\ referencePosition (fst (Stop c)) = 0.
Proof.
  destruct (noLockStop_state stopModeManual c) as (Hst & _ & _ & Hman & _).
  split; [exact Hst | apply Hman; reflexivity].
Qed.

Lemma natural_end_pins_duration now c :
  snd (fst (fst (noLockPosition now c))) = true ->
  state (snd (noLockPosition now c)) = Stopped /\
  referencePosition (snd (noLockPosition now c)) = duration c /\
  fst (fst (fst (noLockPosition now c))) = duration c.
Proof.
  unfold noLockPosition.
  destruct (timeAfter (referenceTime c) now); simpl;
    (destruct (state c) eqn:Hst; simpl; try discriminate;
     destruct (_ <? duration c); simpl; try discriminate;
     destruct (looping c); simpl;
     [unfold VideoRewind; simpl; destruct (videoRewindErr (media c)); simpl; discriminate|]).
  all: match goal with
       | |- context [noLockStop ?m ?x] =>
           pose proof (noLockStop_state m x) as (Hs & Hd & _);
           destruct (noLockStop m x) as [c2 err]
       end; simpl in *; intros _; rewrite Hd; auto.
Qed.

Lemma catchUp_pinned fuel now position : forall prev pres c r c',
  pinned c ->
  catchUp fuel now position prev pres c = Some (r, c') -> pinned c'.
Proof.
  induction fuel as [|fuel IH]; intros prev pres c r c' Hp; simpl.
  - destruct (_ || _); [discriminate|]. intros H; inversion H; subst. exact Hp.
  - destruct (_ || _); [|intros H; inversion H; subst; exact Hp].
    set (c1 := if videoPendingLoop c && (pres <? prev) then _ else c).
    assert (Hp1 : pinned c1).
    { unfold c1. destruct (_ && _); exact Hp. }
    clearbody c1. unfold internalReadVideoFrame.
    destruct (readVideoFrameFrom _ _ _) as [[fr er] [rest n]].
    set (c2 := setMedia _ c1).
    assert (Hp2 : pinned c2) by exact Hp1. clearbody c2.
    destruct fr as [f|], er as [e|];
      try (intros H; inversion H; subst; exact Hp2).
    + unfold PresentationOffset. destruct (vfOffsetErr f).
      * intros H; inversion H; subst. exact Hp2.
      * apply IH. exact Hp2.
    + destruct (looping c2).
      * unfold VideoRewind. destruct (videoRewindErr (media c2)); simpl;
          intros H; inversion H; subst; [exact Hp2|].
        intros _. left. reflexivity.
      * pose proof (noLockStop_pinned stopModeEndOfVideo c2 Hp2) as Hp3.
        destruct (noLockStop stopModeEndOfVideo c2) as [c3 err].
        intros H; inversion H; subst. exact Hp3.
Qed.

(** Every operation keeps the stopped position pinned, except a [Seek]
    inside the duration on a stopped controller. *)
Lemma operations_keep_pinned now c :
  pinned c ->
  pinned (fst (Play now c)) /\ pinned (fst (Pause now c)) /\
  pinned (fst (Stop c)) /\ pinned (fst (Close c)) /\
  pinned (snd (State now c)) /\ pinned (snd (Position now c)) /\
  (forall loop, pinned (SetLooping loop c)) /\
  (forall r c', CurrentVideoFrame now c = Some (r, c') -> pinned c') /\
  (forall position, state c <> Stopped \/ duration c <= position ->
     pinned (snd (Seek position now c))).
Proof.
  intros Hp. repeat split.
  - unfold Play. destruct (state c) eqn:Hst; simpl.
    + destruct (openDecodeErr (media c)); simpl;
        [|destruct (videoOpenErr (media c)); simpl];
        intros H; simpl in *; auto; discriminate.
    + exact Hp.
    + intros H. discriminate.
  - unfold Pause. destruct (state c) eqn:Hst; try exact Hp.
    pose proof (noLockPosition_pinned now c Hp) as Hq.
    destruct (noLockPosition now c) as [[[pos ended] [e|]] c1]; simpl in *; [exact Hq|].
    destruct ended; [exact Hq|]. intros H; discriminate.
  - apply noLockStop_pinned. exact Hp.
  - apply noLockStop_pinned. exact Hp.
  - unfold State. pose proof (noLockPosition_pinned now c Hp) as Hq.
    destruct (noLockPosition now c) as [[[pos ended] [e|]] c1]; exact Hq.
  - unfold Position. pose proof (noLockPosition_pinned now c Hp) as Hq.
    destruct (noLockPosition now c) as [[[pos ended] e] c1]; exact Hq.
  - intros loop. exact Hp.
  - intros r c'. unfold CurrentVideoFrame.
    pose proof (noLockPosition_pinned now c Hp) as Hq.
    destruct (state c) eqn:Hst.
    + intros H; inversion H; subst. exact Hp.
    + destruct (noLockPosition now c) as [[[pos [|]] [e|]] c1]; cbn [fst snd] in *;
        try (intros H; inversion H; subst; exact Hq).
      destruct (lastReadFrame c1) as [f|].
      * unfold PresentationOffset. destruct (vfOffsetErr f).
        -- intros H; inversion H; subst; exact Hq.
        -- apply catchUp_pinned. exact Hq.
      * apply catchUp_pinned. exact Hq.
    + destruct (noLockPosition now c) as [[[pos [|]] [e|]] c1]; cbn [fst snd] in *;
        try (intros H; inversion H; subst; exact Hq).
      destruct (lastReadFrame c1) as [f|].
      * unfold PresentationOffset. destruct (vfOffsetErr f).
        -- intros H; inversion H; subst; exact Hq.
        -- apply catchUp_pinned. exact Hq.
      * apply catchUp_pinned. exact Hq.
  - intros position Hor. unfold Seek.
    destruct (duration c <=? position) eqn:Hle.
    + pose proof (noLockStop_pinned stopModeManual c Hp) as Hq.
      destruct (noLockStop stopModeManual c); exact Hq.
    + destruct Hor as [Hns | Hge]; [|apply Z.leb_le in Hge; congruence].
      unfold VideoRewind, internalReadVideoFrame.
      destruct (videoRewindErr (media c)); simpl; [intros H; contradiction|].
      destruct (readVideoFrameFrom _ _ _) as [[fr [e|]] [rest n]]; simpl;
        intros H; contradiction.
Qed.

(** The two stops of the audio-driven controller: when the sink lets go
    of its player, a manual stop leaves position 0 and the stop at the end
    of the video leaves the duration. *)
Lemma noLockEnsureAudioHalt_done c c' :
  WithAudio.noLockEnsureAudioHalt c = (c', None) ->
  WithAudio.audioPlayer c' = None /\
  WithAudio.state c' = WithAudio.state c /\
  WithAudio.duration c' = WithAudio.duration c /\
  WithAudio.media c' = WithAudio.media c.
Proof.
  unfold WithAudio.noLockEnsureAudioHalt.
  destruct (WithAudio.audioPlayer c) as [p|] eqn:Hp.
  - destruct (closeErr (PlayerPause p)); [discriminate|].
    intros H. injection H as <-. repeat split.
  - intros H. injection H as <-. repeat split. exact Hp.
Qed.

Lemma rewindAndClose_keeps c :
  WithAudio.audioPlayer (fst (WithAudio.rewindAndClose c)) = WithAudio.audioPlayer c /\
  WithAudio.state (fst (WithAudio.rewindAndClose c)) = WithAudio.state c /\
  WithAudio.staticPosition (fst (WithAudio.rewindAndClose c)) = WithAudio.staticPosition c.
Proof.
  unfold WithAudio.rewindAndClose, VideoRewind, AudioRewind.
  destruct (videoRewindErr (WithAudio.media c)); [repeat split|]. cbn.
  destruct (audioRewindErr (WithAudio.media c)); [repeat split|]. cbn.
  destruct (videoCloseErr (WithAudio.media c)); [repeat split|].
  destruct (audioCloseErr (WithAudio.media c)); repeat split.
Qed.

(** A [Stop()] of the audio-driven controller that reports no error
    leaves it Stopped with [Position()] at 0, from any state. *)
Lemma with_audio_manual_stop_pins_start c c' :
  WithAudio.Stop c = (c', None) ->
  WithAudio.state c' = Stopped /\ fst (WithAudio.Position c') = (0, None).
Proof.
  unfold WithAudio.Stop, WithAudio.noLockStop. cbn [Bool.eqb stopModeManual].
  destruct (WithAudio.noLockEnsureAudioHalt c) as [c1 [e|]] eqn:Hhalt; [discriminate|].
  apply noLockEnsureAudioHalt_done in Hhalt. destruct Hhalt as (Hp & Hs & _).
  cbn [stopModeEndOfVideo Bool.eqb].
  set (c2 := WithAudio.setVideoPendingLoop false _).
  assert (H2 : WithAudio.audioPlayer c2 = None /\ WithAudio.staticPosition c2 = 0
               /\ WithAudio.state c2 = WithAudio.state c1) by (repeat split; exact Hp).
  clearbody c2. destruct H2 as (Hp2 & Hsp2 & Hs2).
  destruct (WithAudio.state c2) eqn:Hst.
  - intros H. injection H as <-. split; [exact Hst|].
    unfold WithAudio.Position, WithAudio.noLockPosition. rewrite Hp2, Hsp2. reflexivity.
  - pose proof (rewindAndClose_keeps (WithAudio.setState Stopped c2)) as (Ha & Hb & Hc).
    destruct (WithAudio.rewindAndClose _) as [c3 err]. cbn in *.
    intros H. injection H as <- _. split; [exact Hb|].
    unfold WithAudio.Position, WithAudio.noLockPosition. rewrite Ha, Hp2, Hc, Hsp2. reflexivity.
  - pose proof (rewindAndClose_keeps (WithAudio.setState Stopped c2)) as (Ha & Hb & Hc).
    destruct (WithAudio.rewindAndClose _) as [c3 err]. cbn in *.
    intros H. injection H as <- _. split; [exact Hb|].
    unfold WithAudio.Position, WithAudio.noLockPosition. rewrite Ha, Hp2, Hc, Hsp2. reflexivity.
Qed.

Lemma with_audio_natural_end_pins_duration c c' :
  WithAudio.state c <> Stopped ->
  WithAudio.noLockStop stopModeEndOfVideo c = (c', None) ->
  WithAudio.state c' = Stopped /\
  fst (WithAudio.Position c') = (WithAudio.duration c, None).
Proof.
  intros Hns. unfold WithAudio.noLockStop.
  cbn [Bool.eqb stopModeManual stopModeEndOfVideo].
  assert (Hgo : forall A (x y : A),
            match WithAudio.state c with Stopped => x | _ => y end = y).
  { intros A x y. destruct (WithAudio.state c); [contradiction | reflexivity | reflexivity]. }
  rewrite Hgo.
  destruct (WithAudio.noLockEnsureAudioHalt (WithAudio.setState Stopped c))
    as [c1 [e|]] eqn:Hhalt; [discriminate|].
  apply noLockEnsureAudioHalt_done in Hhalt. destruct Hhalt as (Hp & Hs & Hd & _).
  set (c2 := WithAudio.setVideoPendingLoop false _).
  pose proof (rewindAndClose_keeps c2) as (Ha & Hb & Hc).
  destruct (WithAudio.rewindAndClose c2) as [c3 err]. cbn in *.
  intros H. injection H as <- _. split; [rewrite Hb; exact Hs|].
  unfold WithAudio.Position, WithAudio.noLockPosition. rewrite Ha, Hp, Hc, Hd. reflexivity.
Qed.

End StoppedFacts.

Module StoppedClaims.
Import VideoOnly Samples Notions StoppedFacts.

(** C4 on the code: a video-only controller that was just constructed is
    Stopped; [Seek(3s)] on it finds the position inside the duration,
    rewinds, holds the frame it decodes and moves the reference position
    to 3s without looking at the state.  The controller is still Stopped
    and [Position()] is 3s, neither 0 nor the duration of 10s. *)
Theorem seek_while_stopped_moves_position :
  newVideoOnlyController seekable25 stream25 0 =
    Returned (Some (setMedia seekable25 fresh25), None) /\
  let c := snd (Seek (3 * Second) (1 * Second) (setMedia seekable25 fresh25)) in
  state c = Stopped /\
  fst (Position (2 * Second) c) = (3 * Second, None) /\
  GetDuration c = 10 * Second /\
  ~ pinned c.
Proof.
  split; [reflexivity|]. cbv zeta. repeat split.
  intros H. destruct (H eq_refl) as [H0 | H0]; vm_compute in H0; discriminate H0.
Qed.

End StoppedClaims.

(** ** Construction *)

Module ConstructionClaims.
Import Player Samples Notions.

(** The three checks that construction makes. *)
Lemma no_video_stream_is_rejected m audios ignoreAudio ctx now :
  newPlayer (inl {| containerMedia := m; VideoStreams := []; AudioStreams := audios |})
            ignoreAudio ctx now = Returned (None, Some ErrNoVideo).
Proof. reflexivity. Qed.

Lemma nil_audio_context_is_rejected m v vs a audios now :
  vsFrameRateNum v <> 0 ->
  newPlayer (inl {| containerMedia := m; VideoStreams := v :: vs; AudioStreams := a :: audios |})
            false None now = Returned (None, Some ErrNilAudioContext).
Proof.
  intros H. unfold newPlayer. simpl. apply Z.eqb_neq in H. rewrite H. reflexivity.
Qed.

Lemma sample_rate_mismatch_is_rejected m v vs a audios ctx now :
  vsFrameRateNum v <> 0 -> ctxSampleRate ctx <> asSampleRate a ->
  newPlayer (inl {| containerMedia := m; VideoStreams := v :: vs; AudioStreams := a :: audios |})
            false (Some ctx) now = Returned (None, Some ErrBadSampleRate).
Proof.
  intros H H'. unfold newPlayer. simpl. apply Z.eqb_neq in H. rewrite H.
  apply Z.eqb_neq in H'. rewrite H'. reflexivity.
Qed.

(** The number of channels of the audio stream is never looked at: the
    constructor answers alike for any number of them. *)
Lemma channels_are_never_counted ctx m v a n :
  verdict (WithAudio.newVideoWithAudioController ctx m v a) =
  verdict (WithAudio.newVideoWithAudioController ctx m v
             {| asIndex := asIndex a; asSampleRate := asSampleRate a;
                asChannelCount := n; asDuration := asDuration a;
                asDurationErr := asDurationErr a |}).
Proof.
  unfold WithAudio.newVideoWithAudioController. simpl.
  destruct ctx as [ctx|]; [|reflexivity].
  destruct (negb _); [reflexivity|].
  destruct (vsFrameRateNum v =? 0); [reflexivity|].
  destruct (vsDurationErr v); [reflexivity|].
  destruct (asDurationErr a); reflexivity.
Qed.

(** C3 on the code: a file whose audio stream has six channels, opened
    with an audio context of its sample rate, gets an audio-driven
    controller and no error; [ErrTooManyChannels] is not returned. *)
Theorem surround_audio_is_accepted :
  2 < asChannelCount surround /\
  exists c,
    newPlayer (inl surroundFile) false (Some context48k) 0 =
      Returned (Some {| controller := withAudio c; currentPresOffset := 0;
                        frameDuration := 40 * Millisecond;
                        onBlackFrame := true; reachedEnd := false |}, None) /\
    WithAudio.audio c = surround /\ WithAudio.state c = Stopped.
Proof.
  split; [reflexivity|]. eexists. split; [reflexivity|]. split; reflexivity.
Qed.

End ConstructionClaims.

(** ** The pull callback of the audio-driven controller *)

Module ReadFacts.
Import WithAudio.

(** Clearing the two low bits is rounding down to a multiple of 4. *)
Lemma low_bits_are_remainder len : Z.land len 3 = len mod 4.
Proof. change 3 with (Z.ones 2). rewrite Z.land_ones by lia. reflexivity. Qed.

Lemma clamp_is_round_down len :
  0 <= len <= MaxInt -> Z.land len (MaxInt - 3) = len - len mod 4.
Proof.
  intros [H0 H1]. unfold MaxInt in *.
  assert (E : len - len mod 4 = Z.shiftl (Z.shiftr len 2) 2).
  { rewrite Z.shiftl_mul_pow2, Z.shiftr_div_pow2 by lia.
    change (2 ^ 2) with 4. pose proof (Z.div_mod len 4 ltac:(lia)). lia. }
  rewrite E. change (2 ^ 63 - 1 - 3) with (Z.shiftl (Z.ones 61) 2).
  apply Z.bits_inj'. intros i Hi.
  rewrite Z.land_spec.
  destruct (Z.lt_ge_cases i 2) as [Hlt | Hge].
  - rewrite !Z.shiftl_spec_low by lia. apply andb_false_r.
  - rewrite !Z.shiftl_spec by lia. rewrite Z.shiftr_spec by lia.
    replace (i - 2 + 2) with i by lia.
    destruct (Z.testbit len i) eqn:Hb; [|reflexivity].
    simpl. apply Z.ones_spec_low. split; [lia|].
    destruct (Z.lt_ge_cases i 63) as [Hi63 | Hi63]; [lia|].
    exfalso. rewrite Z.bits_above_log2 in Hb; [discriminate | lia |].
    destruct (Z.eq_dec len 0) as [->|Hne]; [simpl; lia|].
    apply Z.lt_le_trans with 63; [|lia].
    apply Z.log2_lt_pow2; lia.
Qed.

(** The packets still to come are kept by the demuxer: what the reading
    does never depends on the demuxer's own record of them. *)
Lemma readAudioFrameFrom_demuxer l : forall c x,
  readAudioFrameFrom l (setMedia (setUpcoming x (media c)) c) =
  (fst (readAudioFrameFrom l c),
   (fst (snd (readAudioFrameFrom l c)),
    setMedia (setUpcoming x (media (snd (snd (readAudioFrameFrom l c)))))
             (snd (snd (readAudioFrameFrom l c))))).
Proof.
  induction l as [|[e|[i d|i d|i]] l IH]; intros c x; cbn; try reflexivity.
  - destruct (negb (i =? vsIndex (video c))); [apply IH|].
    destruct d; cbn; try reflexivity; [apply IH|].
    apply (IH (setLeftoverVideo (leftoverVideo c ++ [f])
                 (setMedia (setFramesDecoded (S (framesDecoded (media c))) (media c)) c)) x).
  - destruct (negb (i =? asIndex (audio c))); [apply IH|].
    destruct d; cbn; try reflexivity; [apply IH|].
    destruct (needsFirstAudioFrameOffset c); cbn; [|reflexivity].
    destruct (afOffsetErr f); reflexivity.
  - apply IH.
Qed.

Lemma internalReadAudioFrame_advance l c :
  internalReadAudioFrame (setMedia (setUpcoming l (media c)) c) =
  (let '(err, (rest, c')) := readAudioFrameFrom l c in
   (setMedia (setUpcoming rest (media c')) c', err)).
Proof.
  unfold internalReadAudioFrame. cbn [upcoming media setMedia setUpcoming].
  rewrite readAudioFrameFrom_demuxer.
  destruct (readAudioFrameFrom l c) as [err [rest c1]]. reflexivity.
Qed.

(** [internalReadAudioFrame] as the source has it: one [ReadPacket], then
    the same again unless an audio frame of the stream came out. *)
Lemma internalReadAudioFrame_unfold c :
  internalReadAudioFrame c =
  match ReadPacket (media c) with
  | (ReadError e, m) => (setMedia m c, Some e)
  | (NoPacket, m) => (setMedia (setUpcoming [] m) c, None)
  | (GotPacket (VideoPacket i d), m) =>
      let c := setMedia m c in
      if negb (i =? vsIndex (video c)) then internalReadAudioFrame c
      else
        match d with
        | DecodeFails e => (c, Some e)
        | FrameSkipped => internalReadAudioFrame c
        | Frame f =>
            internalReadAudioFrame
              (setLeftoverVideo (leftoverVideo c ++ [f])
                 (setMedia (setFramesDecoded (S (framesDecoded m)) m) c))
        end
  | (GotPacket (AudioPacket i d), m) =>
      let c := setMedia m c in
      if negb (i =? asIndex (audio c)) then internalReadAudioFrame c
      else
        match d with
        | DecodeFails e => (c, Some e)
        | FrameSkipped => internalReadAudioFrame c
        | Frame f =>
            let c := setLeftoverAudio (leftoverAudio c ++ afData f) c in
            if needsFirstAudioFrameOffset c then
              let c := setFirstAudioFrameOffsetOnPlay (afOffset f) c in
              match afOffsetErr f with
              | Some e => (c, Some e)
              | None => (setNeedsFirstAudioFrameOffset false c, None)
              end
            else (c, None)
        end
  | (GotPacket (OtherPacket _), m) => internalReadAudioFrame (setMedia m c)
  end.
Proof.
  unfold internalReadAudioFrame at 1. unfold ReadPacket.
  destruct (upcoming (media c)) as [|[e|[i d|i d|i]] l] eqn:Hup; cbn; try reflexivity.
  - destruct (negb (i =? vsIndex (video c)));
      [rewrite <- (internalReadAudioFrame_advance l c); reflexivity|].
    destruct d; cbn; try reflexivity.
    + rewrite <- (internalReadAudioFrame_advance l c); reflexivity.
    + rewrite <- (internalReadAudioFrame_advance l
                    (setLeftoverVideo (leftoverVideo c ++ [f])
                       (setMedia (setFramesDecoded (S (framesDecoded (media c))) (media c)) c))).
      reflexivity.
  - destruct (negb (i =? asIndex (audio c)));
      [rewrite <- (internalReadAudioFrame_advance l c); reflexivity|].
    destruct d; cbn; try reflexivity.
    + rewrite <- (internalReadAudioFrame_advance l c); reflexivity.
    + destruct (needsFirstAudioFrameOffset c); cbn; [|reflexivity].
      destruct (afOffsetErr f); reflexivity.
  - rewrite <- (internalReadAudioFrame_advance l c); reflexivity.
Qed.

Lemma readAudioFrameFrom_shrinks l : forall c,
  let r := readAudioFrameFrom l c in
  (List.length (fst (snd r)) <= List.length l)%nat /\
  (fst r = None -> leftoverAudio c = [] -> leftoverAudio (snd (snd r)) <> [] ->
   (List.length (fst (snd r)) < List.length l)%nat).
Proof.
  induction l as [|[e|[i d|i d|i]] l IH]; intros c; cbv zeta; simpl.
  - split; [lia | intros _ H H'; contradiction].
  - split; [lia | discriminate].
  - destruct (negb (i =? vsIndex (video c))).
    + destruct (IH c) as [H1 H2]. split; [lia | intros A B C; specialize (H2 A B C); lia].
    + destruct d; simpl.
      * split; [lia | discriminate].
      * destruct (IH c) as [H1 H2].
        split; [lia | intros A B C; specialize (H2 A B C); lia].
      * match goal with
        | |- context [readAudioFrameFrom l ?x] => destruct (IH x) as [H1 H2]
        end.
        split; [lia | intros A B C; specialize (H2 A B C); lia].
  - destruct (negb (i =? asIndex (audio c))).
    + destruct (IH c) as [H1 H2]. split; [lia | intros A B C; specialize (H2 A B C); lia].
    + destruct d; simpl.
      * split; [lia | discriminate].
      * destruct (IH c) as [H1 H2].
        split; [lia | intros A B C; specialize (H2 A B C); lia].
      * destruct (needsFirstAudioFrameOffset c); simpl;
          [destruct (afOffsetErr f); simpl|]; split; intros; lia.
  - destruct (IH c) as [H1 H2]. split; [lia | intros A B C; specialize (H2 A B C); lia].
Qed.

Lemma internalReadAudioFrame_shrinks c :
  snd (internalReadAudioFrame c) = None -> leftoverAudio c = [] ->
  leftoverAudio (fst (internalReadAudioFrame c)) <> [] ->
  (List.length (upcoming (media (fst (internalReadAudioFrame c))))
   < List.length (upcoming (media c)))%nat.
Proof.
  unfold internalReadAudioFrame.
  pose proof (readAudioFrameFrom_shrinks (upcoming (media c)) c) as [_ H].
  destruct (readAudioFrameFrom (upcoming (media c)) c) as [err [rest c1]].
  simpl in *. exact H.
Qed.

Lemma noLockCopyLeftoverAudio_spec room c :
  let copied := fst (noLockCopyLeftoverAudio room c) in
  let c' := snd (noLockCopyLeftoverAudio room c) in
  copied = firstn room (leftoverAudio c) /\
  leftoverAudio c' = skipn room (leftoverAudio c) /\
  media c' = media c /\
  (List.length copied <= room)%nat /\
  ((room - List.length copied)%nat <> O -> leftoverAudio c' = []).
Proof.
  cbv zeta. unfold noLockCopyLeftoverAudio.
  pose proof (firstn_le_length room (leftoverAudio c)) as Hle.
  pose proof (length_firstn room (leftoverAudio c)) as Hlen.
  destruct (Nat.leb_spec (List.length (leftoverAudio c))
              (List.length (firstn room (leftoverAudio c)))) as [H | H]; simpl.
  - repeat split; try lia.
    symmetry. apply skipn_all2. lia.
  - repeat split; try lia.
    f_equal. lia.
Qed.

(** The decoding loop never runs out of its bound, and when it reports no
    error the buffer was filled to the last byte. *)
Lemma decodeInto_fills fuel ctx : forall room served c,
  (List.length (upcoming (media c)) < fuel)%nat ->
  (room <> O -> leftoverAudio c = []) ->
  exists o, decodeInto fuel ctx room served c = Some o /\
    forall sv n c', o = Returned ((sv, n, None), c') ->
      List.length sv = (List.length served + room)%nat /\ n = Z.of_nat (List.length sv).
Proof.
  induction fuel as [|fuel IH]; intros room served c Hfuel Hinv; [lia|].
  destruct room as [|room]; simpl.
  - eexists. split; [reflexivity|]. intros sv n c' H. inversion H; subst.
    split; [lia | reflexivity].
  - pose proof (internalReadAudioFrame_shrinks c) as Hshr.
    destruct (internalReadAudioFrame c) as [c1 [e|]] eqn:Hread; simpl in Hshr.
    + eexists. split; [reflexivity|]. intros sv n c' H. inversion H.
    + destruct (leftoverAudio c1) as [|b bs] eqn:Hleft.
      * destruct (looping c1).
        -- destruct (noLockRewindForLooping (setAudioPlayer None c1)) as [c2 [e|]].
           ++ eexists. split; [reflexivity|]. intros sv n c' H. inversion H.
           ++ destruct (noLockHackyAudioReset ctx c2) as [[c3 [e|]]|msg];
                eexists; (split; [reflexivity|]); intros sv n c' H; inversion H.
        -- destruct (noLockStop stopModeEndOfVideo (setAudioPlayer None c1)) as [c2 [e|]];
             eexists; (split; [reflexivity|]); intros sv n c' H; inversion H.
      * pose proof (noLockCopyLeftoverAudio_spec (S room) c1) as (Hc & Hl & Hm & Hle & Hz).
        destruct (noLockCopyLeftoverAudio (S room) c1) as [copied c2]. simpl in *.
        destruct (IH (S room - List.length copied)%nat (served ++ copied) c2) as (o & Ho & Hfill).
        -- rewrite Hm. specialize (Hshr eq_refl (Hinv ltac:(discriminate))).
           specialize (Hshr ltac:(discriminate)). lia.
        -- exact Hz.
        -- exists o. split; [exact Ho|]. intros sv n c' H.
           destruct (Hfill sv n c' H) as [H1 H2]. split; [|exact H2].
           rewrite H1, length_app. lia.
Qed.

(** [Read] always comes back: the bound of its loop is never reached. *)
Lemma Read_total strict ctx len c : exists o, Read strict ctx len c = Some o.
Proof.
  unfold Read.
  destruct (if negb (Z.land len 3 =? 0)
            then if strict then None else Some (Z.land len (MaxInt - 3))
            else Some len) as [n|]; [|eexists; reflexivity].
  destruct (leftoverAudio c) as [|b bs] eqn:Hleft.
  - destruct (Z.to_nat n) as [|r]; [eexists; reflexivity|].
    destruct (decodeInto_fills (S (List.length (upcoming (media c)))) ctx (S r) [] c)
      as (o & Ho & _); [lia | intros _; exact Hleft |].
    exists o. exact Ho.
  - pose proof (noLockCopyLeftoverAudio_spec (Z.to_nat n) c) as (_ & _ & Hm & _ & Hz).
    destruct (noLockCopyLeftoverAudio (Z.to_nat n) c) as [copied c1]. simpl in *.
    destruct (Z.to_nat n - List.length copied)%nat as [|r] eqn:Hr;
      [eexists; reflexivity|].
    destruct (decodeInto_fills (S (List.length (upcoming (media c1)))) ctx (S r) copied c1)
      as (o & Ho & _); [lia | intros _; apply Hz; discriminate |].
    exists o. exact Ho.
Qed.

End ReadFacts.

Module ReadClaims.
Import WithAudio Samples ReadFacts.

(** C7: a buffer whose length is not a multiple of 4 is, under the
    truncation policy, served exactly as the buffer cut to the largest
    multiple of 4 below it would be; the call always comes back, and when
    it reports no error (enough data was at hand) exactly that many bytes
    were delivered: 776 for a buffer of 777.  Under the strict policy the
    call panics. *)
Theorem partial_sample_reads (ctx : option Context) (len : Z) (c : controller) :
  0 <= len <= MaxInt -> len mod 4 <> 0 ->
  Read false ctx len c = Read false ctx (len - len mod 4) c /\
  (exists o, Read false ctx len c = Some o /\
     forall served n c', o = Returned ((served, n, None), c') ->
       n = len - len mod 4 /\ Z.of_nat (List.length served) = n) /\
  (exists msg, Read true ctx len c = Some (Panicked msg)) /\
  (len = 777 -> len - len mod 4 = 776).
Proof.
  intros Hlen Hmod.
  assert (Hlow : (Z.land len 3 =? 0) = false).
  { apply Z.eqb_neq. rewrite low_bits_are_remainder. exact Hmod. }
  assert (Hlow' : (Z.land (len - len mod 4) 3 =? 0) = true).
  { apply Z.eqb_eq. rewrite low_bits_are_remainder.
    pose proof (Z.div_mod len 4 ltac:(lia)) as Hd.
    replace (len - len mod 4) with (len / 4 * 4) by lia.
    apply Z.mod_mul. lia. }
  assert (Hpos : 0 <= len - len mod 4).
  { pose proof (Z.mod_pos_bound len 4 ltac:(lia)).
    pose proof (Z.mod_le len 4 ltac:(lia) ltac:(lia)). lia. }
  assert (Heq : Read false ctx len c = Read false ctx (len - len mod 4) c).
  { unfold Read. rewrite Hlow, Hlow'. simpl.
    rewrite clamp_is_round_down by exact Hlen. reflexivity. }
  split; [exact Heq|]. split; [|split].
  - rewrite Heq. unfold Read. rewrite Hlow'. simpl.
    set (total := Z.to_nat (len - len mod 4)).
    assert (Htot : Z.of_nat total = len - len mod 4) by (apply Z2Nat.id; exact Hpos).
    destruct (leftoverAudio c) as [|b bs] eqn:Hleft.
    + destruct total as [|t] eqn:Ht.
      * eexists. split; [reflexivity|]. intros sv n c' H. inversion H; subst.
        simpl. split; lia.
      * destruct (decodeInto_fills (S (List.length (upcoming (media c)))) ctx (S t) [] c)
          as (o & Ho & Hfill); [lia | intros _; exact Hleft |].
        exists o. split; [exact Ho|]. intros sv n c' H.
        destruct (Hfill sv n c' H) as [H1 H2]. simpl in H1. rewrite H2, H1. split; lia.
    + pose proof (noLockCopyLeftoverAudio_spec total c) as (Hc & Hl & Hm & Hle & Hz).
      destruct (noLockCopyLeftoverAudio total c) as [copied c1]. simpl in *.
      destruct (total - List.length copied)%nat as [|r] eqn:Hr.
      * eexists. split; [reflexivity|]. intros sv n c' H. inversion H; subst.
        split; lia.
      * destruct (decodeInto_fills (S (List.length (upcoming (media c1)))) ctx (S r) copied c1)
          as (o & Ho & Hfill); [lia | intros _; apply Hz; discriminate |].
        exists o. split; [exact Ho|]. intros sv n c' H.
        destruct (Hfill sv n c' H) as [H1 H2]. rewrite H2, H1. split; lia.
  - unfold Read. rewrite Hlow. simpl. eexists. reflexivity.
  - intros ->. reflexivity.
Qed.

(** A pull of 777 bytes while the sample file plays: two audio frames of
    400 bytes are decoded, 776 bytes are served without error and 24 stay
    behind; the video frame met on the way is queued. *)
Lemma partial_sample_reads_witness :
  let c := playingWithAudio (interleaved 3 0 (40 * Millisecond) 400) in
  exists served c',
    Read false (Some context48k) 777 c = Some (Returned ((served, 776, None), c')) /\
    List.length served = 776%nat /\
    List.length (leftoverAudio c') = 24%nat /\
    List.length (leftoverVideo c') = 1%nat.
Proof.
  cbv zeta.
  pose (c := playingWithAudio (interleaved 3 0 (40 * Millisecond) 400)).
  assert (H1 : 0 <= 777 <= MaxInt) by (vm_compute; split; discriminate).
  assert (H2 : 777 mod 4 <> 0) by (vm_compute; discriminate).
  destruct (partial_sample_reads (Some context48k) 777 c H1 H2) as (Heq & _ & _ & _).
  fold c. rewrite Heq.
  eexists. eexists. split; [vm_compute; reflexivity|].
  split; [|split]; vm_compute; reflexivity.
Defined.

End ReadClaims.

(** ** The frame cursor of the video-only controller *)

Module CursorFacts.
Import VideoOnly Samples Notions VideoOnlyFacts.

(** Short of the duration, the position computation changes nothing but
    the log. *)
Lemma noLockPosition_inside now c :
  state c = Playing ->
  projected (referencePosition c) (referenceTime c) now < duration c ->
  exists c1,
    noLockPosition now c =
      ((projected (referencePosition c) (referenceTime c) now, false, None), c1) /\
    videoPendingLoop c1 = videoPendingLoop c /\
    lastReadFrame c1 = lastReadFrame c /\
    frameDuration c1 = frameDuration c /\
    stream c1 = stream c /\
    media c1 = media c.
Proof.
  intros Hst Hlt. unfold noLockPosition, projected in *.
  destruct (timeAfter (referenceTime c) now); simpl in *; rewrite Hst;
    apply Z.ltb_lt in Hlt; simpl; rewrite Hlt; eexists; repeat split.
Qed.



(** The bound handed to the loop by [CurrentVideoFrame] is enough. *)
Lemma catchUp_total fuel now position : forall prev pres c,
  (List.length (upcoming (media c)) < fuel)%nat ->
  exists r, catchUp fuel now position prev pres c = Some r.
Proof.
  induction fuel as [|fuel IH]; intros prev pres c Hfuel; [lia|]. simpl.
  destruct (_ || _); [|eexists; reflexivity].
  set (c1 := if videoPendingLoop c && (pres <? prev) then _ else c).
  assert (Hm : media c1 = media c) by (unfold c1; destruct (_ && _); reflexivity).
  clearbody c1. unfold internalReadVideoFrame. rewrite Hm.
  pose proof (readVideoFrameFrom_shrinks (vsIndex (stream c1)) (upcoming (media c))
                (framesDecoded (media c))) as [_ Hshr].
  destruct (readVideoFrameFrom _ _ _) as [[[g|] [e|]] [rest n]]; simpl in *;
    try (eexists; reflexivity).
  - unfold PresentationOffset. destruct (vfOffsetErr g); [eexists; reflexivity|].
    apply IH. simpl. specialize (Hshr g eq_refl). lia.
  - destruct (looping c1).
    + unfold VideoRewind; simpl.
      destruct (videoRewindErr (media c)); eexists; reflexivity.
    + destruct (noLockStop _ _). eexists; reflexivity.
Qed.

Lemma CurrentVideoFrame_total now c : exists r, CurrentVideoFrame now c = Some r.
Proof.
  unfold CurrentVideoFrame.
  destruct (state c); [eexists; reflexivity| |];
    (destruct (noLockPosition now c) as [[[p [|]] [e|]] c1];
     try (eexists; reflexivity);
     destruct (lastReadFrame c1) as [f|];
     [unfold PresentationOffset; destruct (vfOffsetErr f); [eexists; reflexivity|]|];
     apply catchUp_total; lia).
Qed.


End CursorFacts.

Module QueueFacts.
Import WithAudio Notions.


End QueueFacts.

Module CursorClaims.
Import Samples Notions CursorFacts QueueFacts.




End CursorClaims.

Module LoopFacts.
Import VideoOnly Samples Notions VideoOnlyFacts CursorFacts.


End LoopFacts.

Module LoopClaims.
Import VideoOnly Samples Notions VideoOnlyFacts CursorFacts LoopFacts.




End LoopClaims.

(** * Further properties *)

(** ** The clock of the video-only controller *)

Module ClockExtras.
Import VideoOnly Samples.

Lemma noLockPosition_at_rest now c :
  state c <> Playing ->
  fst (noLockPosition now c) = (referencePosition c, false, None) /\
  state (snd (noLockPosition now c)) = state c /\
  referencePosition (snd (noLockPosition now c)) = referencePosition c /\
  referenceTime (snd (noLockPosition now c)) = referenceTime c /\
  duration (snd (noLockPosition now c)) = duration c /\
  lastReadFrame (snd (noLockPosition now c)) = lastReadFrame c /\
  media (snd (noLockPosition now c)) = media c.
Proof.
  intros Hst. unfold noLockPosition.
  destruct (timeAfter (referenceTime c) now); simpl;
    destruct (state c) eqn:E; try (exfalso; apply Hst; reflexivity);
    simpl; rewrite ?E; repeat split.
Qed.

Lemma noLockPosition_running now c :
  state c = Playing ->
  projected (referencePosition c) (referenceTime c) now < duration c ->
  fst (noLockPosition now c) =
    (projected (referencePosition c) (referenceTime c) now, false, None) /\
  state (snd (noLockPosition now c)) = Playing /\
  referencePosition (snd (noLockPosition now c)) = referencePosition c /\
  referenceTime (snd (noLockPosition now c)) = referenceTime c /\
  duration (snd (noLockPosition now c)) = duration c.
Proof.
  intros Hst Hlt. unfold noLockPosition, projected in *.
  destruct (timeAfter (referenceTime c) now); simpl in *; rewrite Hst;
    apply Z.ltb_lt in Hlt; simpl; rewrite Hlt; repeat split; assumption.
Qed.

(** [Pause] short of the end freezes the position at the instant of the
    call: [Position()] keeps returning it whenever it is asked.  A
    [Play] after that restarts the clock from the frozen position: the
    time spent paused is not counted. *)
Theorem pause_freezes_play_resumes (t1 t2 t3 : Time) (c : controller) :
  state c = Playing ->
  projected (referencePosition c) (referenceTime c) t1 < duration c ->
  let p := projected (referencePosition c) (referenceTime c) t1 in
  let c1 := fst (Pause t1 c) in
  let c2 := fst (Play t2 c1) in
  snd (Pause t1 c) = None /\ state c1 = Paused /\
  (forall later, fst (Position later c1) = (p, None)) /\
  snd (Play t2 c1) = None /\ state c2 = Playing /\
  (projected p t2 t3 < duration c ->
   fst (Position t3 c2) = (projected p t2 t3, None)).
Proof.
  intros Hst Hlt p c1 c2.
  destruct (noLockPosition_running t1 c Hst Hlt) as (Hr & Hs & Hrp & Hrt & Hd).
  assert (Hp : Pause t1 c =
    (setReferencePosition p (setReferenceTime t1
       (setState Paused (snd (noLockPosition t1 c)))), None)).
  { unfold Pause. rewrite Hst.
    destruct (noLockPosition t1 c) as [[[pos ended] err] cc]. simpl in *.
    inversion Hr; subst. reflexivity. }
  unfold c2, c1. rewrite Hp. simpl.
  repeat split.
  - intros later. unfold Position.
    match goal with
    | |- context [noLockPosition later ?x] =>
        destruct (noLockPosition_at_rest later x ltac:(discriminate)) as (H1 & _);
        destruct (noLockPosition later x) as [[[pos ended] err] cc]
    end.
    simpl in *. inversion H1; subst. reflexivity.
  - intros Hlt3. unfold Position.
    match goal with
    | |- context [noLockPosition t3 ?x] =>
        destruct (noLockPosition_running t3 x eq_refl) as (H1 & _);
        [simpl; rewrite Hd; exact Hlt3|];
        destruct (noLockPosition t3 x) as [[[pos ended] err] cc]
    end.
    simpl in *. inversion H1; subst. reflexivity.
Qed.

(** Paused at 2s, resumed at 60s, asked at 61s: the position is 3s. *)
Lemma pause_freezes_play_resumes_witness :
  let c := playing25 clip25 None false in
  fst (Position (3600 * Second) (fst (Pause (2 * Second) c))) = (2 * Second, None) /\
  fst (Position (61 * Second)
         (fst (Play (60 * Second) (fst (Pause (2 * Second) c))))) = (3 * Second, None).
Proof.
  cbv zeta.
  pose (c := playing25 clip25 None false).
  assert (Hlt : projected (referencePosition c) (referenceTime c) (2 * Second) < duration c)
    by reflexivity.
  destruct (pause_freezes_play_resumes (2 * Second) (60 * Second) (61 * Second) c
              eq_refl Hlt) as (_ & _ & H1 & _ & _ & H2).
  split; [apply H1 | apply H2; reflexivity].
Defined.

(** While the video plays short of its end, the position never goes back
    from one reading of the clock to a later one, as long as the sums fit
    [int64]. *)
Theorem position_is_monotone (t1 t2 : Time) (c : controller) :
  state c = Playing -> t1 <= t2 ->
  inInt64 (referencePosition c) ->
  inInt64 (Z.max t2 (referenceTime c) - referenceTime c) ->
  inInt64 (referencePosition c + (Z.max t2 (referenceTime c) - referenceTime c)) ->
  projected (referencePosition c) (referenceTime c) t2 < duration c ->
  let '((p1, err1), c1) := Position t1 c in
  let '((p2, err2), _) := Position t2 c1 in
  err1 = None /\ err2 = None /\ p1 <= p2 /\ p2 < duration c.
Proof.
  intros Hst Hle Hrp Hd2 Hfit Hlt.
  assert (Hd1 : inInt64 (Z.max t1 (referenceTime c) - referenceTime c)).
  { unfold inInt64, minDuration, maxDuration in *. lia. }
  assert (Hfit1 : inInt64 (referencePosition c + (Z.max t1 (referenceTime c) - referenceTime c))).
  { unfold inInt64, minDuration, maxDuration in *. lia. }
  pose proof (ClockClaims.projected_exact (referencePosition c) (referenceTime c) t1 Hd1 Hfit1) as E1.
  pose proof (ClockClaims.projected_exact (referencePosition c) (referenceTime c) t2 Hd2 Hfit) as E2.
  cbv zeta in E1, E2.
  assert (Hlt1 : projected (referencePosition c) (referenceTime c) t1 < duration c) by lia.
  destruct (noLockPosition_running t1 c Hst Hlt1) as (Hr & Hs & Hp & Ht & Hd).
  unfold Position.
  destruct (noLockPosition t1 c) as [[[p1 e1] err1] c1]. simpl in *.
  inversion Hr; subst.
  destruct (noLockPosition_running t2 c1 Hs) as (Hr2 & _).
  { rewrite Hp, Ht, Hd. exact Hlt. }
  destruct (noLockPosition t2 c1) as [[[p2 e2] err2] c2]. simpl in *.
  inversion Hr2; subst. rewrite Hp, Ht. repeat split; lia.
Qed.

Lemma position_is_monotone_witness :
  let '((p1, _), c1) := Position (2 * Second) (playing25 clip25 None false) in
  let '((p2, _), _) := Position (3 * Second) c1 in
  p1 <= p2.
Proof.
  pose (c := playing25 clip25 None false).
  assert (H1 : 2 * Second <= 3 * Second) by (vm_compute; discriminate).
  assert (H2 : inInt64 (referencePosition c)) by (vm_compute; split; discriminate).
  assert (H3 : inInt64 (referencePosition c +
                        (Z.max (3 * Second) (referenceTime c) - referenceTime c)))
    by (vm_compute; split; discriminate).
  assert (H5 : inInt64 (Z.max (3 * Second) (referenceTime c) - referenceTime c))
    by (vm_compute; split; discriminate).
  assert (H4 : projected (referencePosition c) (referenceTime c) (3 * Second) < duration c)
    by reflexivity.
  pose proof (position_is_monotone (2 * Second) (3 * Second) c eq_refl H1 H2 H5 H3 H4) as H.
  fold c.
  destruct (Position (2 * Second) c) as [[p1 err1] c1].
  destruct (Position (3 * Second) c1) as [[p2 err2] c2].
  apply H.
Defined.

End ClockExtras.

(** ** The end of the video, stops, and polling *)

Module PlaybackExtras.
Import VideoOnly Samples Notions MoreNotions VideoOnlyFacts.

(** When the clock passes the duration with looping off, the controller
    stops by itself: [Position()] is the duration from then on, the frame
    held last is kept, and [CurrentVideoFrame()] keeps returning it with
    the end flag set, whatever the decoder answers to the rewind.  A
    [Play] that opens the decoder again starts over: no frame, position 0. *)
Theorem end_of_video_keeps_last_frame (now : Time) (c : controller) :
  state c = Playing -> looping c = false ->
  duration c <= projected (referencePosition c) (referenceTime c) now ->
  let c1 := snd (Position now c) in
  fst (fst (Position now c)) = duration c /\
  state c1 = Stopped /\ lastReadFrame c1 = lastReadFrame c /\
  (forall later,
   CurrentVideoFrame later c1 = Some ((lastReadFrame c, true, None), c1)) /\
  (forall later, fst (Position later c1) = (duration c, None)) /\
  (forall t, openDecodeErr (media c1) = None -> videoOpenErr (media c1) = None ->
   let c2 := fst (Play t c1) in
   snd (Play t c1) = None /\ state c2 = Playing /\ lastReadFrame c2 = None /\
   referencePosition c2 = 0 /\ referenceTime c2 = t).
Proof.
  intros Hst Hloop Hge.
  assert (Hc1 : exists c0 err,
            snd (Position now c) =
              setReferencePosition (duration c)
                (fst (noLockStop stopModeEndOfVideo c0)) /\
            fst (Position now c) = (duration c, err) /\
            state c0 = Playing /\ duration c0 = duration c /\
            lastReadFrame c0 = lastReadFrame c).
  { unfold Position, noLockPosition, projected in *.
    apply Z.ltb_ge in Hge.
    destruct (timeAfter (referenceTime c) now); simpl in *;
      rewrite Hst, Hge, Hloop;
      match goal with
      | |- context [noLockStop ?m ?x] =>
          exists x, (snd (noLockStop m x));
          pose proof (noLockStop_state m x) as (_ & Hd & _);
          destruct (noLockStop m x) as [cc ee]
      end; simpl in *; rewrite Hd; repeat split; assumption. }
  destruct Hc1 as (c0 & err & Hsnd & Hfst & Hst0 & Hd0 & Hlf0).
  cbv zeta. rewrite Hsnd, Hfst. simpl.
  destruct (noLockStop_state stopModeEndOfVideo c0) as (Hs & Hd & _ & _ & Hend).
  destruct (Hend eq_refl) as [Hlf _].
  set (c1 := fst (noLockStop stopModeEndOfVideo c0)) in *. clearbody c1.
  split; [reflexivity|]. split; [exact Hs|]. split; [congruence|].
  split; [|split].
  - intros later. unfold CurrentVideoFrame. simpl. rewrite Hs, Hd, Hd0, Hlf, Hlf0.
    rewrite Z.eqb_refl. reflexivity.
  - intros later. unfold Position, noLockPosition.
    destruct (timeAfter _ later); simpl; rewrite Hs; reflexivity.
  - intros t Ho Hv. unfold Play. simpl in *. rewrite Hs. simpl. rewrite Ho, Hv.
    repeat split.
Qed.

Lemma end_of_video_keeps_last_frame_witness :
  let c := playing25 clip25 (Some (frameAt (9960 * Millisecond))) false in
  fst (Position (12 * Second) (snd (Position (11 * Second) c))) = (10 * Second, None) /\
  CurrentVideoFrame (12 * Second) (snd (Position (11 * Second) c)) =
    Some ((Some (frameAt (9960 * Millisecond)), true, None),
          snd (Position (11 * Second) c)).
Proof.
  cbv zeta.
  pose (c := playing25 clip25 (Some (frameAt (9960 * Millisecond))) false).
  assert (Hge : duration c <= projected (referencePosition c) (referenceTime c) (11 * Second))
    by (vm_compute; discriminate).
  destruct (end_of_video_keeps_last_frame (11 * Second) c eq_refl eq_refl Hge)
    as (_ & _ & _ & H & H' & _).
  split; [apply (H' (12 * Second))|].
  fold c. rewrite (H (12 * Second)). reflexivity.
Defined.




Lemma with_audio_halt_done c c' :
  WithAudio.noLockEnsureAudioHalt c = (c', None) ->
  WithAudio.audioPlayer c' = None /\ WithAudio.leftoverAudio c' = [] /\
  WithAudio.needsFirstAudioFrameOffset c' = true /\
  WithAudio.state c' = WithAudio.state c.
Proof.
  unfold WithAudio.noLockEnsureAudioHalt.
  destruct (WithAudio.audioPlayer c) as [p|] eqn:Hp.
  - destruct (closeErr (PlayerPause p)); [discriminate|].
    intros H. injection H as <-. repeat split.
  - intros H. injection H as <-. repeat split. exact Hp.
Qed.


Lemma with_audio_rewindAndClose_fields c :
  let c' := fst (WithAudio.rewindAndClose c) in
  WithAudio.state c' = WithAudio.state c /\
  WithAudio.audioPlayer c' = WithAudio.audioPlayer c /\
  WithAudio.leftoverAudio c' = WithAudio.leftoverAudio c /\
  WithAudio.needsFirstAudioFrameOffset c' = WithAudio.needsFirstAudioFrameOffset c /\
  WithAudio.firstAudioFrameOffsetOnPlay c' = WithAudio.firstAudioFrameOffsetOnPlay c /\
  WithAudio.staticPosition c' = WithAudio.staticPosition c /\
  WithAudio.lastReadFrame c' = WithAudio.lastReadFrame c /\
  WithAudio.leftoverVideo c' = WithAudio.leftoverVideo c /\
  WithAudio.videoPendingLoop c' = WithAudio.videoPendingLoop c.
Proof.
  unfold WithAudio.rewindAndClose, VideoRewind, AudioRewind.
  destruct (videoRewindErr (WithAudio.media c)); [repeat split|]. cbn.
  destruct (audioRewindErr (WithAudio.media c)); [repeat split|]. cbn.
  destruct (videoCloseErr (WithAudio.media c)); [repeat split|].
  destruct (audioCloseErr (WithAudio.media c)); repeat split.
Qed.




(** [StoppedFacts.operations_keep_pinned] on the controller that was just
    constructed. *)
Lemma operations_keep_pinned_witness :
  pinned (fst (Play 0 fresh25)) /\ pinned (fst (Stop fresh25)).
Proof.
  assert (H : pinned fresh25) by (intros _; left; reflexivity).
  destruct (StoppedFacts.operations_keep_pinned 0 fresh25 H) as (H1 & _ & H3 & _).
  split; [exact H1 | exact H3].
Defined.

End PlaybackExtras.

(** ** Polling the video-only controller *)

Module PollingExtras.
Import VideoOnly Samples Notions VideoOnlyFacts CursorFacts.

(** A catch-up that ends without an error, without the end of the video
    and without a rewind leaves the clock alone, holds the frame it hands
    out, and no further frame is due for it. *)
Lemma catchUp_rests fuel now position : forall prev pres c fr c',
  videoPendingLoop c = false ->
  heldOffset (lastReadFrame c) = pres ->
  (forall f, lastReadFrame c = Some f -> vfOffsetErr f = None) ->
  catchUp fuel now position prev pres c = Some ((fr, false, None), c') ->
  videoPendingLoop c' = false ->
  lastReadFrame c' = fr /\
  ~ durAdd (heldOffset fr) (frameDuration c) < position /\
  (forall f, fr = Some f -> vfOffsetErr f = None) /\
  state c' = state c /\ referencePosition c' = referencePosition c /\
  referenceTime c' = referenceTime c /\ duration c' = duration c /\
  frameDuration c' = frameDuration c.
Proof.
  induction fuel as [|fuel IH]; intros prev pres c fr c' Hpl Hheld Herr; simpl;
    rewrite Hpl, orb_false_r; simpl.
  - destruct (durAdd pres (frameDuration c) <? position) eqn:Hc; [discriminate|].
    intros H _. inversion H; subst. apply Z.ltb_ge in Hc.
    repeat split; try assumption. lia.
  - destruct (durAdd pres (frameDuration c) <? position) eqn:Hc.
    + unfold internalReadVideoFrame.
      destruct (readVideoFrameFrom _ _ _) as [[[g|] [e|]] [rest n]] eqn:Hread;
        try discriminate.
      * unfold PresentationOffset. destruct (vfOffsetErr g) eqn:Hg; [discriminate|].
        intros Hrun Hpl'.
        apply IH in Hrun;
          [exact Hrun | exact Hpl | reflexivity
           | simpl; intros f Hf; inversion Hf; subst; exact Hg | exact Hpl'].
      * simpl. destruct (looping c).
        -- unfold VideoRewind; simpl.
           destruct (videoRewindErr (media c)); [discriminate|].
           intros H Hpl'. inversion H; subst. simpl in Hpl'. discriminate.
        -- destruct (noLockStop _ _). discriminate.
    + intros H _. inversion H; subst. apply Z.ltb_ge in Hc.
      repeat split; try assumption. lia.
Qed.

(** Polling twice at the same instant decodes nothing more: when
    [CurrentVideoFrame()], while playing short of the end with no loop
    pending, has returned without an error, without the end flag and
    without rewinding, a second call at the same clock reading returns
    the same frame and leaves the decoder where it was. *)
Theorem polling_again_decodes_nothing (now : Time) (c : controller)
  (fr : option VideoFrame) (c' : controller) :
  state c = Playing -> videoPendingLoop c = false ->
  projected (referencePosition c) (referenceTime c) now < duration c ->
  CurrentVideoFrame now c = Some ((fr, false, None), c') ->
  videoPendingLoop c' = false ->
  exists c'',
    CurrentVideoFrame now c' = Some ((fr, false, None), c'') /\
    media c'' = media c' /\ lastReadFrame c'' = fr.
Proof.
  intros Hst Hpl Hlt. unfold CurrentVideoFrame at 1. rewrite Hst.
  destruct (noLockPosition_inside now c Hst Hlt) as (c1 & Hpos & Hpl1 & Hlf1 & Hfd1 & Hs1 & Hm1).
  destruct (ClockExtras.noLockPosition_running now c Hst Hlt) as (Hr & Hst1 & Hrp1 & Hrt1 & Hd1).
  rewrite Hpos in *. cbn [fst snd] in *. rewrite Hpl in Hpl1.
  set (p := projected (referencePosition c) (referenceTime c) now) in *.
  assert (Hrest : forall pres,
            heldOffset (lastReadFrame c1) = pres ->
            (forall f, lastReadFrame c1 = Some f -> vfOffsetErr f = None) ->
            catchUp (S (List.length (upcoming (media c1)))) now p pres pres c1 =
              Some ((fr, false, None), c') ->
            videoPendingLoop c' = false ->
            exists c'',
              CurrentVideoFrame now c' = Some ((fr, false, None), c'') /\
              media c'' = media c' /\ lastReadFrame c'' = fr).
  { intros pres Hheld Herr Hrun Hpl'.
    destruct (catchUp_rests _ _ _ _ _ _ _ _ Hpl1 Hheld Herr Hrun Hpl')
      as (Hlf & Hdue & Hok & Hs & Hrp & Hrt & Hd & Hfd).
    assert (Hst' : state c' = Playing) by congruence.
    assert (Hlt' : projected (referencePosition c') (referenceTime c') now < duration c').
    { rewrite Hrp, Hrt, Hd, Hrp1, Hrt1, Hd1. exact Hlt. }
    destruct (noLockPosition_inside now c' Hst' Hlt')
      as (c2 & Hpos2 & Hpl2 & Hlf2 & Hfd2 & Hs2 & Hm2).
    exists c2. unfold CurrentVideoFrame. rewrite Hst', Hpos2, Hlf2, Hlf.
    assert (Hp : projected (referencePosition c') (referenceTime c') now = p).
    { rewrite Hrp, Hrt, Hrp1, Hrt1. reflexivity. }
    rewrite Hp.
    assert (Hquiet : forall pres',
              pres' = heldOffset fr ->
              catchUp (S (List.length (upcoming (media c2)))) now p pres' pres' c2 =
              Some ((lastReadFrame c2, false, None), c2)).
    { intros pres' ->. simpl. rewrite Hpl2, Hpl', orb_false_r, Hfd2, Hfd.
      destruct (durAdd (heldOffset fr) (frameDuration c1) <? p) eqn:Hc;
        [apply Z.ltb_lt in Hc; contradiction | reflexivity]. }
    destruct fr as [f|].
    - unfold PresentationOffset. rewrite (Hok f eq_refl).
      rewrite Hquiet by reflexivity. rewrite Hlf2, Hlf. repeat split; congruence.
    - rewrite Hquiet by reflexivity. rewrite Hlf2, Hlf. repeat split; congruence. }
  destruct (lastReadFrame c1) as [h|] eqn:Hh.
  - unfold PresentationOffset. destruct (vfOffsetErr h) eqn:Hherr; [discriminate|].
    apply Hrest; [reflexivity|]. intros f Hf. inversion Hf; subst. exact Hherr.
  - apply Hrest; [reflexivity|]. intros f Hf. discriminate.
Qed.

Lemma polling_again_decodes_nothing_witness :
  exists c' c'',
    CurrentVideoFrame (2040 * Millisecond) (playing25 clip25 None false) =
      Some ((Some (frameAt (2000 * Millisecond)), false, None), c') /\
    CurrentVideoFrame (2040 * Millisecond) c' =
      Some ((Some (frameAt (2000 * Millisecond)), false, None), c'') /\
    framesDecoded (media c'') = 51%nat /\ framesDecoded (media c') = 51%nat.
Proof.
  pose (c := playing25 clip25 None false).
  destruct (CurrentVideoFrame (2040 * Millisecond) c)
    as [[[[fr [|]] [e|]] c']|] eqn:Hrun; try (vm_compute in Hrun; discriminate Hrun).
  assert (Hfr : fr = Some (frameAt (2000 * Millisecond))).
  { vm_compute in Hrun. inversion Hrun. reflexivity. }
  assert (Hpl : videoPendingLoop c' = false).
  { vm_compute in Hrun. inversion Hrun. reflexivity. }
  assert (Hn : framesDecoded (media c') = 51%nat).
  { vm_compute in Hrun. inversion Hrun. reflexivity. }
  destruct (polling_again_decodes_nothing (2040 * Millisecond) c fr c'
              eq_refl eq_refl eq_refl Hrun Hpl) as (c'' & H1 & H2 & _).
  exists c', c''. subst fr. repeat split; try assumption. congruence.
Defined.

End PollingExtras.

(** ** The pull callback: what it delivers *)

Module DeliveryExtras.
Import WithAudio Samples Notions MoreNotions ReadFacts.

Lemma audioDataOf_app index l1 l2 :
  audioDataOf index (l1 ++ l2) = audioDataOf index l1 ++ audioDataOf index l2.
Proof.
  induction l1 as [|[e|[i d|i d|i]] l1 IH]; simpl; try assumption; try reflexivity.
  destruct d; try assumption.
  destruct (i =? index); [rewrite IH, app_assoc; reflexivity | assumption].
Qed.

Lemma framesOf_app index l1 l2 :
  framesOf index (l1 ++ l2) = framesOf index l1 ++ framesOf index l2.
Proof.
  induction l1 as [|[e|[i d|i d|i]] l1 IH]; simpl; try assumption; try reflexivity.
  destruct d; try assumption.
  destruct (i =? index); [rewrite IH; reflexivity | assumption].
Qed.

(** One decoding step takes a prefix of the packets to come, appends the
    bytes of the audio frame it found to the bytes held, and queues the
    video frames it met. *)
Lemma readAudioFrameFrom_conserves l : forall c,
  let r := readAudioFrameFrom l c in
  audio (snd (snd r)) = audio c /\ video (snd (snd r)) = video c /\
  exists consumed,
    l = consumed ++ fst (snd r) /\
    leftoverAudio (snd (snd r)) =
      leftoverAudio c ++ audioDataOf (asIndex (audio c)) consumed /\
    leftoverVideo (snd (snd r)) =
      leftoverVideo c ++ framesOf (vsIndex (video c)) consumed.
Proof.
  induction l as [|[e|[i d|i d|i]] l IH]; intros c; cbv zeta; simpl.
  - split; [reflexivity|]. split; [reflexivity|]. exists []. simpl. rewrite !app_nil_r. repeat split.
  - split; [reflexivity|]. split; [reflexivity|]. exists [ReadFails e]. simpl. rewrite !app_nil_r. repeat split.
  - destruct (i =? vsIndex (video c)) eqn:Hi; simpl.
    + destruct d as [e| |f]; simpl.
      * split; [reflexivity|]. split; [reflexivity|].
        exists [ReadYields (VideoPacket i (DecodeFails e))]. simpl.
        rewrite !app_nil_r. repeat split.
      * destruct (IH c) as (Ha & Hv & consumed & H1 & H2 & H3).
        split; [exact Ha|]. split; [exact Hv|].
        exists (ReadYields (VideoPacket i FrameSkipped) :: consumed). simpl.
        repeat split; [f_equal; exact H1 | exact H2 | exact H3].
      * match goal with
        | |- context [readAudioFrameFrom l ?x] =>
            destruct (IH x) as (Ha & Hv & consumed & H1 & H2 & H3)
        end. simpl in *.
        split; [exact Ha|]. split; [exact Hv|].
        exists (ReadYields (VideoPacket i (Frame f)) :: consumed). simpl. rewrite Hi.
        repeat split; [f_equal; exact H1 | exact H2 |].
        rewrite H3, <- app_assoc. reflexivity.
    + destruct (IH c) as (Ha & Hv & consumed & H1 & H2 & H3).
      split; [exact Ha|]. split; [exact Hv|].
      exists (ReadYields (VideoPacket i d) :: consumed). simpl. rewrite Hi.
      destruct d; repeat split; try (f_equal; exact H1); assumption.
  - destruct (i =? asIndex (audio c)) eqn:Hi; simpl.
    + destruct d as [e| |f]; simpl.
      * split; [reflexivity|]. split; [reflexivity|].
        exists [ReadYields (AudioPacket i (DecodeFails e))]. simpl.
        rewrite !app_nil_r. repeat split.
      * destruct (IH c) as (Ha & Hv & consumed & H1 & H2 & H3).
        split; [exact Ha|]. split; [exact Hv|].
        exists (ReadYields (AudioPacket i FrameSkipped) :: consumed). simpl.
        repeat split; [f_equal; exact H1 | exact H2 | exact H3].
      * destruct (needsFirstAudioFrameOffset c); simpl;
          [destruct (afOffsetErr f); simpl|];
          (split; [reflexivity|]; split; [reflexivity|];
           exists [ReadYields (AudioPacket i (Frame f))]; simpl;
           rewrite Hi, !app_nil_r; repeat split).
    + destruct (IH c) as (Ha & Hv & consumed & H1 & H2 & H3).
      split; [exact Ha|]. split; [exact Hv|].
      exists (ReadYields (AudioPacket i d) :: consumed). simpl. rewrite Hi.
      destruct d; repeat split; try (f_equal; exact H1); assumption.
  - destruct (IH c) as (Ha & Hv & consumed & H1 & H2 & H3).
    split; [exact Ha|]. split; [exact Hv|].
    exists (ReadYields (OtherPacket i) :: consumed). simpl.
    repeat split; [f_equal; exact H1 | exact H2 | exact H3].
Qed.

Lemma internalReadAudioFrame_conserves c :
  let c1 := fst (internalReadAudioFrame c) in
  audio c1 = audio c /\ video c1 = video c /\
  exists consumed,
    upcoming (media c) = consumed ++ upcoming (media c1) /\
    leftoverAudio c1 = leftoverAudio c ++ audioDataOf (asIndex (audio c)) consumed /\
    leftoverVideo c1 = leftoverVideo c ++ framesOf (vsIndex (video c)) consumed.
Proof.
  unfold internalReadAudioFrame.
  pose proof (readAudioFrameFrom_conserves (upcoming (media c)) c) as H.
  destruct (readAudioFrameFrom (upcoming (media c)) c) as [err [rest c1]].
  exact H.
Qed.

Lemma noLockCopyLeftoverAudio_keeps room c :
  let c' := snd (noLockCopyLeftoverAudio room c) in
  audio c' = audio c /\ video c' = video c /\ leftoverVideo c' = leftoverVideo c /\
  media c' = media c /\
  fst (noLockCopyLeftoverAudio room c) ++ leftoverAudio c' = leftoverAudio c.
Proof.
  pose proof (noLockCopyLeftoverAudio_spec room c) as (Hc & Hl & Hm & _).
  cbv zeta. rewrite Hc, Hl, firstn_skipn. unfold noLockCopyLeftoverAudio.
  destruct (Nat.leb _ _); repeat split.
Qed.

Lemma decodeInto_conserves fuel ctx : forall room served c sv n c',
  decodeInto fuel ctx room served c = Some (Returned ((sv, n, None), c')) ->
  exists consumed,
    upcoming (media c) = consumed ++ upcoming (media c') /\
    sv ++ leftoverAudio c' =
      served ++ leftoverAudio c ++ audioDataOf (asIndex (audio c)) consumed /\
    leftoverVideo c' = leftoverVideo c ++ framesOf (vsIndex (video c)) consumed.
Proof.
  induction fuel as [|fuel IH]; intros room served c sv n c'.
  - destruct room; simpl; [|discriminate].
    intros H. inversion H; subst. exists []. simpl. rewrite !app_nil_r. repeat split.
  - destruct room as [|room]; simpl.
    + intros H. inversion H; subst. exists []. simpl. rewrite !app_nil_r. repeat split.
    + pose proof (internalReadAudioFrame_conserves c) as (Ha & Hv & consumed & H1 & H2 & H3).
      destruct (internalReadAudioFrame c) as [c1 [e|]]; [discriminate|]. simpl in *.
      destruct (leftoverAudio c1) as [|b bs] eqn:Hleft.
      * destruct (looping c1).
        -- destruct (noLockRewindForLooping _) as [c2 [e|]]; [discriminate|].
           destruct (noLockHackyAudioReset ctx c2) as [[c3 [e|]]|msg]; discriminate.
        -- destruct (noLockStop _ _) as [c2 [e|]]; discriminate.
      * pose proof (noLockCopyLeftoverAudio_keeps (S room) c1) as (Ka & Kv & Kq & Km & Kl).
        destruct (noLockCopyLeftoverAudio (S room) c1) as [copied c2]. simpl in *.
        intros Hrun. apply IH in Hrun.
        destruct Hrun as (consumed2 & G1 & G2 & G3).
        exists (consumed ++ consumed2).
        rewrite Ka, Ha in G2. rewrite Kv, Hv in G3. rewrite Km in G1.
        rewrite audioDataOf_app, framesOf_app.
        split; [rewrite H1, G1, app_assoc; reflexivity|]. split.
        -- assert (E : copied ++ leftoverAudio c2 =
                        leftoverAudio c ++ audioDataOf (asIndex (audio c)) consumed)
             by congruence.
           rewrite G2, <- !app_assoc. f_equal.
           rewrite (app_assoc copied), E, <- app_assoc. reflexivity.
        -- rewrite G3, Kq, H3, app_assoc. reflexivity.
Qed.

(** Leftover-audio conservation: when a pull is served in full, the
    bytes delivered followed by the bytes kept for the next pull are the
    bytes that were kept before followed by those of the audio frames
    decoded meanwhile, in order: nothing is lost, doubled or reordered.
    The packets read are a prefix of those that were to come, and every
    video frame among them joins the queue of frames decoded ahead. *)
Theorem pull_conserves_audio (strict : bool) (ctx : option Context) (len : Z)
  (c : controller) (served : list Byte.byte) (n : Z) (c' : controller) :
  Read strict ctx len c = Some (Returned ((served, n, None), c')) ->
  exists consumed,
    upcoming (media c) = consumed ++ upcoming (media c') /\
    served ++ leftoverAudio c' =
      leftoverAudio c ++ audioDataOf (asIndex (audio c)) consumed /\
    leftoverVideo c' = leftoverVideo c ++ framesOf (vsIndex (video c)) consumed.
Proof.
  unfold Read.
  destruct (if negb (Z.land len 3 =? 0)
            then if strict then None else Some (Z.land len (MaxInt - 3))
            else Some len) as [m|]; [|discriminate].
  destruct (leftoverAudio c) as [|b bs] eqn:Hleft.
  - destruct (Z.to_nat m) as [|r].
    + intros H. inversion H; subst. exists []. simpl.
      rewrite Hleft, app_nil_r. repeat split.
    + intros Hrun. apply decodeInto_conserves in Hrun. rewrite Hleft in Hrun. exact Hrun.
  - pose proof (noLockCopyLeftoverAudio_keeps (Z.to_nat m) c) as (Ka & Kv & Kq & Km & Kl).
    destruct (noLockCopyLeftoverAudio (Z.to_nat m) c) as [copied c1]. cbn [fst snd] in *.
    destruct (Z.to_nat m - List.length copied)%nat as [|r].
    + intros H. inversion H; subst. exists []. simpl.
      rewrite Kl, Kq, !app_nil_r. repeat split; congruence.
    + intros Hrun. apply decodeInto_conserves in Hrun.
      destruct Hrun as (consumed & G1 & G2 & G3). exists consumed.
      rewrite Km in G1. rewrite Ka in G2. rewrite Kv, Kq in G3.
      split; [exact G1|]. split; [|exact G3].
      rewrite G2, app_assoc, Kl, Hleft. reflexivity.
Qed.

(** The pull of 777 bytes of the sample: 800 bytes decoded, 776 served. *)
Lemma pull_conserves_audio_witness :
  let c := playingWithAudio (interleaved 3 0 (40 * Millisecond) 400) in
  exists served c' consumed,
    Read false (Some context48k) 777 c = Some (Returned ((served, 776, None), c')) /\
    upcoming (media c) = consumed ++ upcoming (media c') /\
    served ++ leftoverAudio c' = audioDataOf 1 consumed /\
    List.length (audioDataOf 1 consumed) = 800%nat.
Proof.
  cbv zeta.
  pose (c := playingWithAudio (interleaved 3 0 (40 * Millisecond) 400)).
  destruct (Read false (Some context48k) 777 c)
    as [[[[[served n] [e|]] c']|msg]|] eqn:Hrun; try (vm_compute in Hrun; discriminate Hrun).
  assert (Hn : n = 776) by (vm_compute in Hrun; inversion Hrun; reflexivity).
  subst n.
  destruct (pull_conserves_audio false (Some context48k) 777 c served 776 c' Hrun)
    as (consumed & H1 & H2 & H3).
  exists served, c', consumed. split; [exact Hrun|]. split; [exact H1|].
  split; [exact H2|].
  change (asIndex (audio c)) with 1 in H2. simpl in H2. rewrite <- H2.
  vm_compute in Hrun. inversion Hrun. reflexivity.
Defined.

End DeliveryExtras.

(** ** The pull callback: bounds and the end of the stream *)

Module SinkExtras.
Import WithAudio Samples Notions MoreNotions ReadFacts.

Lemma decodeInto_bounded fuel ctx : forall room served c sv n err c',
  decodeInto fuel ctx room served c = Some (Returned ((sv, n, err), c')) ->
  (List.length sv <= List.length served + room)%nat /\ n = Z.of_nat (List.length sv).
Proof.
  induction fuel as [|fuel IH]; intros room served c sv n err c'.
  - destruct room; simpl; [|discriminate].
    intros H. inversion H; subst. split; [lia | reflexivity].
  - destruct room as [|room]; simpl.
    + intros H. inversion H; subst. split; [lia | reflexivity].
    + destruct (internalReadAudioFrame c) as [c1 [e|]].
      * intros H. inversion H; subst. split; [lia | reflexivity].
      * destruct (leftoverAudio c1) as [|b bs] eqn:Hleft.
        -- destruct (looping c1).
           ++ destruct (noLockRewindForLooping _) as [c2 [e|]];
                [intros H; inversion H; subst; split; [lia | reflexivity]|].
              destruct (noLockHackyAudioReset ctx c2) as [[c3 [e|]]|msg];
                try discriminate;
                intros H; inversion H; subst; split; [lia | reflexivity | lia | reflexivity].
           ++ destruct (noLockStop _ _) as [c2 [e|]];
                intros H; inversion H; subst; split; [lia | reflexivity | lia | reflexivity].
        -- pose proof (noLockCopyLeftoverAudio_spec (S room) c1) as (_ & _ & _ & Hle & _).
           destruct (noLockCopyLeftoverAudio (S room) c1) as [copied c2].
           cbn [fst snd] in *.
           intros Hrun. apply IH in Hrun. destruct Hrun as [H1 H2].
           rewrite length_app in H1.
           destruct (List.length copied); split; try exact H2; lia.
Qed.

(** A pull never overruns the buffer: whatever it reports, the count it
    returns is the number of bytes it put into the buffer, and that is at
    most the length of the buffer rounded down to whole samples. *)
Theorem pull_never_overruns (strict : bool) (ctx : option Context) (len : Z)
  (c : controller) (served : list Byte.byte) (n : Z) (err : option error)
  (c' : controller) :
  0 <= len <= MaxInt ->
  Read strict ctx len c = Some (Returned ((served, n, err), c')) ->
  n = Z.of_nat (List.length served) /\ 0 <= n <= len - len mod 4.
Proof.
  intros Hlen. unfold Read.
  assert (Hclamp : forall m,
            (if negb (Z.land len 3 =? 0)
             then if strict then None else Some (Z.land len (MaxInt - 3))
             else Some len) = Some m -> m = len - len mod 4).
  { intros m. rewrite low_bits_are_remainder.
    destruct (Z.eqb_spec (len mod 4) 0) as [E | E]; simpl.
    - intros H. injection H as <-. rewrite E. lia.
    - destruct strict; [discriminate|]. intros H. injection H as <-.
      apply clamp_is_round_down. exact Hlen. }
  destruct (if negb (Z.land len 3 =? 0)
            then if strict then None else Some (Z.land len (MaxInt - 3))
            else Some len) as [m|]; [|discriminate].
  specialize (Hclamp m eq_refl). subst m.
  assert (Hpos : 0 <= len - len mod 4).
  { pose proof (Z.mod_pos_bound len 4 ltac:(lia)).
    pose proof (Z.mod_le len 4 ltac:(lia) ltac:(lia)). lia. }
  set (total := Z.to_nat (len - len mod 4)).
  assert (Htot : Z.of_nat total = len - len mod 4) by (apply Z2Nat.id; exact Hpos).
  destruct (leftoverAudio c) as [|b bs] eqn:Hleft.
  - destruct total as [|r] eqn:Ht.
    + intros H. inversion H; subst. simpl. lia.
    + intros Hrun. apply decodeInto_bounded in Hrun. simpl in Hrun. lia.
  - pose proof (noLockCopyLeftoverAudio_spec total c) as (_ & _ & _ & Hle & _).
    destruct (noLockCopyLeftoverAudio total c) as [copied c1]. cbn [fst snd] in *.
    destruct (total - List.length copied)%nat as [|r] eqn:Hr.
    + intros H. inversion H; subst. lia.
    + intros Hrun. apply decodeInto_bounded in Hrun. lia.
Qed.

(** The last pull of the sample: 1200 bytes are left, 2000 are asked for. *)
Lemma pull_never_overruns_witness :
  let c := playingWithAudio (interleaved 3 0 (40 * Millisecond) 400) in
  exists served err c',
    Read false (Some context48k) 2002 c = Some (Returned ((served, 1200, err), c')) /\
    1200 <= 2002 - 2002 mod 4.
Proof.
  cbv zeta.
  pose (c := playingWithAudio (interleaved 3 0 (40 * Millisecond) 400)).
  destruct (Read false (Some context48k) 2002 c)
    as [[[[[served n] err] c']|msg]|] eqn:Hrun; try (vm_compute in Hrun; discriminate Hrun).
  assert (Hlen : 0 <= 2002 <= MaxInt) by (vm_compute; split; discriminate).
  destruct (pull_never_overruns false (Some context48k) 2002 c served n err c' Hlen Hrun)
    as (_ & _ & H3).
  assert (Hn : n = 1200) by (vm_compute in Hrun; inversion Hrun; reflexivity).
  rewrite Hn in Hrun, H3. exists served, err, c'. split; [exact Hrun | exact H3].
Defined.

End SinkExtras.

(** ** Pausing and resuming the audio-driven controller *)

Module ResumeExtras.
Import WithAudio Samples Notions MoreNotions MoreSamples.

(** Short of the end, and when nothing fails, reading the position leaves
    the controller alone. *)
Lemma noLockPosition_short c pos c0 :
  noLockPosition c = ((pos, false, None), c0) -> c0 = c.
Proof.
  unfold noLockPosition.
  destruct (audioPlayer c) as [p|]; [|intros H; inversion H; reflexivity].
  destruct (needsFirstAudioFrameOffset c); [intros H; inversion H; reflexivity|].
  destruct (_ <? duration c); [intros H; inversion H; reflexivity|].
  destruct (noLockStop stopModeEndOfVideo c) as [c1 e]. discriminate.
Qed.

(** [Pause] of the audio-driven controller short of the end closes the
    sink and drops the audio bytes decoded ahead, but keeps the video
    frames decoded ahead, the frame held and the decoder where they are;
    [Position()] stays at the position of the pause.  The [Play] that
    follows makes a new sink, running, with the volume in force (0 when
    muted), and the position is still that of the pause. *)
Theorem with_audio_pause_then_play (ctx : Context) (c c1 : controller) :
  state c = Playing ->
  Pause c = (c1, None) -> state c1 = Paused ->
  newPlayerErr ctx = None ->
  let pos := fst (fst (Position c)) in
  audioPlayer c1 = None /\ leftoverAudio c1 = [] /\
  leftoverVideo c1 = leftoverVideo c /\ lastReadFrame c1 = lastReadFrame c /\
  media c1 = media c /\
  Position c1 = ((pos, None), c1) /\
  exists c2 p,
    Play (Some ctx) c1 = Returned (c2, None) /\ state c2 = Playing /\
    audioPlayer c2 = Some p /\ running p = true /\ consumed p = 0 /\
    playerVolume p = getEffectiveVolume c /\ bufferSize p = playerBufferSize /\
    leftoverVideo c2 = leftoverVideo c /\ lastReadFrame c2 = lastReadFrame c /\
    media c2 = media c /\
    Position c2 = ((pos, None), c2).
Proof.
  intros Hst Hpause Hst1 Hctx. cbv zeta.
  unfold Pause in Hpause. rewrite Hst in Hpause. unfold Position.
  destruct (noLockPosition c) as [[[pos ended] [e|]] c0] eqn:Hpos; [discriminate|].
  destruct ended.
  { injection Hpause as <-. exfalso.
    revert Hpos. unfold noLockPosition.
    destruct (audioPlayer c) as [p|]; [|discriminate].
    destruct (needsFirstAudioFrameOffset c); [discriminate|].
    destruct (_ <? duration c); [discriminate|].
    destruct (noLockStop stopModeEndOfVideo c) as [cx ex] eqn:Hstop.
    cbn. intros H. injection H as _ _ <-.
    revert Hstop. unfold noLockStop. cbn [Bool.eqb stopModeManual stopModeEndOfVideo].
    rewrite Hst.
    destruct (noLockEnsureAudioHalt (setState Stopped c)) as [cy [ey|]] eqn:Hhalt.
    - intros H. injection H as <- _.
      assert (state cy = Stopped).
      { revert Hhalt. unfold noLockEnsureAudioHalt. simpl.
        destruct (audioPlayer c) as [q|]; [|discriminate].
        destruct (closeErr q); [|discriminate].
        intros H. injection H as <- _. reflexivity. }
      congruence.
    - apply PlaybackExtras.with_audio_halt_done in Hhalt. destruct Hhalt as (_ & _ & _ & Hs).
      set (cz := setVideoPendingLoop false _).
      pose proof (PlaybackExtras.with_audio_rewindAndClose_fields cz) as (B0 & _).
      destruct (rewindAndClose cz) as [c3 e3]. cbn in *.
      intros H. injection H as <- _. congruence. }
  apply noLockPosition_short in Hpos. subst c0. simpl.
  destruct (noLockEnsureAudioHalt (setState Paused c)) as [ch [e|]] eqn:Hhalt; [discriminate|].
  injection Hpause as <-.
  assert (Hh : audioPlayer ch = None /\ leftoverAudio ch = [] /\
               needsFirstAudioFrameOffset ch = true /\ state ch = Paused /\
               leftoverVideo ch = leftoverVideo c /\ lastReadFrame ch = lastReadFrame c /\
               media ch = media c /\ muted ch = muted c /\ volume ch = volume c).
  { revert Hhalt. unfold noLockEnsureAudioHalt. simpl.
    destruct (audioPlayer c) as [q|] eqn:Hq.
    - destruct (closeErr q); [discriminate|].
      intros H. injection H as <-. repeat split.
    - intros H. injection H as <-. repeat split. exact Hq. }
  destruct Hh as (H1 & H2 & H3 & H4 & H5 & H6 & H7 & H8 & H9).
  split; [exact H1|]. split; [exact H2|]. split; [exact H5|]. split; [exact H6|].
  split; [exact H7|].
  split.
  { unfold noLockPosition. simpl. rewrite H1. reflexivity. }
  unfold Play. simpl. rewrite H4, H1. unfold noLockCreateAudioPlayer, NewPlayer.
  rewrite Hctx. simpl.
  eexists. eexists. split; [reflexivity|]. simpl.
  split; [reflexivity|]. split; [reflexivity|]. split; [reflexivity|].
  split; [reflexivity|].
  split; [unfold getEffectiveVolume; simpl; rewrite H8, H9; reflexivity|].
  split; [reflexivity|]. split; [exact H5|]. split; [exact H6|]. split; [exact H7|].
  unfold noLockPosition. simpl. reflexivity.
Qed.


(** [StoppedFacts.with_audio_manual_stop_pins_start] on the sample
    controller while it plays. *)
Lemma with_audio_manual_stop_pins_start_witness :
  state (fst (Stop (playingWithAudio []))) = Stopped /\
  fst (Position (fst (Stop (playingWithAudio [])))) = (0, None).
Proof.
  assert (H : Stop (playingWithAudio []) = (fst (Stop (playingWithAudio [])), None))
    by (vm_compute; reflexivity).
  exact (StoppedFacts.with_audio_manual_stop_pins_start _ _ H).
Defined.

Lemma with_audio_pause_then_play_witness :
  let c := playingWithAudio (interleaved 3 0 (40 * Millisecond) 400) in
  exists c2 p,
    Play (Some context48k) (fst (Pause c)) = Returned (c2, None) /\
    audioPlayer c2 = Some p /\ running p = true /\
    Position c2 = ((fst (fst (Position c)), None), c2).
Proof.
  cbv zeta.
  pose (c := playingWithAudio (interleaved 3 0 (40 * Millisecond) 400)).
  assert (H1 : Pause c = (fst (Pause c), None)) by reflexivity.
  assert (H2 : state (fst (Pause c)) = Paused) by reflexivity.
  destruct (with_audio_pause_then_play context48k c (fst (Pause c)) eq_refl H1 H2 eq_refl)
    as (_ & _ & _ & _ & _ & _ & c2 & p & G1 & _ & G3 & G4 & _ & _ & _ & _ & _ & _ & G11).
  exists c2, p. repeat split; assumption.
Defined.

End ResumeExtras.

(** ** The clock of the audio-driven controller *)

Module AudioClockExtras.
Import WithAudio Samples Notions MoreNotions MoreSamples.

(** The clock of the audio-driven controller is the audio sink: with a
    sink that has played its first frame, [Position()] is the offset of
    that frame plus what the sink has consumed; without one, or before
    its first frame, it is the position kept from the last pause or
    stop.  When the sum reaches the duration the controller stops by
    itself, reports the duration, and keeps reporting it once the sink
    is closed. *)
Theorem audio_clock_position (c : controller) :
  (audioPlayer c = None \/ needsFirstAudioFrameOffset c = true ->
   Position c = ((staticPosition c, None), c)) /\
  (forall p,
     audioPlayer c = Some p -> needsFirstAudioFrameOffset c = false ->
     let pos := durAdd (firstAudioFrameOffsetOnPlay c) (consumed p) in
     (pos < duration c -> Position c = ((pos, None), c)) /\
     (duration c <= pos -> state c <> Stopped ->
      let c' := snd (Position c) in
      fst (fst (Position c)) = duration c /\ state c' = Stopped /\
      (closeErr p = None ->
       snd (fst (Position c)) = snd (rewindAndClose c) /\
       audioPlayer c' = None /\ Position c' = ((duration c, None), c')))).
Proof.
  split.
  - intros [H | H]; unfold Position, noLockPosition; rewrite H; [reflexivity|].
    destruct (audioPlayer c); reflexivity.
  - intros p Hp Hn. cbv zeta. split.
    + intros Hlt. unfold Position, noLockPosition. rewrite Hp, Hn.
      apply Z.ltb_lt in Hlt. rewrite Hlt. reflexivity.
    + intros Hge Hns. unfold Position, noLockPosition. rewrite Hp, Hn.
      apply Z.ltb_ge in Hge. rewrite Hge.
      unfold noLockStop. cbn [Bool.eqb stopModeManual stopModeEndOfVideo].
      assert (Hgo : forall A (x y : A), match state c with Stopped => x | _ => y end = y).
      { intros A x y. destruct (state c); [contradiction | reflexivity | reflexivity]. }
      rewrite Hgo. unfold noLockEnsureAudioHalt. cbn [audioPlayer setState]. rewrite Hp.
      cbn [closeErr PlayerPause].
      destruct (closeErr p) as [e|] eqn:Hclose.
      * cbn. split; [reflexivity|]. split; [reflexivity|]. discriminate.
      * set (cz := setVideoPendingLoop false _).
        pose proof (PlaybackExtras.with_audio_rewindAndClose_fields cz)
          as (B0 & B1 & B2 & B3 & B4 & B5 & B6 & B7 & B8).
        assert (Hd : duration (fst (rewindAndClose cz)) = duration c).
        { unfold rewindAndClose, VideoRewind, AudioRewind. cbn.
          destruct (videoRewindErr (media c)); [reflexivity|]. cbn.
          destruct (audioRewindErr (media c)); [reflexivity|]. cbn.
          destruct (videoCloseErr (media c)); [reflexivity|].
          destruct (audioCloseErr (media c)); reflexivity. }
        assert (He : snd (rewindAndClose cz) = snd (rewindAndClose c)).
        { unfold rewindAndClose, VideoRewind, AudioRewind. cbn.
          destruct (videoRewindErr (media c)); [reflexivity|]. cbn.
          destruct (audioRewindErr (media c)); [reflexivity|]. cbn.
          destruct (videoCloseErr (media c)); [reflexivity|].
          destruct (audioCloseErr (media c)); reflexivity. }
        destruct (rewindAndClose cz) as [c3 e3]. cbn in *.
        split; [exact Hd|]. split; [exact B0|]. intros _.
        split; [exact He|]. split; [exact B1|].
        rewrite B1, B5. reflexivity.
Qed.


Lemma audio_clock_position_witness :
  Position queued = ((durAdd 0 (100 * Millisecond), None), queued).
Proof.
  destruct (audio_clock_position queued) as [_ H].
  destruct (H {| consumed := 100 * Millisecond; running := true;
                 bufferSize := playerBufferSize;
                 playerVolume := 1%float; closeErr := None |} eq_refl eq_refl)
    as [H1 _].
  apply H1. reflexivity.
Defined.

End AudioClockExtras.

(** ** The pull callback at the end of the stream *)

Module EndExtras.
Import WithAudio Samples Notions MoreNotions MoreSamples ReadFacts.

Lemma sameButDecoded_refl c : sameButDecoded c c.
Proof. unfold sameButDecoded. repeat split. Qed.

Lemma sameButDecoded_trans a b c :
  sameButDecoded a b -> sameButDecoded b c -> sameButDecoded a c.
Proof.
  unfold sameButDecoded. intros H1 H2.
  repeat match goal with H : _ /\ _ |- _ => destruct H end.
  repeat split; congruence.
Qed.

Lemma readAudioFrameFrom_noAudioLeft l : forall c,
  noAudioLeft (vsIndex (video c)) (asIndex (audio c)) l = true ->
  exists c',
    readAudioFrameFrom l c = (None, ([], c')) /\ sameButDecoded c c' /\
    leftoverVideo c' = leftoverVideo c ++ framesOf (vsIndex (video c)) l.
Proof.
  induction l as [|[e|[i d|i d|i]] l IH]; intros c; simpl.
  - intros _. exists c. rewrite app_nil_r. split; [reflexivity|].
    split; [apply sameButDecoded_refl | reflexivity].
  - discriminate.
  - intros H. apply andb_prop in H. destruct H as [Hd Hl].
    destruct (i =? vsIndex (video c)) eqn:Hi; simpl in *.
    + destruct d as [e| |f]; [discriminate| |].
      * apply IH. exact Hl.
      * match goal with
        | |- context [readAudioFrameFrom l ?x] => destruct (IH x Hl) as (c' & H1 & H2 & H3)
        end.
        exists c'. split; [exact H1|]. split.
        -- eapply sameButDecoded_trans; [|exact H2]. unfold sameButDecoded. repeat split.
        -- rewrite H3. simpl. rewrite <- app_assoc. reflexivity.
    + destruct d; rewrite ?Hi; apply IH; exact Hl.
  - intros H. apply andb_prop in H. destruct H as [Hd Hl].
    destruct (i =? asIndex (audio c)) eqn:Hi; simpl in *.
    + destruct d as [e| |f]; try discriminate. apply IH. exact Hl.
    + apply IH. exact Hl.
  - intros H. apply IH. exact H.
Qed.


(** With nothing more to play, the decoding loop of a pull goes to its
    end-of-stream branch at once. *)
Lemma decodeInto_at_end fuel ctx room served c :
  noAudioLeft (vsIndex (video c)) (asIndex (audio c)) (upcoming (media c)) = true ->
  leftoverAudio c = [] ->
  exists c1,
    sameButDecoded c c1 /\ upcoming (media c1) = [] /\
    leftoverVideo c1 = leftoverVideo c ++ framesOf (vsIndex (video c)) (upcoming (media c)) /\
    decodeInto (S fuel) ctx (S room) served c =
      if looping c1 then
        match noLockRewindForLooping (setAudioPlayer None c1) with
        | (c2, Some e) => Some (Returned (reply served (Some e), c2))
        | (c2, None) =>
            match noLockHackyAudioReset ctx c2 with
            | Panicked msg => Some (Panicked msg)
            | Returned (c3, Some e) => Some (Returned (reply served (Some e), c3))
            | Returned (c3, None) => Some (Returned (reply served (Some EOF), c3))
            end
        end
      else
        match noLockStop stopModeEndOfVideo (setAudioPlayer None c1) with
        | (c2, Some e) => Some (Returned (reply served (Some e), c2))
        | (c2, None) => Some (Returned (reply served (Some EOF), c2))
        end.
Proof.
  intros Hq Hl.
  destruct (readAudioFrameFrom_noAudioLeft _ c Hq) as (c' & H1 & H2 & H3).
  exists (setMedia (setUpcoming [] (media c')) c').
  split; [eapply sameButDecoded_trans; [exact H2|]; unfold sameButDecoded; repeat split|].
  split; [reflexivity|]. split; [exact H3|].
  cbn [decodeInto]. unfold internalReadAudioFrame. rewrite H1.
  assert (Hl' : leftoverAudio c' = []).
  { unfold sameButDecoded in H2. 
    repeat match goal with H : _ /\ _ |- _ => destruct H end. congruence. }
  cbn [leftoverAudio setMedia]. rewrite Hl'. reflexivity.
Qed.

Lemma Read_at_end strict ctx len c :
  len mod 4 = 0 -> Z.of_nat (List.length (leftoverAudio c)) < len ->
  noAudioLeft (vsIndex (video c)) (asIndex (audio c)) (upcoming (media c)) = true ->
  exists c1,
    sameButDecoded (setLeftoverAudio [] c) c1 /\ upcoming (media c1) = [] /\
    leftoverVideo c1 = leftoverVideo c ++ framesOf (vsIndex (video c)) (upcoming (media c)) /\
    Read strict ctx len c =
      if looping c1 then
        match noLockRewindForLooping (setAudioPlayer None c1) with
        | (c2, Some e) => Some (Returned (reply (leftoverAudio c) (Some e), c2))
        | (c2, None) =>
            match noLockHackyAudioReset ctx c2 with
            | Panicked msg => Some (Panicked msg)
            | Returned (c3, Some e) => Some (Returned (reply (leftoverAudio c) (Some e), c3))
            | Returned (c3, None) => Some (Returned (reply (leftoverAudio c) (Some EOF), c3))
            end
        end
      else
        match noLockStop stopModeEndOfVideo (setAudioPlayer None c1) with
        | (c2, Some e) => Some (Returned (reply (leftoverAudio c) (Some e), c2))
        | (c2, None) => Some (Returned (reply (leftoverAudio c) (Some EOF), c2))
        end.
Proof.
  intros Hmod Hlen Hq. unfold Read. rewrite low_bits_are_remainder, Hmod. cbn [Z.eqb negb].
  destruct (leftoverAudio c) as [|b bs] eqn:Hleft.
  - destruct (Z.to_nat len) as [|r] eqn:Hr; [simpl in Hlen; lia|].
    destruct (decodeInto_at_end (List.length (upcoming (media c))) ctx r [] c Hq Hleft)
      as (c1 & H1 & H2 & H3 & H4).
    exists c1. split; [|split; [exact H2|split; [exact H3|exact H4]]].
    eapply sameButDecoded_trans; [|exact H1].
    unfold sameButDecoded. simpl. rewrite Hleft. repeat split.
  - assert (Hcopy : noLockCopyLeftoverAudio (Z.to_nat len) c = (b :: bs, setLeftoverAudio [] c)).
    { unfold noLockCopyLeftoverAudio. rewrite Hleft.
      rewrite firstn_all2 by (simpl in *; lia).
      rewrite Nat.leb_refl. reflexivity. }
    rewrite Hcopy.
    destruct (Z.to_nat len - List.length (b :: bs))%nat as [|r] eqn:Hr; [simpl in *; lia|].
    destruct (decodeInto_at_end (List.length (upcoming (media c))) ctx r (b :: bs)
                (setLeftoverAudio [] c) Hq eq_refl) as (c1 & H1 & H2 & H3 & H4).
    exists c1. split; [exact H1|]. split; [exact H2|]. split; [exact H3|exact H4].
Qed.


Lemma natural_stop_without_sink c :
  state c <> Stopped -> audioPlayer c = None ->
  let r := noLockStop stopModeEndOfVideo c in
  state (fst r) = Stopped /\ audioPlayer (fst r) = None /\
  staticPosition (fst r) = duration c /\
  lastReadFrame (fst r) = lastReadFrame c /\ leftoverVideo (fst r) = leftoverVideo c /\
  leftoverAudio (fst r) = [] /\
  (videoRewindErr (media c) = None -> audioRewindErr (media c) = None ->
   videoCloseErr (media c) = None -> audioCloseErr (media c) = None ->
   closeDecodeErr (media c) = None -> snd r = None).
Proof.
  intros Hns Hp. cbv zeta. unfold noLockStop.
  cbn [Bool.eqb stopModeManual stopModeEndOfVideo].
  assert (Hgo : forall A (x y : A), match state c with Stopped => x | _ => y end = y).
  { intros A x y. destruct (state c); [contradiction | reflexivity | reflexivity]. }
  rewrite Hgo. unfold noLockEnsureAudioHalt. cbn [audioPlayer setState]. rewrite Hp.
  set (cz := setVideoPendingLoop false _).
  pose proof (PlaybackExtras.with_audio_rewindAndClose_fields cz)
    as (B0 & B1 & B2 & B3 & B4 & B5 & B6 & B7 & B8).
  assert (Herr : videoRewindErr (media c) = None -> audioRewindErr (media c) = None ->
                 videoCloseErr (media c) = None -> audioCloseErr (media c) = None ->
                 closeDecodeErr (media c) = None -> snd (rewindAndClose cz) = None).
  { intros E1 E2 E3 E4 E5. unfold rewindAndClose, VideoRewind, AudioRewind. cbn.
    rewrite E1. cbn. rewrite E2. cbn. rewrite E3, E4. exact E5. }
  destruct (rewindAndClose cz) as [c3 e3]. cbn in *.
  repeat split; try congruence. exact Herr.
Qed.

(** The last pull, looping off: when the buffer has room for more than
    the bytes kept and the packets left hold no audio frame, the pull
    hands out the bytes kept together with an error, which is [io.EOF]
    when the decoder rewinds and closes cleanly.  The controller is then
    Stopped without a sink, [Position()] is the duration, the frame held
    is unchanged and the video frames met on the way are queued. *)
Theorem last_pull_ends_playback (strict : bool) (ctx : option Context) (len : Z)
  (c : controller) :
  state c <> Stopped -> looping c = false ->
  len mod 4 = 0 -> Z.of_nat (List.length (leftoverAudio c)) < len ->
  noAudioLeft (vsIndex (video c)) (asIndex (audio c)) (upcoming (media c)) = true ->
  exists err c',
    Read strict ctx len c =
      Some (Returned ((leftoverAudio c, Z.of_nat (List.length (leftoverAudio c)), Some err), c')) /\
    state c' = Stopped /\ audioPlayer c' = None /\
    fst (Position c') = (duration c, None) /\
    lastReadFrame c' = lastReadFrame c /\
    leftoverVideo c' =
      leftoverVideo c ++ framesOf (vsIndex (video c)) (upcoming (media c)) /\
    (videoRewindErr (media c) = None -> audioRewindErr (media c) = None ->
     videoCloseErr (media c) = None -> audioCloseErr (media c) = None ->
     closeDecodeErr (media c) = None -> err = EOF).
Proof.
  intros Hns Hloop Hmod Hlen Hq.
  destruct (Read_at_end strict ctx len c Hmod Hlen Hq) as (c1 & Hsame & Hup & Hlv & Hread).
  unfold sameButDecoded in Hsame. cbn in Hsame.
  destruct Hsame as (S1 & S2 & S3 & S4 & S5 & S6 & S7 & S8 & S9 & S10 & S11 & S12 & S13 &
                     S14 & S15 & S16 & S17 & S18 & S19 & S20 & S21 & S22 & S23 & S24).
  rewrite S5, Hloop in Hread.
  assert (Hns2 : state (setAudioPlayer None c1) <> Stopped) by (cbn; congruence).
  destruct (natural_stop_without_sink (setAudioPlayer None c1) Hns2 eq_refl)
    as (N1 & N2 & N3 & N4 & N5 & N6 & N7).
  cbn [duration lastReadFrame leftoverVideo media setAudioPlayer] in N3, N4, N5, N7.
  destruct (noLockStop stopModeEndOfVideo (setAudioPlayer None c1)) as [c2 [e|]];
    cbn [fst snd] in *.
  - exists e, c2. split; [exact Hread|].
    split; [exact N1|]. split; [exact N2|].
    split; [unfold Position, noLockPosition; rewrite N2, N3; cbn; congruence|].
    split; [congruence|]. split; [congruence|].
    intros E1 E2 E3 E4 E5. rewrite <- S20, <- S23, <- S21, <- S24, <- S18 in *.
    specialize (N7 E1 E2 E3 E4 E5). discriminate.
  - exists EOF, c2. split; [exact Hread|].
    split; [exact N1|]. split; [exact N2|].
    split; [unfold Position, noLockPosition; rewrite N2, N3; cbn; congruence|].
    split; [congruence|]. split; [congruence|]. reflexivity.
Qed.

(** The last pull, looping on: with the same buffer and packets, and a
    decoder that rewinds, the pull hands out the bytes kept together with
    [io.EOF], puts the demuxer back at the start, marks the loop as
    pending for the video side and replaces the sink by a new one,
    running, with the volume in force.  The state is unchanged and, until
    the new sink has played its first frame, [Position()] is the position
    kept from the last pause or stop. *)
Theorem last_pull_rewinds_for_loop (strict : bool) (ctx : Context) (len : Z)
  (c : controller) :
  looping c = true ->
  len mod 4 = 0 -> Z.of_nat (List.length (leftoverAudio c)) < len ->
  noAudioLeft (vsIndex (video c)) (asIndex (audio c)) (upcoming (media c)) = true ->
  audioRewindErr (media c) = None -> videoRewindErr (media c) = None ->
  newPlayerErr ctx = None ->
  exists c' p,
    Read strict (Some ctx) len c =
      Some (Returned ((leftoverAudio c, Z.of_nat (List.length (leftoverAudio c)), Some EOF), c')) /\
    state c' = state c /\ videoPendingLoop c' = true /\
    upcoming (media c') = seekTo (media c) 0 /\
    audioPlayer c' = Some p /\ running p = true /\ consumed p = 0 /\
    playerVolume p = getEffectiveVolume c /\
    fst (Position c') = (staticPosition c, None) /\
    lastReadFrame c' = lastReadFrame c /\
    leftoverVideo c' =
      leftoverVideo c ++ framesOf (vsIndex (video c)) (upcoming (media c)).
Proof.
  intros Hloop Hmod Hlen Hq Ha Hv Hctx.
  destruct (Read_at_end strict (Some ctx) len c Hmod Hlen Hq) as (c1 & Hsame & Hup & Hlv & Hread).
  unfold sameButDecoded in Hsame. cbn in Hsame.
  destruct Hsame as (S1 & S2 & S3 & S4 & S5 & S6 & S7 & S8 & S9 & S10 & S11 & S12 & S13 &
                     S14 & S15 & S16 & S17 & S18 & S19 & S20 & S21 & S22 & S23 & S24).
  rewrite S5, Hloop in Hread.
  unfold noLockRewindForLooping, AudioRewind, VideoRewind in Hread.
  cbn in Hread. rewrite S23, Ha in Hread. cbn in Hread. rewrite S20, Hv in Hread.
  unfold noLockHackyAudioReset, noLockCreateAudioPlayer, NewPlayer in Hread.
  rewrite Hctx in Hread. cbn in Hread.
  eexists. eexists. split; [exact Hread|]. cbn.
  split; [exact S8|]. split; [reflexivity|]. split; [rewrite S16; reflexivity|].
  split; [reflexivity|]. split; [reflexivity|]. split; [reflexivity|].
  split; [unfold getEffectiveVolume; cbn; rewrite S7, S9; reflexivity|].
  split; [unfold Position, noLockPosition; cbn; rewrite S15; reflexivity|].
  split; [exact S10 | exact Hlv].
Qed.


Lemma last_pull_ends_playback_witness :
  exists err c',
    Read false None 8 (playingWithAudio (cadence 2 0 (40 * Millisecond))) =
      Some (Returned (([], 0, Some err), c')) /\
    state c' = Stopped /\ fst (Position c') = (10 * Second, None) /\
    List.length (leftoverVideo c') = 2%nat.
Proof.
  pose (c := playingWithAudio (cadence 2 0 (40 * Millisecond))).
  assert (H1 : state c <> Stopped) by discriminate.
  assert (H2 : Z.of_nat (List.length (leftoverAudio c)) < 8) by reflexivity.
  destruct (last_pull_ends_playback false None 8 c H1 eq_refl eq_refl H2 eq_refl)
    as (err & c' & G1 & G2 & _ & G4 & _ & G6 & _).
  exists err, c'. split; [exact G1|]. split; [exact G2|]. split; [exact G4|].
  rewrite G6. reflexivity.
Defined.

Lemma last_pull_rewinds_for_loop_witness :
  exists c',
    Read false (Some context48k) 8
         (SetLooping true (playingWithAudio (cadence 2 0 (40 * Millisecond)))) =
      Some (Returned (([], 0, Some EOF), c')) /\
    state c' = Playing /\ videoPendingLoop c' = true /\
    upcoming (media c') = cadence 2 0 (40 * Millisecond).
Proof.
  pose (c := SetLooping true (playingWithAudio (cadence 2 0 (40 * Millisecond)))).
  assert (H2 : Z.of_nat (List.length (leftoverAudio c)) < 8) by reflexivity.
  destruct (last_pull_rewinds_for_loop false context48k 8 c eq_refl eq_refl H2 eq_refl
              eq_refl eq_refl eq_refl)
    as (c' & p & G1 & G2 & G3 & G4 & _).
  exists c'. repeat split; assumption.
Defined.

End EndExtras.

(** ** The queue of video frames decoded ahead *)

Module QueueExtras.
Import WithAudio Samples Notions MoreNotions MoreSamples.

(** The loop over the frames decoded ahead takes them from the front, one
    by one, and touches nothing but the frame held and the loop flag. *)
Lemma consumeLeftover_takes_prefix rest : forall position prev pres index c index' c',
  consumeLeftover rest position prev pres index c = (None, index', c') ->
  exists k,
    index' = (index + k)%nat /\ (k <= List.length rest)%nat /\
    lastReadFrame c' =
      match k with
      | O => lastReadFrame c
      | S j => nth_error rest j
      end /\
    leftoverVideo c' = leftoverVideo c /\ media c' = media c /\
    state c' = state c /\ audioPlayer c' = audioPlayer c /\
    leftoverAudio c' = leftoverAudio c.
Proof.
  induction rest as [|f rest IH]; intros position prev pres index c index' c'; simpl.
  - intros H. inversion H; subst. exists O. rewrite Nat.add_0_r. repeat split. lia.
  - destruct (_ || _).
    + unfold PresentationOffset. destruct (vfOffsetErr f); [discriminate|].
      intros H. apply IH in H.
      destruct H as (k & H1 & H2 & H3 & H4 & H5 & H6 & H7 & H8).
      exists (S k). split; [lia|]. split; [lia|].
      split.
      { rewrite H3. destruct k; [|reflexivity].
        destruct (videoPendingLoop c && (pres <? prev)); reflexivity. }
      destruct (videoPendingLoop c && (pres <? prev)); simpl in *; repeat split; assumption.
    + intros H. inversion H; subst. exists O. rewrite Nat.add_0_r. repeat split. lia.
Qed.

(** [CurrentVideoFrame()] of the audio-driven controller, when it returns
    a frame or none without the end flag: the frames decoded ahead leave
    the queue from the front, in the order they were decoded; the frame
    returned is the last one taken, or the one held before when none was;
    the rest of the queue stays, in order, and the decoder is not
    touched. *)
Theorem frames_leave_the_queue_in_order (c : controller) (fr : option VideoFrame)
  (c' : controller) :
  CurrentVideoFrame c = ((fr, false, None), c') ->
  exists k,
    (k <= List.length (leftoverVideo c))%nat /\
    leftoverVideo c' = skipn k (leftoverVideo c) /\
    lastReadFrame c' = fr /\
    fr = match k with
         | O => lastReadFrame c
         | S j => nth_error (leftoverVideo c) j
         end /\
    media c' = media c /\ state c' = state c /\ leftoverAudio c' = leftoverAudio c.
Proof.
  unfold CurrentVideoFrame.
  destruct (state c) eqn:Hst.
  - intros H. inversion H; subst. exists O. simpl.
    repeat split; try reflexivity; try lia; assumption.
  - destruct (noLockPosition c) as [[[pos [|]] [e|]] c0] eqn:Hpos; try discriminate.
    apply ResumeExtras.noLockPosition_short in Hpos. subst c0.
    set (start := match lastReadFrame c with None => _ | Some f => _ end).
    destruct start as [pres [e|]]; [discriminate|].
    destruct (consumeLeftover _ _ _ _ _ _) as [[[e|] index] c1] eqn:Hloop; [discriminate|].
    apply consumeLeftover_takes_prefix in Hloop.
    destruct Hloop as (k & H1 & H2 & H3 & H4 & H5 & H6 & H7 & H8). simpl in H1. subst index.
    intros H. exists k. split; [exact H2|].
    destruct (Nat.eqb k 0) eqn:Hk0.
    + apply Nat.eqb_eq in Hk0. subst k. inversion H; subst. simpl.
      repeat split; congruence.
    + rewrite H4 in H. destruct (Nat.eqb k (List.length (leftoverVideo c))) eqn:Hk.
      * apply Nat.eqb_eq in Hk. inversion H; subst fr c'. simpl.
        rewrite Hk at 1. rewrite skipn_all.
        destruct k; [discriminate|]. repeat split; congruence.
      * inversion H; subst fr c'. simpl.
        destruct k; [discriminate|]. repeat split; congruence.
  - destruct (noLockPosition c) as [[[pos [|]] [e|]] c0] eqn:Hpos; try discriminate.
    apply ResumeExtras.noLockPosition_short in Hpos. subst c0.
    set (start := match lastReadFrame c with None => _ | Some f => _ end).
    destruct start as [pres [e|]]; [discriminate|].
    destruct (consumeLeftover _ _ _ _ _ _) as [[[e|] index] c1] eqn:Hloop; [discriminate|].
    apply consumeLeftover_takes_prefix in Hloop.
    destruct Hloop as (k & H1 & H2 & H3 & H4 & H5 & H6 & H7 & H8). simpl in H1. subst index.
    intros H. exists k. split; [exact H2|].
    destruct (Nat.eqb k 0) eqn:Hk0.
    + apply Nat.eqb_eq in Hk0. subst k. inversion H; subst. simpl.
      repeat split; congruence.
    + rewrite H4 in H. destruct (Nat.eqb k (List.length (leftoverVideo c))) eqn:Hk.
      * apply Nat.eqb_eq in Hk. inversion H; subst fr c'. simpl.
        rewrite Hk at 1. rewrite skipn_all.
        destruct k; [discriminate|]. repeat split; congruence.
      * inversion H; subst fr c'. simpl.
        destruct k; [discriminate|]. repeat split; congruence.
Qed.


(** At 100ms three of the four frames decoded ahead are taken. *)
Lemma frames_leave_the_queue_in_order_witness :
  exists k,
    (k <= 4)%nat /\
    leftoverVideo (snd (CurrentVideoFrame queued)) = skipn k (leftoverVideo queued) /\
    fst (CurrentVideoFrame queued) = (Some (frameAt (80 * Millisecond)), false, None) /\
    leftoverVideo (snd (CurrentVideoFrame queued)) = [frameAt (120 * Millisecond)].
Proof.
  assert (H : CurrentVideoFrame queued =
              ((Some (frameAt (80 * Millisecond)), false, None),
               snd (CurrentVideoFrame queued))) by (vm_compute; reflexivity).
  destruct (frames_leave_the_queue_in_order queued _ _ H) as (k & H1 & H2 & _).
  exists k. split; [exact H1|]. split; [exact H2|]. split; vm_compute; reflexivity.
Defined.

End QueueExtras.

(** ** The live controller along its runs *)

Module LiveExtras.
Import Stream Samples Notions MoreNotions MoreSamples StreamFacts.







(** [Pause] on a playing live stream freezes the position at the instant
    of the call, but does not hold the frames back: the next frame in
    the channel is published without waiting for its due time, becomes
    the current frame, and moves the position to its offset since the
    first frame of the session, while the state stays Paused. *)
Theorem live_pause_does_not_hold_frames (t : Time) (c : controller) :
  state c = Playing ->
  let p := projected (referencePosition c) (referenceTime c) t in
  let c1 := fst (Pause t c) in
  Pause t c = (c1, None) /\ state c1 = Paused /\
  (forall later, fst (Position later c1) = (p, None)) /\
  (forall f rest tBase now tPublish stopped later,
     stopCh c = Some false -> decodedCh c = Some (f :: rest) -> vfOffsetErr f = None ->
     let c2 := scheduleLoop tBase now tPublish stopped c1 in
     scheduleWaits f tBase now c1 = false /\
     state c2 = Paused /\ decodedCh c2 = Some rest /\
     fst (CurrentVideoFrame c2) = (Some f, false, None) /\
     fst (Position later c2) =
       (durSub (vfOffset f) (if havePTSBase c then ptsBase c else vfOffset f), None)).
Proof.
  intros Hst. cbv zeta.
  assert (Hp : Pause t c =
            (setReferencePosition (projected (referencePosition c) (referenceTime c) t)
               (setReferenceTime t (setState Paused c)), None)).
  { unfold Pause, noLockPosition, projected. rewrite Hst. reflexivity. }
  rewrite Hp. cbn [fst].
  split; [reflexivity|]. split; [reflexivity|]. split.
  - intros later. unfold Position, noLockPosition. cbn. reflexivity.
  - intros f rest tBase now tPublish stopped later Hs Hd Hf.
    unfold scheduleWaits, scheduleLoop, scheduleFrame, PresentationOffset. cbn.
    rewrite Hs, Hd, Hf. cbn.
    split; [destruct (havePTSBase c); reflexivity|].
    destruct (havePTSBase c); cbn; repeat split.
Qed.



(** Paused at 1s with a frame of offset 7.04s waiting: the frame is
    published and the position becomes 40ms. *)
Lemma live_pause_does_not_hold_frames_witness :
  let c := liveWaiting Playing (frameAt (7040 * Millisecond)) in
  let c1 := fst (Pause (1 * Second) c) in
  fst (Position (5 * Second) c1) = (1 * Second, None) /\
  fst (Position (5 * Second) (scheduleLoop 2 3 4 true c1)) = (40 * Millisecond, None).
Proof.
  cbv zeta.
  pose (c := liveWaiting Playing (frameAt (7040 * Millisecond))).
  destruct (live_pause_does_not_hold_frames (1 * Second) c eq_refl) as (_ & _ & G1 & G2).
  split; [exact (G1 (5 * Second))|].
  destruct (G2 (frameAt (7040 * Millisecond)) [] 2 3 4 true (5 * Second)
              eq_refl eq_refl eq_refl) as (_ & _ & _ & _ & G3).
  exact G3.
Defined.

End LiveExtras.

(** ** The player and its image *)

Module FacadeExtras.
Import Player Facade Samples Notions MoreNotions MoreSamples.

Lemma imageAgrees_fields p q :
  onBlackFrame q = onBlackFrame p -> currentFrame q = currentFrame p ->
  imageAgrees p -> imageAgrees q.
Proof. unfold imageAgrees. intros -> ->. trivial. Qed.

Lemma copyFrame_agrees frame p : imageAgrees p -> imageAgrees (copyFrame frame p).
Proof.
  unfold imageAgrees, copyFrame. intros H.
  destruct frame as [f|]; simpl.
  - split; discriminate.
  - destruct (onBlackFrame p) eqn:E; simpl; [rewrite E; exact H|].
    split; reflexivity.
Qed.

Lemma copyFrame_nil_black p :
  imageAgrees p ->
  currentFrame (copyFrame None p) = Black /\ onBlackFrame (copyFrame None p) = true.
Proof.
  unfold imageAgrees, copyFrame. intros H.
  destruct (onBlackFrame p) eqn:E; simpl; [|split; reflexivity].
  split; [apply H; reflexivity | exact E].
Qed.


Lemma CurrentFrame_agrees w p img err p' :
  imageAgrees p -> CurrentFrame w p = Some ((img, err), p') ->
  imageAgrees p' /\
  (err = None -> img = Some (currentFrame p')) /\ (err <> None -> img = None).
Proof.
  intros H. unfold CurrentFrame.
  destruct (controllerCurrentVideoFrame w (controller p)) as [[[[frame ended] [e|]] vc]|];
    try discriminate.
  - intros E; inversion E; subst. split; [exact H|]. split; [discriminate | reflexivity].
  - set (p1 := if ended then _ else _).
    assert (H1 : imageAgrees p1).
    { unfold p1. destruct ended; exact H. }
    clearbody p1. destruct frame as [f|].
    + unfold PresentationOffset. destruct (vfOffsetErr f) as [e|].
      * intros E; inversion E; subst. split; [exact H1|]. split; [discriminate | reflexivity].
      * destruct (_ || _); intros E; inversion E; subst.
        -- split; [exact (copyFrame_agrees (Some f) (setCurrentPresOffset (vfOffset f) p1) H1)|].
           split; [reflexivity | congruence].
        -- split; [exact H1|]. split; [reflexivity | congruence].
    + set (p2 := if negb (reachedEnd p1) then _ else p1).
      assert (H2 : imageAgrees p2).
      { unfold p2. destruct (negb (reachedEnd p1)); [apply copyFrame_agrees|]; exact H1. }
      clearbody p2. intros E; inversion E; subst.
      split; [exact H2|]. split; [reflexivity | congruence].
Qed.

Lemma Play_agrees w p p' err :
  imageAgrees p -> Play w p = Returned (p', err) -> imageAgrees p'.
Proof.
  intros H. unfold Play.
  set (p1 := if reachedEnd p then _ else p).
  assert (H1 : imageAgrees p1).
  { unfold p1. destruct (reachedEnd p); [|exact H].
    apply (imageAgrees_fields (copyFrame None p)); try reflexivity.
    apply copyFrame_agrees. exact H. }
  clearbody p1.
  destruct (controllerPlay w (controller p1)) as [[vc e]|msg]; [|discriminate].
  intros E; inversion E; subst. exact H1.
Qed.

Lemma Stop_agrees p :
  imageAgrees p ->
  imageAgrees (fst (Stop p)) /\ currentFrame (fst (Stop p)) = Black /\
  onBlackFrame (fst (Stop p)) = true /\ currentPresOffset (fst (Stop p)) = 0.
Proof.
  intros H. unfold Stop.
  assert (H0 : imageAgrees (setCurrentPresOffset 0 p)) by exact H.
  pose proof (copyFrame_agrees None _ H0) as H1.
  pose proof (copyFrame_nil_black _ H0) as [H2 H3].
  assert (H4 : currentPresOffset (copyFrame None (setCurrentPresOffset 0 p)) = 0).
  { unfold copyFrame. destruct (negb _); reflexivity. }
  set (p1 := copyFrame None (setCurrentPresOffset 0 p)) in *. clearbody p1.
  destruct (controllerStop (controller p1)) as [vc e]. simpl.
  repeat split; try assumption; apply H1.
Qed.

Lemma Seek_agrees w position onNil p p' err :
  imageAgrees p -> Seek w position onNil p = Returned (p', err) -> imageAgrees p'.
Proof.
  intros H. unfold Seek.
  destruct (controllerSeek w position (controller p)) as [[[frame [e|]] vc]|msg];
    try discriminate.
  - intros E; inversion E; subst. exact H.
  - assert (H1 : imageAgrees (copyFrame frame (setController vc p)))
      by (apply copyFrame_agrees; exact H).
    set (p1 := copyFrame frame (setController vc p)) in *. clearbody p1.
    destruct (match frame with Some f => _ | None => onNil end) as [[start [e|]]|msg];
      try discriminate.
    intros E; inversion E; subst. exact H1.
Qed.

(** The image of a player and its flag agree, and every method keeps
    them so: the image is the one filled with black exactly when
    [onBlackFrame] is set.  [CurrentFrame()] hands out the image of the
    player whenever it reports no error, and no image with an error;
    [Stop()] leaves the black image, whatever the controller answers. *)
Theorem image_and_flag_agree (w : world) (p : player) :
  imageAgrees p ->
  (forall img err p', CurrentFrame w p = Some ((img, err), p') ->
     imageAgrees p' /\
     (err = None -> img = Some (currentFrame p')) /\ (err <> None -> img = None)) /\
  (forall p' err, Play w p = Returned (p', err) -> imageAgrees p') /\
  imageAgrees (fst (Pause w p)) /\
  (imageAgrees (fst (Stop p)) /\ currentFrame (fst (Stop p)) = Black) /\
  imageAgrees (snd (Position w p)) /\
  (forall position onNil p' err,
     Seek w position onNil p = Returned (p', err) -> imageAgrees p') /\
  (forall volume, imageAgrees (SetVolume volume p)) /\
  (forall muted, imageAgrees (SetMuted muted p)).
Proof.
  intros H.
  split; [intros img err p'; apply CurrentFrame_agrees; exact H|].
  split; [intros p' err; apply Play_agrees; exact H|].
  split; [unfold Pause; destruct (controllerPause w (controller p)); exact H|].
  split; [destruct (Stop_agrees p H) as (H1 & H2 & _); split; assumption|].
  split; [unfold Position; destruct (controllerPosition w (controller p)); exact H|].
  split; [intros position onNil p' err; apply Seek_agrees; exact H|].
  split.
  - intros volume. unfold SetVolume. destruct (controller p); exact H.
  - intros muted. unfold SetMuted. destruct (controller p); exact H.
Qed.






Lemma image_and_flag_agree_witness :
  imageAgrees (fst (Stop (showingPlayer (playing25 clip25 None false) (frameAt 0)))) /\
  currentFrame (fst (Stop (showingPlayer (playing25 clip25 None false) (frameAt 0)))) = Black.
Proof.
  assert (H : imageAgrees (showingPlayer (playing25 clip25 None false) (frameAt 0)))
    by (split; discriminate).
  destruct (image_and_flag_agree noon _ H) as (_ & _ & _ & G & _).
  exact G.
Defined.


End FacadeExtras.

(** ** Setting up a player *)

Module SetupExtras.
Import Player AudioContext Samples Notions MoreNotions MoreSamples.

(** An audio context made by [CreateAudioContextForMedia] fits the file
    it was made for: when the file has a video stream of non-zero frame
    rate and its stream durations can be read, [NewPlayer] on the same
    file returns a player with an audio-driven controller over the first
    audio stream, whose duration is the longer of the two streams.  Once
    a context exists, a second call is refused with
    [ErrNonNilAudioContext] and leaves the context in place. *)
Theorem context_made_for_media_is_accepted (container : Container)
  (sink : option error * option error) (ctx : Context) (now : Time)
  (v : VideoStream) (vs : list VideoStream) :
  CreateAudioContextForMedia None (inl container) sink = (Some ctx, None) ->
  VideoStreams container = v :: vs -> vsFrameRateNum v <> 0 ->
  vsDurationErr v = None ->
  (forall a rest, AudioStreams container = a :: rest -> asDurationErr a = None) ->
  (exists p c a rest,
     NewPlayer (inl container) (Some ctx) now = Returned (Some p, None) /\
     controller p = withAudio c /\
     AudioStreams container = a :: rest /\ WithAudio.audio c = a /\
     ctxSampleRate ctx = asSampleRate a /\
     WithAudio.duration c = Z.max (vsDuration v) (asDuration a)) /\
  (forall other sink',
     CreateAudioContextForMedia (Some ctx) other sink' =
       (Some ctx, Some ErrNonNilAudioContext)).
Proof.
  intros Hctx Hv Hnum Hvd Had. split; [|reflexivity].
  unfold CreateAudioContextForMedia, GetMediaAudioSampleRate in Hctx.
  destruct (AudioStreams container) as [|a rest] eqn:Ha; [discriminate|].
  injection Hctx as <-.
  unfold NewPlayer, newPlayer. rewrite Hv, Ha.
  apply Z.eqb_neq in Hnum. rewrite Hnum.
  unfold WithAudio.newVideoWithAudioController. cbn.
  rewrite Z.eqb_refl, Hnum, Hvd, (Had a rest eq_refl). cbn.
  eexists. eexists. exists a, rest. repeat split.
Qed.


(** A player that was just made: it has an audio-driven controller
    exactly when the file has an audio stream and audio is not ignored;
    its duration is that of the video stream, or the longer of the two
    streams with audio; it is muted exactly when it has no audio; its
    image is black, [Position()] is 0 and [CurrentFrame()] returns the
    black image. *)
Theorem new_player_is_stopped_and_black (opened : Container + error)
  (ignoreAudio : bool) (ctx : option Context) (now : Time) (p0 : Player.Player)
  (w : Facade.world) :
  newPlayer opened ignoreAudio ctx now = Returned (Some p0, None) ->
  let p := Facade.constructed p0 in
  exists container v vs,
    opened = inl container /\ VideoStreams container = v :: vs /\
    Facade.HasAudio p =
      negb ignoreAudio && negb (Nat.eqb (List.length (AudioStreams container)) 0) /\
    Facade.frameDuration p =
      Z.quot (wrap64 (Second * vsFrameRateDen v)) (vsFrameRateNum v) /\
    Facade.GetDuration p =
      match AudioStreams container with
      | a :: _ => if ignoreAudio then vsDuration v else Z.max (vsDuration v) (asDuration a)
      | [] => vsDuration v
      end /\
    Facade.GetMuted p = negb (Facade.HasAudio p) /\
    Facade.currentFrame p = Facade.Black /\ imageAgrees p /\
    fst (Facade.Position w p) = (0, None) /\
    exists p', Facade.CurrentFrame w p = Some ((Some Facade.Black, None), p').
Proof.
  unfold newPlayer, VideoOnly.newVideoOnlyController,
    WithAudio.newVideoWithAudioController.
  destruct opened as [container|e]; [|discriminate].
  destruct (VideoStreams container) as [|v vs] eqn:Hv; [discriminate|].
  destruct (vsFrameRateNum v =? 0) eqn:Hnum; [discriminate|].
  intros H. exists container, v, vs. split; [reflexivity|]. split; [exact Hv|].
  revert H.
  assert (Hblack : forall vc fd,
            imageAgrees (Facade.constructed
              {| controller := vc; currentPresOffset := 0; frameDuration := fd;
                 onBlackFrame := true; reachedEnd := false |}))
    by (intros vc fd; split; reflexivity).
  destruct (AudioStreams container) as [|a rest];
    [|destruct ignoreAudio;
      [|destruct ctx as [x|]; [destruct (negb (ctxSampleRate x =? asSampleRate a))|]]];
    try discriminate;
    destruct (vsDurationErr v); try discriminate;
    try (destruct (asDurationErr a); [discriminate|]);
    intros H; injection H as <-; cbn -[wrap64 Z.quot Z.mul Z.max];
    (split; [first [reflexivity | symmetry; apply andb_false_r]|]); (split; [reflexivity|]);
    (split; [reflexivity|]);
    (split; [reflexivity|]); (split; [reflexivity|]);
    (split; [apply Hblack|]);
    (split;
     [unfold Facade.Position, Facade.controllerPosition, VideoOnly.Position,
        VideoOnly.noLockPosition; cbn -[wrap64 Z.quot Z.mul Z.max];
      try (destruct (timeAfter now (Facade.now w))); reflexivity
     |unfold Facade.CurrentFrame; cbn -[wrap64 Z.quot Z.mul Z.max];
      try (destruct (vsDuration v)); cbn -[wrap64 Z.quot Z.mul Z.max];
      eexists; reflexivity]).
Qed.


Lemma context_made_for_media_is_accepted_witness :
  exists p c,
    NewPlayer (inl stereoFile) (Some (NewContext 44100 (None, None))) 0 =
      Returned (Some p, None) /\
    controller p = withAudio c /\ WithAudio.audio c = stereo.
Proof.
  assert (H : forall a rest, AudioStreams stereoFile = a :: rest -> asDurationErr a = None).
  { intros a rest E. injection E as <- _. reflexivity. }
  assert (Hnum : vsFrameRateNum stream25 <> 0) by discriminate.
  destruct (context_made_for_media_is_accepted stereoFile (None, None)
              (NewContext 44100 (None, None)) 0 stream25 [] eq_refl eq_refl Hnum eq_refl H)
    as ((p & c & a & rest & G1 & G2 & G3 & G4 & _) & _).
  exists p, c. split; [exact G1|]. split; [exact G2|].
  injection G3 as <- _. exact G4.
Defined.

(** What construction refuses: a file without a video stream gets
    [ErrNoVideo]; a file with audio gets [ErrNilAudioContext] when no
    audio context exists and [ErrBadSampleRate] when the context has
    another sample rate than its first audio stream; a file without
    audio gets no audio context but [ErrNoAudio].  No player and no
    context is returned with these errors, and ignoring the audio lifts
    the two that concern it. *)
Theorem construction_is_refused (m : Media) (v : VideoStream) (vs : list VideoStream)
  (a : AudioStream) (audios : list AudioStream) (ctx : Context) (now : Time)
  (sink : option error * option error) :
  vsFrameRateNum v <> 0 -> ctxSampleRate ctx <> asSampleRate a ->
  (forall ignoreAudio any,
     newPlayer (inl {| containerMedia := m; VideoStreams := []; AudioStreams := audios |})
               ignoreAudio any now = Returned (None, Some ErrNoVideo)) /\
  NewPlayer (inl {| containerMedia := m; VideoStreams := v :: vs;
                    AudioStreams := a :: audios |}) None now =
    Returned (None, Some ErrNilAudioContext) /\
  NewPlayer (inl {| containerMedia := m; VideoStreams := v :: vs;
                    AudioStreams := a :: audios |}) (Some ctx) now =
    Returned (None, Some ErrBadSampleRate) /\
  (forall any,
     NewPlayerWithoutAudio
       (inl {| containerMedia := m; VideoStreams := v :: vs;
               AudioStreams := a :: audios |}) any now =
     NewPlayer (inl {| containerMedia := m; VideoStreams := v :: vs; AudioStreams := [] |})
               None now) /\
  CreateAudioContextForMedia None
    (inl {| containerMedia := m; VideoStreams := v :: vs; AudioStreams := [] |}) sink =
    (None, Some ErrNoAudio).
Proof.
  intros Hnum Hrate.
  split; [intros ignoreAudio any; apply ConstructionClaims.no_video_stream_is_rejected|].
  split; [apply ConstructionClaims.nil_audio_context_is_rejected; exact Hnum|].
  split; [apply ConstructionClaims.sample_rate_mismatch_is_rejected; assumption|].
  split; reflexivity.
Qed.

Lemma construction_is_refused_witness :
  NewPlayer (inl stereoFile) None 0 = Returned (None, Some ErrNilAudioContext) /\
  NewPlayer (inl stereoFile) (Some context48k) 0 = Returned (None, Some ErrBadSampleRate).
Proof.
  assert (Hnum : vsFrameRateNum stream25 <> 0) by discriminate.
  assert (Hrate : ctxSampleRate context48k <> asSampleRate stereo) by discriminate.
  destruct (construction_is_refused (sourceOf (interleaved 250 0 (40 * Millisecond) 400))
              stream25 [] stereo [] context48k 0 (None, None) Hnum Hrate)
    as (_ & G1 & G2 & _).
  split; [exact G1 | exact G2].
Defined.

Lemma new_player_is_stopped_and_black_witness :
  exists p0 p',
    NewPlayer (inl silentFile) None 0 = Returned (Some p0, None) /\
    Facade.HasAudio (Facade.constructed p0) = false /\
    Facade.CurrentFrame noon (Facade.constructed p0) = Some ((Some Facade.Black, None), p').
Proof.
  destruct (NewPlayer (inl silentFile) None 0) as [[[p0|] [e|]]|msg] eqn:H;
    try (vm_compute in H; discriminate H).
  destruct (new_player_is_stopped_and_black (inl silentFile) false None 0 p0 noon H)
    as (container & v & vs & E & _ & G1 & _ & _ & _ & _ & _ & _ & p' & G2).
  exists p0, p'. split; [reflexivity|]. split; [|exact G2].
  injection E as <-. exact G1.
Defined.

End SetupExtras.
